(** * WebCrawler: rate limiting, fetching and authentication

    A shallow embedding of the scheduling and session layer of the scraper:
    - [scraper/utils/rate_limiter.py]  ([RateLimiter], [DomainAwareRateLimiter]),
    - [scraper/core/crawler.py]        ([WebCrawler]),
    - [scraper/auth/auth_manager.py]   ([AuthManager]).

    Conventions of the embedding.
    - Python [float]s are exact rationals ([Q]); Python [int]s are [Z].
    - A [Dict[str, _]] is a [gmap string _], a [Set[str]] a [gset string].
    - Everything the program reads from its environment is an explicit
      argument of the embedded function: the readings of [time.time()], the
      draws of [random.uniform], the replies of the network, the contents of
      the keyring and of the configuration file, the answers at the prompt.
    - Everything the program does to its environment is returned: the list of
      durations handed to [asyncio.sleep], a log of transport events.
    - [async] functions are embedded as the sequential function they compute
      between suspension points; the interleaving of several tasks is the
      step relation of module [Tasks]. *)

From Stdlib Require Import ZArith QArith Qminmax String Ascii List Lia Lqa.
From Stdlib Require Import DecimalString DecimalZ DecimalPos.
From stdpp Require Import gmap strings list.

Local Open Scope Z_scope.


(** ** Python values *)

(** Truth value of an [Optional[str]]: [None] and [""] are falsy. *)
Definition truthy (domain : option string) : bool :=
  match domain with
  | Some s => negb (String.eqb s "")
  | None => false
  end.

(** [a < b] on floats, as a boolean. *)
Definition Qltb (a b : Q) : bool := negb (Qle_bool b a).

(** Sum of the durations a call handed to [asyncio.sleep]. *)
Definition total_sleep (sleeps : list Q) : Q :=
  fold_right Qplus 0%Q sleeps.

(** The contract of [random.uniform(a, b)]: the draw lies in [[a, b]]. *)
Definition uniform (a b draw : Q) : Prop := (a <= draw)%Q /\ (draw <= b)%Q.

(** ** scraper/utils/rate_limiter.py *)

Module RateLimiter.

(** The attributes of a limiter object. The last three are those added by
    [DomainAwareRateLimiter.__init__]; the base class never reads them. *)
Record t := mk {
  delay : Q;
  jitter : Q;
  concurrent_requests : Z;
  domain_specific_delays : gmap string Q;
  _semaphore : Z;                          (* value of the asyncio.Semaphore *)
  _last_request_time : gmap string Q;
  _active_domains : gset string;
  _request_counts : gmap string Z;
  _error_counts : gmap string Z;
  _backoff_delays : gmap string Q
}.

Definition set_semaphore (v : Z) (s : t) : t :=
  mk (delay s) (jitter s) (concurrent_requests s) (domain_specific_delays s)
     v (_last_request_time s) (_active_domains s)
     (_request_counts s) (_error_counts s) (_backoff_delays s).

Definition set_last_request_time (m : gmap string Q) (s : t) : t :=
  mk (delay s) (jitter s) (concurrent_requests s) (domain_specific_delays s)
     (_semaphore s) m (_active_domains s)
     (_request_counts s) (_error_counts s) (_backoff_delays s).

Definition set_active_domains (a : gset string) (s : t) : t :=
  mk (delay s) (jitter s) (concurrent_requests s) (domain_specific_delays s)
     (_semaphore s) (_last_request_time s) a
     (_request_counts s) (_error_counts s) (_backoff_delays s).

Definition set_request_counts (m : gmap string Z) (s : t) : t :=
  mk (delay s) (jitter s) (concurrent_requests s) (domain_specific_delays s)
     (_semaphore s) (_last_request_time s) (_active_domains s)
     m (_error_counts s) (_backoff_delays s).

Definition set_error_counts (m : gmap string Z) (s : t) : t :=
  mk (delay s) (jitter s) (concurrent_requests s) (domain_specific_delays s)
     (_semaphore s) (_last_request_time s) (_active_domains s)
     (_request_counts s) m (_backoff_delays s).

Definition set_backoff_delays (m : gmap string Q) (s : t) : t :=
  mk (delay s) (jitter s) (concurrent_requests s) (domain_specific_delays s)
     (_semaphore s) (_last_request_time s) (_active_domains s)
     (_request_counts s) (_error_counts s) m.

(** [__init__]: [domain_specific_delays or {}], a semaphore of
    [concurrent_requests] slots, and empty books. *)
Definition __init__ (delay jitter : Q) (concurrent_requests : Z)
    (domain_specific_delays : option (gmap string Q)) : t :=
  mk delay jitter concurrent_requests
     (default ∅ domain_specific_delays)
     concurrent_requests ∅ ∅ ∅ ∅ ∅.

(** [self.domain_specific_delays.get(domain, self.delay)] *)
Definition domain_delay (s : t) (domain : string) : Q :=
  default (delay s) (domain_specific_delays s !! domain).

(** [_wait_for_domain]. [now1] is the clock read before the test, [u] the
    draw of [random.uniform(-jitter, jitter)] (read only when the call
    sleeps), [now2] the clock read once the domain is marked active. *)
Definition _wait_for_domain (s : t) (domain : string) (now1 u now2 : Q)
    : t * list Q :=
  let last_request := default 0%Q (_last_request_time s !! domain) in
  let time_since_last := (now1 - last_request)%Q in
  let sleeps :=
    if Qltb time_since_last (domain_delay s domain)
       && bool_decide (domain ∈ _active_domains s)
    then [Qmax 0 (domain_delay s domain - time_since_last + u)]
    else [] in
  let s1 := set_active_domains ({[domain]} ∪ _active_domains s) s in
  (set_last_request_time (<[domain := now2]> (_last_request_time s1)) s1,
   sleeps).

(** [_apply_jittered_delay] *)
Definition _apply_jittered_delay (s : t) (u : Q) : t * list Q :=
  (s, [Qmax 0 (delay s + u)]).

(** [wait_for_request] of the base class. *)
Definition wait_for_request (s : t) (domain : option string)
    (now1 u now2 : Q) : t * list Q :=
  match domain with
  | Some d => if truthy domain then _wait_for_domain s d now1 u now2
              else _apply_jittered_delay s u
  | None => _apply_jittered_delay s u
  end.

(** [release]: stamps the domain with the clock and gives the slot back.
    [asyncio.Semaphore.release] only increments the value. *)
Definition release (s : t) (domain : option string) (now : Q) : t :=
  let s1 :=
    match domain with
    | Some d => if truthy domain
                then set_last_request_time (<[d := now]> (_last_request_time s)) s
                else s
    | None => s
    end in
  set_semaphore (_semaphore s1 + 1) s1.

(** [acquire], for a caller that finds a free slot: take it, then wait for
    the rate limit. [wait] is [self.wait_for_request], which the subclass
    overrides. [None] stands for a caller suspended on
    [self._semaphore.acquire()]. The semaphore is its value alone: a
    caller is admitted whenever the value is positive, also where asyncio
    would keep it behind callers that wait already, so that every
    admission of asyncio is one of these. *)
Definition acquire (wait : t -> option string -> Q -> Q -> Q -> t * list Q)
    (s : t) (domain : option string) (now1 u now2 : Q) : option (t * list Q) :=
  if 0 <? _semaphore s then
    Some (wait (set_semaphore (_semaphore s - 1) s) domain now1 u now2)
  else None.

(** [__aenter__] and [__aexit__]: [async with rate_limiter] takes a slot
    without a domain and gives it back. *)
Definition __aenter__ (wait : t -> option string -> Q -> Q -> Q -> t * list Q)
    (s : t) (now1 u now2 : Q) : option (t * list Q) :=
  acquire wait s None now1 u now2.

Definition __aexit__ (s : t) (now : Q) : t := release s None now.

End RateLimiter.

Module DomainAwareRateLimiter.
Import RateLimiter.

(** [wait_for_request] of the subclass: the backoff sleep, the request
    count, then the base class. *)
Definition wait_for_request (s : t) (domain : option string)
    (now1 u now2 : Q) : t * list Q :=
  match domain with
  | Some d =>
      if truthy domain then
        let backoff_sleep :=
          match _backoff_delays s !! d with
          | Some backoff_delay => [backoff_delay]
          | None => []
          end in
        let s1 :=
          set_request_counts
            (<[d := default 0 (_request_counts s !! d) + 1]> (_request_counts s)) s in
        let '(s2, sleeps) := RateLimiter.wait_for_request s1 domain now1 u now2 in
        (s2, backoff_sleep ++ sleeps)
      else RateLimiter.wait_for_request s None now1 u now2
  | None => RateLimiter.wait_for_request s None now1 u now2
  end.

(** [report_success] *)
Definition report_success (s : t) (domain : string) : t :=
  let s1 :=
    match _error_counts s !! domain with
    | Some _ => set_error_counts (delete domain (_error_counts s)) s
    | None => s
    end in
  match _backoff_delays s1 !! domain with
  | Some _ => set_backoff_delays (delete domain (_backoff_delays s1)) s1
  | None => s1
  end.

(** [report_error]. [r] is the draw of [random.uniform(0.8, 1.2)], read
    only when the count has reached 3. *)
Definition report_error (s : t) (domain : string) (error_type : string)
    (r : Q) : t :=
  let error_count := default 0 (_error_counts s !! domain) + 1 in
  let s1 := set_error_counts (<[domain := error_count]> (_error_counts s)) s in
  if 3 <=? error_count then
    let backoff_delay :=
      (inject_Z (Z.min (2 ^ (error_count - 2)) 300) * r)%Q in
    let s2 := set_backoff_delays (<[domain := backoff_delay]> (_backoff_delays s1)) s1 in
    if 10 <=? error_count
    then set_backoff_delays (<[domain := 3600%Q]> (_backoff_delays s2)) s2
    else s2
  else s1.

(** The backoff a domain is under: the duration [wait_for_request] sleeps
    for it before anything else, nothing when no backoff is recorded. *)
Definition backoff_wait (s : t) (domain : string) : Q :=
  default 0%Q (_backoff_delays s !! domain).

(** Consecutive failures of one domain, one draw per call. *)
Fixpoint report_errors (s : t) (domain : string) (draws : list Q) : t :=
  match draws with
  | [] => s
  | r :: draws' => report_errors (report_error s domain "general" r) domain draws'
  end.

End DomainAwareRateLimiter.

(** ** scraper/utils/exceptions.py *)

Module Exceptions.

(** The classes the core raises and meets. [Exception_] stands for the
    library errors an [except Exception] clause catches (client errors,
    timeouts, attribute errors), [BaseException_] for those it lets
    through (cancellation). *)
Inductive exn_class :=
| CrawlerException
| AuthenticationException
| Exception_ (name : string)
| BaseException_ (name : string).

(** An exception object: its class and [str(e)]. *)
Record exn := Raise { class : exn_class; str : string }.

(** [isinstance(e, Exception)] *)
Definition is_Exception (e : exn) : bool :=
  match class e with
  | BaseException_ _ => false
  | _ => true
  end.

End Exceptions.
Import Exceptions.

(** [str(n)] for a Python [int]. *)
Definition str_int (n : Z) : string := NilZero.string_of_int (Z.to_int n).

(** [needle in hay] on strings. *)
Fixpoint contains (needle hay : string) : bool :=
  String.prefix needle hay ||
  match hay with
  | EmptyString => false
  | String _ hay' => contains needle hay'
  end.

(** [sep.join(parts)] *)
Fixpoint join (sep : string) (parts : list string) : string :=
  match parts with
  | [] => ""
  | [p] => p
  | p :: rest => p +:+ sep +:+ join sep rest
  end.

(** A value of a credentials dict or of a form: a [str] or a [bool]. *)
Inductive pyval :=
| PStr (s : string)
| PBool (b : bool).

(** Truth value of such a value. *)
Definition truthy_val (v : pyval) : bool :=
  match v with
  | PStr s => negb (String.eqb s "")
  | PBool b => b
  end.

(** ** scraper/core/crawler.py *)

Module WebCrawler.

(** A Python dict with string keys and values, as the cookie dicts are. *)
Abbreviation cookie := (gmap string string).

(** An [http.cookies.Morsel]: its value and its attributes. *)
Record morsel := { value : string; attrs : gmap string string }.

(** What [session.get] answers with. *)
Record response := {
  status : Z;
  cookies : list (string * morsel);
  text : string
}.

(** What the browser page answers with: [context.cookies()] and
    [page.content()] after a navigation. *)
Record rendering := { context_cookies : list cookie; content : string }.

(** Which class [self.rate_limiter] is an instance of. *)
Inductive limiter_class := Base | DomainAware.

(** The attributes of a crawler object. Objects it refers to (client
    session, playwright driver, browser, browser context) are identifiers
    into the [world]. The proxy settings, which only parametrize the
    transport, are left out. *)
Record t := mk {
  base_url : string;
  user_agent_rotation : bool;
  headers : gmap string string;
  limiter : limiter_class;
  rate_limiter : RateLimiter.t;
  use_browser : bool;
  _session : option nat;
  _playwright : option nat;
  _browser : option nat;
  _context : option nat;
  _cookies : list cookie;
  _is_initialized : bool
}.

(** What the crawler does to the transport. *)
Inductive event :=
| SessionCreated (id : nat) (hdrs : gmap string string) (jar : gmap string string)
| SessionClosed (id : nat)
| PlaywrightStarted (id : nat)
| PlaywrightStopped (id : nat)
| BrowserLaunched (id : nat)
| BrowserClosed (id : nat)
| ContextCreated (id : nat) (user_agent : option string)
| CookiesAdded (ctx : nat) (cs : list cookie)
| Slept (duration : Q)
| HttpGet (session : nat) (url : string) (params : option (list (string * string)))
| HttpPost (session : nat) (url : string) (data : gmap string pyval)
| PageOpened (ctx : nat)
| PageGoto (url : string)
| PageClosed.

(** The objects outside the crawler: the next fresh identifier, the client
    sessions that are open ([not session.closed]), and the log. *)
Record world := World {
  next_id : nat;
  open_sessions : gset nat;
  log : list event
}.

(** What one call reads from outside. *)
Record oracle := {
  user_agent : string;                     (* random.choice(USER_AGENTS), if drawn *)
  jitter_draw : Q;                         (* random.uniform(-jitter, jitter) *)
  clock1 : Q;                              (* time.time() *)
  clock2 : Q;
  playwright_start : option exn;           (* async_playwright().start() raises *)
  browser_launch : option exn;             (* browser_type.launch raises *)
  new_context : option exn;                (* browser.new_context raises *)
  add_cookies : option exn;                (* context.add_cookies raises *)
  http_reply : exn + response;             (* session.get(...) *)
  new_page : option exn;                   (* context.new_page raises *)
  page_reply : exn + rendering;            (* page.goto, cookies, content *)
  (* How far a retrieval that raises got. When [http_reply] is what
     [response.text()] raised on a response of status 200: the cookies of
     that response. When [page_reply] is what [page.content()] raised
     after the navigation: what [context.cookies()] had returned. [None]
     when the request or the navigation itself raised. *)
  unread_response : option (list (string * morsel));
  unread_page : option (list cookie)
}.

(** A method: it may raise, and it leaves the crawler and the world as
    they were when it returned or raised. *)
Definition M (A : Type) : Type := t -> world -> (exn + A) * t * world.

#[global] Instance M_ret : MRet M := fun A a c w => (inr a, c, w).
#[global] Instance M_bind : MBind M := fun A B k m c w =>
  match m c w with
  | (inl e, c', w') => (inl e, c', w')
  | (inr a, c', w') => k a c' w'
  end.

Definition raise {A} (e : exn) : M A := fun c w => (inl e, c, w).
Definition self : M t := fun c w => (inr c, c, w).
Definition update (f : t -> t) : M unit := fun c w => (inr tt, f c, w).
Definition the_world : M world := fun c w => (inr w, c, w).
Definition emit (ev : event) : M unit := fun c w =>
  (inr tt, c, World (next_id w) (open_sessions w) (log w ++ [ev])).
Definition fresh : M nat := fun c w =>
  (inr (next_id w), c, World (S (next_id w)) (open_sessions w) (log w)).
(** An awaited call that raises when the oracle says so. *)
Definition await (failure : option exn) : M unit :=
  match failure with
  | Some e => raise e
  | None => mret tt
  end.
(** [try: body except Exception as e: handler(e)] *)
Definition try_except {A} (body : M A) (handler : exn -> M A) : M A :=
  fun c w =>
    match body c w with
    | (inl e, c', w') => if is_Exception e then handler e c' w' else (inl e, c', w')
    | r => r
    end.
(** [try: body finally: final]; what [final] raises replaces the outcome
    of [body]. *)
Definition try_finally {A} (body : M A) (final : M unit) : M A :=
  fun c w =>
    match body c w with
    | (r, c', w') =>
        match final c' w' with
        | (inl e, c'', w'') => (inl e, c'', w'')
        | (inr _, c'', w'') => (r, c'', w'')
        end
    end.

Definition with_session (v : option nat) (c : t) : t :=
  mk (base_url c) (user_agent_rotation c) (headers c) (limiter c) (rate_limiter c)
     (use_browser c) v (_playwright c) (_browser c) (_context c) (_cookies c)
     (_is_initialized c).
Definition with_playwright (v : option nat) (c : t) : t :=
  mk (base_url c) (user_agent_rotation c) (headers c) (limiter c) (rate_limiter c)
     (use_browser c) (_session c) v (_browser c) (_context c) (_cookies c)
     (_is_initialized c).
Definition with_browser (v : option nat) (c : t) : t :=
  mk (base_url c) (user_agent_rotation c) (headers c) (limiter c) (rate_limiter c)
     (use_browser c) (_session c) (_playwright c) v (_context c) (_cookies c)
     (_is_initialized c).
Definition with_context (v : option nat) (c : t) : t :=
  mk (base_url c) (user_agent_rotation c) (headers c) (limiter c) (rate_limiter c)
     (use_browser c) (_session c) (_playwright c) (_browser c) v (_cookies c)
     (_is_initialized c).
Definition with_cookies (v : list cookie) (c : t) : t :=
  mk (base_url c) (user_agent_rotation c) (headers c) (limiter c) (rate_limiter c)
     (use_browser c) (_session c) (_playwright c) (_browser c) (_context c) v
     (_is_initialized c).
Definition with_is_initialized (v : bool) (c : t) : t :=
  mk (base_url c) (user_agent_rotation c) (headers c) (limiter c) (rate_limiter c)
     (use_browser c) (_session c) (_playwright c) (_browser c) (_context c)
     (_cookies c) v.
Definition with_rate_limiter (v : RateLimiter.t) (c : t) : t :=
  mk (base_url c) (user_agent_rotation c) (headers c) (limiter c) v
     (use_browser c) (_session c) (_playwright c) (_browser c) (_context c)
     (_cookies c) (_is_initialized c).

(** [__init__]: [rate_limiter or RateLimiter()], [headers or {}]. *)
Definition __init__ (base_url : string) (user_agent_rotation : bool)
    (rate_limiter : option (limiter_class * RateLimiter.t))
    (headers : option (gmap string string)) (use_browser : bool) : t :=
  let rl := default (Base, RateLimiter.__init__ 1 0.5 1 None) rate_limiter in
  mk base_url user_agent_rotation (default ∅ headers) rl.1 rl.2 use_browser
     None None None None [] false.

(** [_get_headers] *)
Definition _get_headers (ua : string) (c : t) : gmap string string :=
  if user_agent_rotation c && negb (bool_decide (is_Some (headers c !! "User-Agent")))
  then <["User-Agent" := ua]> (headers c)
  else headers c.

(** [{cookie['name']: cookie['value'] for cookie in self._cookies
      if 'name' in cookie and 'value' in cookie}] *)
Definition cookie_jar (cs : list cookie) : gmap string string :=
  fold_left
    (fun jar ck =>
       match ck !! "name", ck !! "value" with
       | Some n, Some v => <[n := v]> jar
       | _, _ => jar
       end)
    cs ∅.

(** [aiohttp.ClientSession(headers=..., cookies=...)]: a new, open session. *)
Definition new_session (hdrs jar : gmap string string) : M nat := fun c w =>
  (inr (next_id w), c,
   World (S (next_id w)) ({[next_id w]} ∪ open_sessions w)
         (log w ++ [SessionCreated (next_id w) hdrs jar])).

(** [await session.close()] *)
Definition close_session (id : nat) : M unit := fun c w =>
  (inr tt, c,
   World (next_id w) (open_sessions w ∖ {[id]}) (log w ++ [SessionClosed id])).

(** [self._session is None or self._session.closed] *)
Definition no_open_session (c : t) (w : world) : bool :=
  match _session c with
  | None => true
  | Some id => negb (bool_decide (id ∈ open_sessions w))
  end.

(** [_initialize_session] *)
Definition _initialize_session (o : oracle) : M unit :=
  c ← self; w ← the_world;
  if no_open_session c w then
    id ← new_session (_get_headers (user_agent o) c) (cookie_jar (_cookies c));
    update (with_session (Some id))
  else mret tt.

(** [_initialize_browser]; the proxy entry of the launch options is left
    out of the events. *)
Definition _initialize_browser (o : oracle) : M unit :=
  await (playwright_start o);;
  p ← fresh; emit (PlaywrightStarted p);; update (with_playwright (Some p));;
  await (browser_launch o);;
  b ← fresh; emit (BrowserLaunched b);; update (with_browser (Some b));;
  c ← self;
  await (new_context o);;
  x ← fresh;
  emit (ContextCreated x (if user_agent_rotation c then Some (user_agent o) else None));;
  update (with_context (Some x));;
  match _cookies c with
  | [] => mret tt
  | _ :: _ => await (add_cookies o);; emit (CookiesAdded x (_cookies c))
  end.

(** [initialize] *)
Definition initialize (o : oracle) : M unit :=
  c ← self;
  if _is_initialized c then mret tt
  else
    (if use_browser c then _initialize_browser o else _initialize_session o);;
    update (with_is_initialized true).

(** [set_session]; the close it schedules with [asyncio.create_task] is
    run at once. *)
Definition set_session (session : option nat) : M unit :=
  c ← self; w ← the_world;
  (if no_open_session c w then mret tt
   else match _session c with
        | Some id => close_session id
        | None => mret tt
        end);;
  update (with_session session).

(** [await self.rate_limiter.wait_for_request()], dispatched on the class
    of the limiter. *)
Definition wait_for_request (o : oracle) (domain : option string) : M unit :=
  c ← self;
  let wait :=
    match limiter c with
    | Base => RateLimiter.wait_for_request
    | DomainAware => DomainAwareRateLimiter.wait_for_request
    end in
  let '(rl, sleeps) :=
    wait (rate_limiter c) domain (clock1 o) (jitter_draw o) (clock2 o) in
  update (with_rate_limiter rl);;
  fold_right (fun d k => emit (Slept d);; k) (mret tt) sleeps.

(** The dict [_fetch_with_http] appends for a response cookie. *)
Definition cookie_of (name : string) (m : morsel) : cookie :=
  <["path" := default "/" (attrs m !! "path")]>
    (<["domain" := default "" (attrs m !! "domain")]>
       (<["value" := value m]> (<["name" := name]> ∅))).

(** [_fetch_with_http]; the proxy and the 30 s timeout are part of the
    transport, whose verdict is [http_reply]. A retrieval that raises
    while the body is read has stored the cookies of the response
    before. *)
Definition _fetch_with_http (o : oracle) (url : string)
    (params : option (list (string * string))) : M string :=
  c ← self;
  match _session c with
  | None =>
      raise (Raise (Exception_ "AttributeError")
                   "'NoneType' object has no attribute 'get'")
  | Some sid =>
      emit (HttpGet sid url params);;
      match http_reply o with
      | inl e =>
          match unread_response o with
          | Some received =>
              update (fun c =>
                with_cookies
                  (_cookies c ++ map (fun nc => cookie_of nc.1 nc.2) received) c)
          | None => mret tt
          end;;
          raise e
      | inr response =>
          if negb (status response =? 200) then
            raise (Raise CrawlerException
                     ("HTTP error " +:+ str_int (status response)
                      +:+ " when fetching " +:+ url))
          else
            update (fun c =>
              with_cookies
                (_cookies c ++ map (fun nc => cookie_of nc.1 nc.2) (cookies response)) c);;
            mret (text response)
      end
  end.

(** The URL [_fetch_with_browser] navigates to. *)
Definition with_query (url : string) (params : option (list (string * string)))
    : string :=
  match params with
  | None | Some [] => url
  | Some ps =>
      let query_string := join "&" (map (fun kv => kv.1 +:+ "=" +:+ kv.2) ps) in
      if contains "?" url then url +:+ "&" +:+ query_string
      else url +:+ "?" +:+ query_string
  end.

(** [_fetch_with_browser]. A navigation that raises while the content is
    read has stored the cookies of the context before. *)
Definition _fetch_with_browser (o : oracle) (url : string)
    (params : option (list (string * string))) : M string :=
  c ← self;
  match _context c with
  | None =>
      raise (Raise (Exception_ "AttributeError")
                   "'NoneType' object has no attribute 'new_page'")
  | Some ctx =>
      await (new_page o);;
      emit (PageOpened ctx);;
      try_finally
        (emit (PageGoto (with_query url params));;
         match page_reply o with
         | inl e =>
             match unread_page o with
             | Some (ck :: cs) => update (with_cookies (ck :: cs))
             | _ => mret tt
             end;;
             raise e
         | inr r =>
             match context_cookies r with
             | [] => mret tt
             | cs => update (with_cookies cs)
             end;;
             mret (content r)
         end)
        (emit PageClosed)
  end.

Section Methods.
(** [urllib.parse.urljoin] *)
Variable urljoin : string -> string -> string.

(** [fetch_page] *)
Definition fetch_page (o : oracle) (url : string)
    (params : option (list (string * string))) : M string :=
  c ← self;
  (if negb (_is_initialized c) then initialize o else mret tt);;
  wait_for_request o None;;
  c ← self;
  let url :=
    if String.prefix "http://" url || String.prefix "https://" url then url
    else urljoin (base_url c) url in
  try_except
    (if use_browser c then _fetch_with_browser o url params
     else _fetch_with_http o url params)
    (fun e =>
       raise (Raise CrawlerException
                ("Failed to fetch page " +:+ url +:+ ": " +:+ str e))).
End Methods.

(** Which of the closing calls of [close] raise. *)
Record closing := {
  session_close : option exn;              (* self._session.close() *)
  browser_close : option exn;              (* self._browser.close() *)
  playwright_stop : option exn             (* self._playwright.stop() *)
}.

(** Every closing call returns. *)
Definition quiet : closing :=
  {| session_close := None; browser_close := None; playwright_stop := None |}.

(** [close], under the closing calls [k]. It has no handler: a closing
    call that raises ends it there, with the resource as it was and its
    attribute still set. *)
Definition close_with (k : closing) : M unit :=
  c ← self; w ← the_world;
  (if no_open_session c w then mret tt
   else match _session c with
        | Some id =>
            await (session_close k);; close_session id;; update (with_session None)
        | None => mret tt
        end);;
  c ← self;
  match _browser c with
  | Some b =>
      await (browser_close k);; emit (BrowserClosed b);; update (with_browser None)
  | None => mret tt
  end;;
  c ← self;
  match _playwright c with
  | Some p =>
      await (playwright_stop k);; emit (PlaywrightStopped p);;
      update (with_playwright None)
  | None => mret tt
  end;;
  update (with_is_initialized false).

(** [close] when closing a session, a browser or the driver does not
    raise. *)
Definition close : M unit := close_with quiet.

End WebCrawler.

(** ** scraper/auth/auth_manager.py *)

Module AuthManager.
Import WebCrawler.

(** A credentials dict, in insertion order. *)
Abbreviation credentials_dict := (list (string * pyval)).

(** [d.get(key)] *)
Fixpoint dict_get (key : string) (d : credentials_dict) : option pyval :=
  match d with
  | [] => None
  | (k, v) :: d' => if String.eqb k key then Some v else dict_get key d'
  end.

(** [del d[key]] *)
Definition dict_del (key : string) (d : credentials_dict) : credentials_dict :=
  filter (fun kv => negb (String.eqb kv.1 key)) d.

(** Truth value of an [Optional[Dict]]: [None] and [{}] are falsy. *)
Definition some_dict (d : option credentials_dict) : option credentials_dict :=
  match d with
  | Some (kv :: d') => Some (kv :: d')
  | _ => None
  end.

(** The attributes of an authentication manager. *)
Record t := mk {
  credentials_key : string;
  secure_storage : bool;
  credentials : option credentials_dict;
  session : option nat
}.

Definition __init__ (credentials_key : string) (secure_storage : bool) : t :=
  mk credentials_key secure_storage None None.

Definition with_credentials (v : credentials_dict) (a : t) : t :=
  mk (credentials_key a) (secure_storage a) (Some v) (session a).

(** [c.lower()] on one character of the ASCII range. *)
Definition lower_ascii (c : ascii) : ascii :=
  let n := nat_of_ascii c in
  if (65 <=? n)%nat && (n <=? 90)%nat then ascii_of_nat (n + 32) else c.

(** [html.lower()], as far as the ASCII phrases below can tell. *)
Fixpoint lower (s : string) : string :=
  match s with
  | EmptyString => EmptyString
  | String c s' => String (lower_ascii c) (lower s')
  end.

Definition failure_texts : list string :=
  ["incorrect password"; "login failed"; "invalid credentials";
   "username or password is incorrect"; "authentication failed"].

Definition success_indicators : list string :=
  ["logout"; "sign out"; "account"; "profile"; "dashboard"].

(** [for text in texts: if text in page: return result], then [rest]. *)
Fixpoint return_if_any (texts : list string) (page : string)
    (result rest : bool) : bool :=
  match texts with
  | [] => rest
  | text :: texts' =>
      if contains text page then result
      else return_if_any texts' page result rest
  end.

(** [_verify_login_success_html] *)
Definition _verify_login_success_html (html : string) : bool :=
  let html_lower := lower html in
  return_if_any failure_texts html_lower false
    (return_if_any success_indicators html_lower true true).

(** [selector.split(c)[-1]] *)
Fixpoint after_last (c : ascii) (s : string) : string :=
  match s with
  | EmptyString => EmptyString
  | String a s' =>
      if contains (String c EmptyString) s' then after_last c s'
      else if Ascii.eqb a c then s' else s
  end.

(** [selector.split(c)[0]] *)
Fixpoint before_first (c : ascii) (s : string) : string :=
  match s with
  | EmptyString => EmptyString
  | String a s' => if Ascii.eqb a c then EmptyString else String a (before_first c s')
  end.

(** The form field a selector stands for. *)
Definition form_field_name (selector field : string) : string :=
  match selector with
  | String "#" rest => rest
  | String "." _ => field
  | _ => if contains "[" selector
         then before_first "=" (after_last "[" selector)
         else field
  end.

(** What the login exchange reads from outside. *)
Record exchange := {
  session_user_agent : string;             (* random.choice(USER_AGENTS), if drawn *)
  login_page : exn + response;             (* session.get(login_url) *)
  login_reply : exn + response             (* session.post(login_endpoint, ...) *)
}.

Section Methods.
(** [_extract_csrf_token], which reads the page through BeautifulSoup. *)
Variable _extract_csrf_token : string -> option string.

(** [_authenticate_with_http] *)
Definition _authenticate_with_http (o : oracle) (x : exchange)
    (login_url : string) (form_selectors : gmap string string)
    (credentials : credentials_dict) : M nat :=
  c ← self;
  (if negb (_is_initialized c) then initialize o else mret tt);;
  let form_data : gmap string pyval :=
    fold_left
      (fun form_data fv =>
         <[form_field_name (default "" (form_selectors !! fv.1)) fv.1 := fv.2]>
           form_data)
      credentials ∅ in
  c ← self;
  session ← new_session (_get_headers (session_user_agent x) c) ∅;
  try_except
    (emit (HttpGet session login_url None);;
     html ← match login_page x with
            | inl e => raise e
            | inr response => mret (text response)
            end;
     let form_data :=
       match _extract_csrf_token html with
       | Some csrf_token =>
           if String.eqb csrf_token "" then form_data
           else <["csrf_token" := PStr csrf_token]> form_data
       | None => form_data
       end in
     let login_endpoint := default login_url (form_selectors !! "action") in
     emit (HttpPost session login_endpoint form_data);;
     match login_reply x with
     | inl e => raise e
     | inr response =>
         if negb (bool_decide (status response ∈ [200; 301; 302; 303])) then
           raise (Raise AuthenticationException
                    ("Login failed with status code " +:+ str_int (status response)))
         else if negb (_verify_login_success_html (text response)) then
           raise (Raise AuthenticationException
                    "Login failed - verification check did not pass")
         else
           update (with_cookies
                     (map (fun nc => cookie_of nc.1 nc.2) (cookies response)))
     end;;
     mret session)
    (fun e =>
       close_session session;;
       raise (Raise AuthenticationException
                ("Authentication failed: " +:+ str e))).
End Methods.

(** Where [_get_credentials] may look: what [_get_from_keyring] and
    [_get_from_config] return, and what the user types at the prompt. *)
Record sources := {
  keyring_entry : option credentials_dict;
  config_entry : option credentials_dict;
  typed_username : string;
  typed_password : string;
  typed_save : bool
}.

(** What [_get_credentials] does outside the manager. *)
Inductive access :=
| ReadKeyring
| ReadConfig
| Prompted
| StoredInKeyring (creds : credentials_dict)
| StoredInConfig (creds : credentials_dict).

(** [_prompt_for_credentials] *)
Definition _prompt_for_credentials (src : sources) : credentials_dict :=
  [("username", PStr (typed_username src));
   ("password", PStr (typed_password src));
   ("save", PBool (typed_save src))].

(** [_get_credentials] *)
Definition _get_credentials (a : t) (src : sources)
    : credentials_dict * t * list access :=
  match some_dict (credentials a) with
  | Some cached => (cached, a, [])
  | None =>
      let from_keyring :=
        if secure_storage a then some_dict (keyring_entry src) else None in
      let seen := if secure_storage a then [ReadKeyring] else [] in
      match from_keyring with
      | Some stored_creds =>
          (stored_creds, with_credentials stored_creds a, seen)
      | None =>
          match some_dict (config_entry src) with
          | Some config_creds =>
              (config_creds, with_credentials config_creds a, seen ++ [ReadConfig])
          | None =>
              let creds := _prompt_for_credentials src in
              if truthy_val (default (PBool false) (dict_get "save" creds)) then
                let creds := dict_del "save" creds in
                (creds, with_credentials creds a,
                 seen ++ [ReadConfig; Prompted;
                          if secure_storage a then StoredInKeyring creds
                          else StoredInConfig creds])
              else
                (creds, with_credentials creds a, seen ++ [ReadConfig; Prompted])
          end
      end
  end.

(** *** Stored credentials *)

(** [platform.node().encode()[:16].ljust(16, b'0')]: the first 16 bytes of
    the name of the machine, padded with ['0'] to 16 bytes. *)
Fixpoint ljust (n : nat) (fill : ascii) (s : string) : string :=
  match n, s with
  | O, _ => s
  | S n', EmptyString => String fill (ljust n' fill EmptyString)
  | S n', String a s' => String a (ljust n' fill s')
  end.

Fixpoint take_bytes (n : nat) (s : string) : string :=
  match n, s with
  | S n', String a s' => String a (take_bytes n' s')
  | _, _ => EmptyString
  end.

Definition salt (node : string) : string := ljust 16 "0" (take_bytes 16 node).

(** The credentials file [~/.scraper/credentials.json]: the directory may
    be missing, the file may be missing, opening or parsing it as a JSON
    object may raise an [Exception], or it holds an entry per credentials
    key. A file is identified with the value [json.load] reads from it. *)
Inductive config_state :=
| NoDirectory
| NoFile
| Unreadable
| File (all_creds : gmap string credentials_dict).

(** Which calls outside the process raise an [Exception]. *)
Record disk := {
  makedirs_fails : bool;                     (* os.makedirs *)
  write_fails : bool;                        (* open(config_file, 'w') *)
  dump_fails : bool;                         (* json.dump, or the flush at close *)
  keyring_get_fails : bool;                  (* keyring.get_password *)
  keyring_set_fails : bool                   (* keyring.set_password *)
}.

(** [_get_from_config] *)
Definition _get_from_config (a : t) (st : config_state) : option credentials_dict :=
  match st with
  | NoDirectory => None
  | NoFile => None
  | Unreadable => None
  | File all_creds => all_creds !! credentials_key a
  end.

(** [_store_in_config]: the new state of the file and the flag returned.
    [open(config_file, 'w')] empties the file: a write that fails after it
    leaves a file that does not parse. *)
Definition _store_in_config (a : t) (credentials : credentials_dict) (dk : disk)
    (st : config_state) : bool * config_state :=
  if makedirs_fails dk then (false, st)
  else
    let st1 := match st with NoDirectory => NoFile | _ => st end in
    match st1 with
    | Unreadable => (false, st1)
    | _ =>
        let all_creds := match st1 with File all_creds => all_creds | _ => ∅ end in
        if write_fails dk then (false, st1)
        else if dump_fails dk then (false, Unreadable)
        else (true, File (<[credentials_key a := credentials]> all_creds))
    end.

Section Keyring.
(** The tokens that Fernet produces, as the keyring stores them, and the
    libraries the manager calls: the key derivation behind
    [_get_encryption_key] (PBKDF2 and base64, from a salt and a password),
    [Fernet(key).encrypt(json.dumps(credentials).encode())], which draws a
    nonce, and [json.loads(Fernet(key).decrypt(token).decode())], which
    raises an [Exception] on a token it does not accept. *)
Variable token : Type.
Variable is_empty : token -> bool.
Variable derive : string -> string -> string.
Variable seal : string -> string -> credentials_dict -> token.
Variable unseal : string -> token -> option credentials_dict.

(** [_get_encryption_key], on the machine named [node]. *)
Definition _get_encryption_key (a : t) (node : string) : string :=
  derive (salt node) (credentials_key a).

(** [_get_from_keyring]; the keyring maps the user names of service
    "scraper" to their passwords. *)
Definition _get_from_keyring (a : t) (node : string) (dk : disk)
    (keyring : gmap string token) : option credentials_dict :=
  if keyring_get_fails dk then None
  else
    match keyring !! credentials_key a with
    | None => None
    | Some encrypted =>
        if is_empty encrypted then None
        else unseal (_get_encryption_key a node) encrypted
    end.

(** [_store_in_keyring]: the new keyring and the flag returned. *)
Definition _store_in_keyring (a : t) (node nonce : string)
    (credentials : credentials_dict) (dk : disk) (keyring : gmap string token)
    : bool * gmap string token :=
  let encrypted := seal (_get_encryption_key a node) nonce credentials in
  if keyring_set_fails dk then (false, keyring)
  else (true, <[credentials_key a := encrypted]> keyring).
End Keyring.

(** *** Login through the browser *)

(** What the login through the browser reads from the page. *)
Record browser_exchange := {
  login_new_page : option exn;               (* context.new_page raises *)
  goto : option exn;                         (* page.goto raises *)
  fill : string -> option exn;               (* page.fill(selector, ...) raises *)
  click : option exn;                        (* page.click / button.click raises *)
  load_state : option exn;                   (* page.wait_for_load_state raises *)
  submit_button : exn + bool;                (* page.query_selector finds a button *)
  press : option exn;                        (* page.press raises *)
  page_content : exn + string;               (* page.content() *)
  login_cookies : exn + list cookie          (* context.cookies() *)
}.

(** A value read from the page, or what reading it raises. *)
Definition read {A} (r : exn + A) : M A :=
  match r with
  | inl e => raise e
  | inr a => mret a
  end.

(** Truth value of [form_selectors.get(field)]. *)
Definition has_selector (form_selectors : gmap string string) (field : string) : bool :=
  match form_selectors !! field with
  | Some selector => negb (String.eqb selector "")
  | None => false
  end.

(** [_verify_login_success], on the content of the page. *)
Definition _verify_login_success (page_content : string) : bool :=
  let page_content := lower page_content in
  return_if_any
    ["incorrect password"; "login failed"; "invalid credentials";
     "username or password is incorrect"; "authentication failed"]
    page_content false
    (return_if_any ["logout"; "sign out"; "account"; "profile"; "dashboard"]
       page_content true true).

(** The loop that fills the form. *)
Fixpoint fill_fields (bx : browser_exchange) (form_selectors : gmap string string)
    (credentials : credentials_dict) : M unit :=
  match credentials with
  | [] => mret tt
  | (field, _) :: rest =>
      (if has_selector form_selectors field
       then await (fill bx (default "" (form_selectors !! field)))
       else mret tt);;
      fill_fields bx form_selectors rest
  end.

(** [_authenticate_with_browser]; it returns the browser context. *)
Definition _authenticate_with_browser (o : oracle) (bx : browser_exchange)
    (login_url : string) (form_selectors : gmap string string)
    (credentials : credentials_dict) : M nat :=
  c ← self;
  (if negb (_is_initialized c) then initialize o else mret tt);;
  c ← self;
  match _context c with
  | None =>
      raise (Raise (Exception_ "AttributeError")
                   "'NoneType' object has no attribute 'new_page'")
  | Some ctx =>
      await (login_new_page bx);;
      emit (PageOpened ctx);;
      try_finally
        (emit (PageGoto login_url);;
         await (goto bx);;
         fill_fields bx form_selectors credentials;;
         (if has_selector form_selectors "submit" then
            await (click bx);; await (load_state bx)
          else
            found ← read (submit_button bx);
            if found : bool then await (click bx);; await (load_state bx)
            else if has_selector form_selectors "password"
                 then await (press bx);; await (load_state bx)
                 else mret tt);;
         content ← read (page_content bx);
         if negb (_verify_login_success content) then
           raise (Raise AuthenticationException
                    "Login failed - verification check did not pass")
         else
           cookies ← read (login_cookies bx);
           update (with_cookies cookies);;
           mret ctx)
        (emit PageClosed)
  end.

(** What [authenticate] returns: the client session of the lightweight
    transport or the context of the browser. *)
Inductive handle :=
| ClientSession (id : nat)
| BrowserContext (id : nat).

Section Authenticate.
Variable _extract_csrf_token : string -> option string.

(** [authenticate]: the manager after resolving the credentials, what the
    resolution did outside, and the login on the crawler. *)
Definition authenticate (a : t) (src : sources) (o : oracle) (x : exchange)
    (bx : browser_exchange) (login_url : string)
    (form_selectors : gmap string string) : t * list access * M handle :=
  let '(credentials, a', accesses) := _get_credentials a src in
  (a', accesses,
   match credentials with
   | [] =>
       raise (Raise AuthenticationException
                "No credentials available for authentication")
   | _ =>
       c ← self;
       if use_browser c then
         ctx ← _authenticate_with_browser o bx login_url form_selectors credentials;
         mret (BrowserContext ctx)
       else
         session ← _authenticate_with_http _extract_csrf_token o x login_url
                     form_selectors credentials;
         mret (ClientSession session)
   end).
End Authenticate.

End AuthManager.

(** ** scraper/core/orchestrator.py *)

Module Orchestrator.
Import WebCrawler.

(** The entries of the global configuration that [initialize] reads for
    the limiter and the crawler. *)
Record global_config := {
  request_delay : option Q;
  concurrency : option Z;
  user_agent_rotation : option bool
}.

(** The entries of the site configuration that [initialize] and [run] read
    for the crawler and the addresses. *)
Record site_config := {
  base_url : string;
  start_urls : option (list string);
  url_patterns : option (list string)
}.

(** [self.stats] *)
Record stats := Stats {
  pages_processed : Z;
  items_extracted : Z;
  errors : Z;
  start_time : option Q;
  end_time : option Q
}.

(** The stats that [__init__] sets. *)
Definition new_stats : stats := Stats 0 0 0 None None.

(** The limiter and the crawler that [initialize] builds. *)
Definition new_crawler (g : global_config) (cfg : site_config) : WebCrawler.t :=
  let rate_limiter :=
    RateLimiter.__init__ (default 1%Q (request_delay g)) 0.5
      (default 1 (concurrency g)) None in
  WebCrawler.__init__ (base_url cfg) (default false (user_agent_rotation g))
    (Some (Base, rate_limiter)) None false.

(** [_get_start_urls] *)
Definition _get_start_urls (cfg : site_config) : list string :=
  match start_urls cfg with
  | Some urls => urls
  | None =>
      match url_patterns cfg with
      | Some patterns => map (fun pattern => base_url cfg +:+ pattern) patterns
      | None => [base_url cfg]
      end
  end.

(** [urls or self._get_start_urls()] *)
Definition target_urls (cfg : site_config) (urls : option (list string)) : list string :=
  match urls with
  | Some (url :: rest) => url :: rest
  | _ => _get_start_urls cfg
  end.

(** What the processing of one address reads: the environment of
    [fetch_page], and what extracting, formatting and saving the content
    come to: an exception, or raw data that is a list of some length or is
    not a list. What [save] writes on the disk is left out. *)
Record visit := {
  environment : oracle;
  handled : string -> exn + option nat
}.

Definition processed (raw_data : option nat) (st : stats) : stats :=
  Stats (pages_processed st + 1)
        (items_extracted st + match raw_data with Some n => Z.of_nat n | None => 1 end)
        (errors st) (start_time st) (end_time st).

Definition failed (st : stats) : stats :=
  Stats (pages_processed st) (items_extracted st) (errors st + 1)
        (start_time st) (end_time st).

(** The session object that [authenticate] returned, as handed to
    [set_session]. *)
Definition handle_id (h : AuthManager.handle) : nat :=
  match h with
  | AuthManager.ClientSession id => id
  | AuthManager.BrowserContext id => id
  end.

Section Methods.
(** [urllib.parse.urljoin] *)
Variable urljoin : string -> string -> string.

(** The loop of [run] over the addresses, the [i]-th and those after it. *)
Fixpoint crawl (visits : nat -> visit) (i : nat) (urls : list string)
    (st : stats) (c : WebCrawler.t) (w : world)
    : (exn + unit) * stats * WebCrawler.t * world :=
  match urls with
  | [] => (inr tt, st, c, w)
  | url :: rest =>
      let '(r, c, w) := fetch_page urljoin (environment (visits i)) url None c w in
      let outcome :=
        match r with
        | inl e => inl e
        | inr html_content => handled (visits i) html_content
        end in
      match outcome with
      | inr raw_data => crawl visits (S i) rest (processed raw_data st) c w
      | inl e =>
          if is_Exception e then crawl visits (S i) rest (failed st) c w
          else (inl e, st, c, w)
      end
  end.

(** [run]; [authenticate] is the login of the authentication manager, if
    there is one; [now1] and [now2] are the clock at the start and in the
    [finally] clause. *)
Definition run (authenticate : option (M AuthManager.handle)) (cfg : site_config)
    (urls : option (list string)) (visits : nat -> visit) (now1 now2 : Q)
    (st : stats) (c : WebCrawler.t) (w : world)
    : (exn + unit) * stats * WebCrawler.t * world :=
  let st := Stats (pages_processed st) (items_extracted st) (errors st)
                  (Some now1) (end_time st) in
  let '(r, st, c, w) :=
    match authenticate with
    | Some login =>
        match login c w with
        | (inl e, c, w) => (inl e, st, c, w)
        | (inr session, c, w) =>
            let '(_, c, w) := set_session (Some (handle_id session)) c w in
            crawl visits 0 (target_urls cfg urls) st c w
        end
    | None => crawl visits 0 (target_urls cfg urls) st c w
    end in
  (r, Stats (pages_processed st) (items_extracted st) (errors st)
            (start_time st) (Some now2), c, w).
End Methods.

(** [cleanup]: [self.crawler.close()] builds the coroutine of [close] and
    drops it; nothing awaits it, so that nothing of [close] runs. *)
Definition cleanup : M unit := mret tt.

End Orchestrator.

(** ** Several tasks on one limiter

    The event loop runs one task at a time and switches only at an [await].
    A step is what one task does between two suspension points of
    [RateLimiter.acquire] / [RateLimiter.release] or of
    [WebCrawler.fetch_page]; the limiter is shared by all tasks. *)

Module Tasks.

(** Where a task stands. *)
Inductive pc :=
| Acquire_called      (* at [await self._semaphore.acquire()] *)
| Acquire_waiting     (* took a slot; suspended in [self.wait_for_request] *)
| Acquire_returned    (* [acquire] returned [True] *)
| Acquire_raised      (* [wait_for_request] raised; the slot was given back *)
| Released            (* [release] was called *)
| Fetch_called        (* [fetch_page] entered; at [await self.initialize()] *)
| Fetch_waiting       (* suspended in [self.rate_limiter.wait_for_request()] *)
| Fetch_transport     (* suspended in the transport *)
| Fetch_returned.     (* returned the content or raised *)

Record state := State {
  limiter : RateLimiter.t;
  tasks : list pc
}.

(** [self.wait_for_request], of either class. *)
Inductive wait_method
    : (RateLimiter.t -> option string -> Q -> Q -> Q -> RateLimiter.t * list Q) -> Prop :=
| wait_base : wait_method RateLimiter.wait_for_request
| wait_domain_aware : wait_method DomainAwareRateLimiter.wait_for_request.

Inductive step : state -> state -> Prop :=
| step_semaphore_acquire s i :
    tasks s !! i = Some Acquire_called ->
    0 < RateLimiter._semaphore (limiter s) ->
    step s (State (RateLimiter.set_semaphore
                     (RateLimiter._semaphore (limiter s) - 1) (limiter s))
                  (<[i := Acquire_waiting]> (tasks s)))
| step_acquire_return s i wait domain now1 u now2 :
    tasks s !! i = Some Acquire_waiting ->
    wait_method wait ->
    step s (State (wait (limiter s) domain now1 u now2).1
                  (<[i := Acquire_returned]> (tasks s)))
| step_acquire_raise s i :
    tasks s !! i = Some Acquire_waiting ->
    step s (State (RateLimiter.set_semaphore
                     (RateLimiter._semaphore (limiter s) + 1) (limiter s))
                  (<[i := Acquire_raised]> (tasks s)))
| step_release s i domain now :
    tasks s !! i = Some Acquire_returned ->
    step s (State (RateLimiter.release (limiter s) domain now)
                  (<[i := Released]> (tasks s)))
| step_fetch_initialized s i :
    tasks s !! i = Some Fetch_called ->
    step s (State (limiter s) (<[i := Fetch_waiting]> (tasks s)))
| step_fetch_waited s i wait now1 u now2 :
    tasks s !! i = Some Fetch_waiting ->
    wait_method wait ->
    step s (State (wait (limiter s) None now1 u now2).1
                  (<[i := Fetch_transport]> (tasks s)))
| step_fetch_return s i :
    tasks s !! i = Some Fetch_transport ->
    step s (State (limiter s) (<[i := Fetch_returned]> (tasks s))).

(** A task that has not started yet. *)
Definition fresh (p : pc) : bool :=
  match p with
  | Acquire_called | Fetch_called => true
  | _ => false
  end.

(** A limiter of [n] slots and tasks that have not started. *)
Definition init (delay jitter : Q) (n : Z) (overrides : option (gmap string Q))
    (ts : list pc) : state :=
  State (RateLimiter.__init__ delay jitter n overrides) ts.

(** The task holds a slot of the semaphore. *)
Definition holds_slot (p : pc) : bool :=
  match p with
  | Acquire_waiting | Acquire_returned => true
  | _ => false
  end.

(** The task is past the limiter and has not finished: [acquire] returned
    and [release] was not called, or [fetch_page] is in the transport. *)
Definition in_flight (p : pc) : bool :=
  match p with
  | Acquire_returned | Fetch_transport => true
  | _ => false
  end.

(** [acquire] returned and [release] was not called yet. *)
Definition acquired (p : pc) : bool :=
  match p with
  | Acquire_returned => true
  | _ => false
  end.

(** The task is a [fetch_page] call. *)
Definition is_fetch (p : pc) : bool :=
  match p with
  | Fetch_called | Fetch_waiting | Fetch_transport | Fetch_returned => true
  | _ => false
  end.

(** Number of tasks that satisfy [f]. *)
Fixpoint count (f : pc -> bool) (ts : list pc) : Z :=
  match ts with
  | [] => 0
  | p :: ts' => (if f p then 1 else 0) + count f ts'
  end.

(** The semaphore accounts for the tasks that hold a slot. *)
Definition accounted (s : state) : Prop :=
  RateLimiter._semaphore (limiter s) + count holds_slot (tasks s)
  = RateLimiter.concurrent_requests (limiter s)
  /\ 0 <= RateLimiter._semaphore (limiter s).

End Tasks.

(** ** Notions the properties are stated with *)

(** The states a limiter object goes through: built by [__init__], then
    used through its methods, with draws that [random.uniform] can return. *)
Inductive reachable : RateLimiter.t -> Prop :=
| reach_init delay jitter n overrides :
    reachable (RateLimiter.__init__ delay jitter n overrides)
| reach_semaphore s v :
    reachable s -> reachable (RateLimiter.set_semaphore v s)
| reach_wait s domain now1 u now2 :
    reachable s ->
    reachable (DomainAwareRateLimiter.wait_for_request s domain now1 u now2).1
| reach_release s domain now :
    reachable s -> reachable (RateLimiter.release s domain now)
| reach_success s domain :
    reachable s -> reachable (DomainAwareRateLimiter.report_success s domain)
| reach_error s domain error_type r :
    reachable s -> uniform 0.8 1.2 r ->
    reachable (DomainAwareRateLimiter.report_error s domain error_type r).

(** How the backoff of a domain relates to its count of consecutive
    errors. *)
Definition fits (count : option Z) (backoff : option Q) : Prop :=
  match count with
  | None => backoff = None
  | Some c =>
      1 <= c /\
      if c <? 3 then backoff = None
      else if c <? 10 then
        exists b, backoff = Some b /\
                  (0.8 * inject_Z (2 ^ (c - 2)) <= b)%Q /\
                  (b <= 1.2 * inject_Z (2 ^ (c - 2)))%Q
      else backoff = Some 3600%Q
  end.

Definition backoff_fits (s : RateLimiter.t) : Prop :=
  forall domain,
    fits (RateLimiter._error_counts s !! domain)
         (RateLimiter._backoff_delays s !! domain).

(** The backoff formula as the specification words it, with the base
    delay as a factor: [base * 2^(count-2)], capped at 300, times the
    random factor. *)
Definition spec_backoff (base : Q) (count : Z) (factor : Q) : Q :=
  (Qmin (base * inject_Z (2 ^ (count - 2))) 300 * factor)%Q.

(** [int(s)] for a decimal numeral. *)
Definition int_str (s : string) : option Z :=
  Z.of_int <$> NilZero.int_of_string s.

(** The browser starts without raising. *)
Definition startup_ok (o : WebCrawler.oracle) : Prop :=
  WebCrawler.playwright_start o = None
  /\ WebCrawler.browser_launch o = None
  /\ WebCrawler.new_context o = None
  /\ WebCrawler.add_cookies o = None.

(** The engine has its transport, or will get it from [initialize]: an
    initialized engine refers to a session (lightweight transport) or to a
    browser context (browser transport); an engine that is not initialized
    uses the lightweight transport or a browser that starts. *)
Definition ready (c : WebCrawler.t) (o : WebCrawler.oracle) : Prop :=
  if WebCrawler._is_initialized c then
    if WebCrawler.use_browser c then is_Some (WebCrawler._context c)
    else is_Some (WebCrawler._session c)
  else WebCrawler.use_browser c = false \/ startup_ok o.

(** The retrieval of the configured transport raises [e]. *)
Definition transport_raises (c : WebCrawler.t) (o : WebCrawler.oracle)
    (e : exn) : Prop :=
  if WebCrawler.use_browser c then
    WebCrawler.new_page o = Some e
    \/ (WebCrawler.new_page o = None /\ WebCrawler.page_reply o = inl e)
  else WebCrawler.http_reply o = inl e.

(** The address [fetch_page] asks the transport for. *)
Definition normalized (urljoin : string -> string -> string)
    (c : WebCrawler.t) (url : string) : string :=
  if String.prefix "http://" url || String.prefix "https://" url then url
  else urljoin (WebCrawler.base_url c) url.

(** A request sent to the transport. *)
Definition is_request (ev : WebCrawler.event) : bool :=
  match ev with
  | WebCrawler.HttpGet _ _ _ | WebCrawler.PageGoto _ => true
  | _ => false
  end.

(** Number of requests sent to the transport, in a log. *)
Definition requests (l : list WebCrawler.event) : nat :=
  length (List.filter is_request l).

(** What a fetch leaves alone in an engine and in the world: the
    transport objects and the flag. *)
Definition same_transport (before after : WebCrawler.t * WebCrawler.world) : Prop :=
  WebCrawler._is_initialized after.1 = WebCrawler._is_initialized before.1
  /\ WebCrawler.use_browser after.1 = WebCrawler.use_browser before.1
  /\ WebCrawler._session after.1 = WebCrawler._session before.1
  /\ WebCrawler._playwright after.1 = WebCrawler._playwright before.1
  /\ WebCrawler._browser after.1 = WebCrawler._browser before.1
  /\ WebCrawler._context after.1 = WebCrawler._context before.1
  /\ WebCrawler.open_sessions after.2 = WebCrawler.open_sessions before.2.

(** The books of the limiter that [report_success] and [report_error]
    write, and the semaphore that [acquire] and [release] write, are the
    same before and after. *)
Definition same_books (before after : WebCrawler.t * WebCrawler.world) : Prop :=
  RateLimiter._error_counts (WebCrawler.rate_limiter after.1)
  = RateLimiter._error_counts (WebCrawler.rate_limiter before.1)
  /\ RateLimiter._backoff_delays (WebCrawler.rate_limiter after.1)
     = RateLimiter._backoff_delays (WebCrawler.rate_limiter before.1)
  /\ RateLimiter._semaphore (WebCrawler.rate_limiter after.1)
     = RateLimiter._semaphore (WebCrawler.rate_limiter before.1).

(** A method keeps a relation between the state it starts from and the
    state it ends in, whether it returns or raises. *)
Definition preserves {A} (R : WebCrawler.t * WebCrawler.world ->
                             WebCrawler.t * WebCrawler.world -> Prop)
    (m : WebCrawler.M A) : Prop :=
  forall c w, R (c, w) ((m c w).1.2, (m c w).2).

(** A method sends at most [k] requests to the transport. *)
Definition sends {A} (k : nat) (m : WebCrawler.M A) : Prop :=
  forall c w, (requests (WebCrawler.log (m c w).2) <= requests (WebCrawler.log w) + k)%nat.

(** The transport got as many requests before as after. *)
Definition same_requests (before after : WebCrawler.t * WebCrawler.world) : Prop :=
  requests (WebCrawler.log after.2) = requests (WebCrawler.log before.2).

(** The settings of an engine are the same before and after. *)
Definition same_config (before after : WebCrawler.t * WebCrawler.world) : Prop :=
  WebCrawler.base_url after.1 = WebCrawler.base_url before.1
  /\ WebCrawler.use_browser after.1 = WebCrawler.use_browser before.1.

(** The state in which [fetch_page] reaches the transport when it starts
    from an initialized engine [c] in world [w]: the limiter has waited and
    the sleep is logged. *)
Definition after_wait (o : WebCrawler.oracle) (c : WebCrawler.t)
    (w : WebCrawler.world) : WebCrawler.t * WebCrawler.world :=
  let wait := match WebCrawler.limiter c with
              | WebCrawler.Base => RateLimiter.wait_for_request
              | WebCrawler.DomainAware => DomainAwareRateLimiter.wait_for_request
              end in
  let r := wait (WebCrawler.rate_limiter c) None (WebCrawler.clock1 o)
                (WebCrawler.jitter_draw o) (WebCrawler.clock2 o) in
  (WebCrawler.with_rate_limiter r.1 c,
   WebCrawler.World (WebCrawler.next_id w) (WebCrawler.open_sessions w)
     (WebCrawler.log w ++ map WebCrawler.Slept r.2)).

(** What [fetch_page] turns an exception of the transport into: a
    [CrawlerException] when it derives from [Exception], itself otherwise. *)
Definition surfaced (urljoin : string -> string -> string) (c : WebCrawler.t)
    (url : string) (e : exn) : exn + string :=
  if is_Exception e
  then inl (Raise CrawlerException
              ("Failed to fetch page " +:+ normalized urljoin c url
               +:+ ": " +:+ str e))
  else inl e.

(** ** Sample inputs *)

(** Stands for [urljoin] on the sample inputs, whose addresses are absolute. *)
Definition sample_urljoin (base url : string) : string := base +:+ url.

Definition sample_world : WebCrawler.world := WebCrawler.World 0 ∅ [].

Definition sample_response (status : Z) : WebCrawler.response :=
  {| WebCrawler.status := status; WebCrawler.cookies := [];
     WebCrawler.text := "<html>ok</html>" |}.

Definition timed_out : exn := Raise (Exception_ "TimeoutError") "timed out".

(** An environment in which the transport answers [reply]. *)
Definition sample_oracle (reply : exn + WebCrawler.response) : WebCrawler.oracle :=
  {| WebCrawler.user_agent := "Mozilla/5.0";
     WebCrawler.jitter_draw := 0; WebCrawler.clock1 := 0; WebCrawler.clock2 := 0;
     WebCrawler.playwright_start := None; WebCrawler.browser_launch := None;
     WebCrawler.new_context := None; WebCrawler.add_cookies := None;
     WebCrawler.http_reply := reply;
     WebCrawler.new_page := None;
     WebCrawler.page_reply := inl timed_out;
     WebCrawler.unread_response := None;
     WebCrawler.unread_page := None |}.

(** A new engine on the lightweight transport, with the default limiter. *)
Definition sample_engine : WebCrawler.t :=
  WebCrawler.__init__ "https://example.com" false None None false.

(** A domain-aware limiter that has one failure of example.com on its
    books, and a new engine that uses it. *)
Definition troubled_limiter : RateLimiter.t :=
  DomainAwareRateLimiter.report_error (RateLimiter.__init__ 1 0.5 1 None)
    "example.com" "general" 1.

Definition troubled_engine : WebCrawler.t :=
  WebCrawler.__init__ "https://example.com" false
    (Some (WebCrawler.DomainAware, troubled_limiter)) None false.

(** ** Notions for the authentication manager *)

(** Resolution as the specification words it: the sources are asked in the
    order cache, secret store, configuration file, prompt, and the first
    that yields a value wins. *)
Definition spec_resolve (cache secret_store config_file : option AuthManager.credentials_dict)
    (prompt : AuthManager.credentials_dict) : AuthManager.credentials_dict :=
  match AuthManager.some_dict cache with
  | Some creds => creds
  | None =>
      match AuthManager.some_dict secret_store with
      | Some creds => creds
      | None =>
          match AuthManager.some_dict config_file with
          | Some creds => creds
          | None => prompt
          end
      end
  end.

(** What the prompt yields: the typed credentials, without the [save] flag
    when the user asked to save them. *)
Definition prompted (src : AuthManager.sources) : AuthManager.credentials_dict :=
  if AuthManager.typed_save src
  then AuthManager.dict_del "save" (AuthManager._prompt_for_credentials src)
  else AuthManager._prompt_for_credentials src.

(** The sources a manager may ask, in the order it asks them. *)
Definition source_order (a : AuthManager.t) : list AuthManager.access :=
  (if AuthManager.secure_storage a then [AuthManager.ReadKeyring] else [])
  ++ [AuthManager.ReadConfig; AuthManager.Prompted].

(** The sources a call asked. *)
Definition consulted (l : list AuthManager.access) : list AuthManager.access :=
  List.filter (fun x => match x with
                        | AuthManager.ReadKeyring | AuthManager.ReadConfig
                        | AuthManager.Prompted => true
                        | _ => false
                        end) l.

(** The page mentions one of the phrases, whatever the case of its
    letters. *)
Definition mentions (phrases : list string) (html : string) : bool :=
  existsb (fun phrase => contains phrase (AuthManager.lower html)) phrases.

(** A manager without cached credentials that does not use the keyring,
    a keyring and a configuration file that hold different credentials. *)
Definition plain_manager : AuthManager.t := AuthManager.__init__ "shop" false.

Definition two_sources : AuthManager.sources :=
  {| AuthManager.keyring_entry := Some [("username", PStr "alice"); ("password", PStr "k")];
     AuthManager.config_entry := Some [("username", PStr "bob"); ("password", PStr "c")];
     AuthManager.typed_username := "carol";
     AuthManager.typed_password := "p";
     AuthManager.typed_save := false |}.

(** A login exchange in which the login page is served and the form is
    answered with [status] and [body]; no CSRF token is found. *)
Definition sample_exchange (status : Z) (body : string) : AuthManager.exchange :=
  {| AuthManager.session_user_agent := "Mozilla/5.0";
     AuthManager.login_page := inr (sample_response 200);
     AuthManager.login_reply :=
       inr {| WebCrawler.status := status; WebCrawler.cookies := [];
              WebCrawler.text := body |} |}.

Definition no_csrf_token (html : string) : option string := None.

Definition sample_selectors : gmap string string :=
  <["username" := "#user"]> (<["password" := "#pass"]> (<["submit" := "#go"]> ∅)).

Definition sample_credentials : AuthManager.credentials_dict :=
  [("username", PStr "alice"); ("password", PStr "secret")].

(** ** Notions for further properties of the limiter *)

(** Requests to one domain, one after the other: each call of
    [DomainAwareRateLimiter.wait_for_request] reads its two clocks and its
    draw. *)
Fixpoint wait_for_requests (s : RateLimiter.t) (domain : option string)
    (calls : list (Q * Q * Q)) : RateLimiter.t :=
  match calls with
  | [] => s
  | (now1, u, now2) :: calls' =>
      wait_for_requests
        (DomainAwareRateLimiter.wait_for_request s domain now1 u now2).1
        domain calls'
  end.

(** The configuration of a limiter and what its base class keeps. *)
Definition same_pacing (s s' : RateLimiter.t) : Prop :=
  RateLimiter.delay s' = RateLimiter.delay s
  /\ RateLimiter.jitter s' = RateLimiter.jitter s
  /\ RateLimiter.concurrent_requests s' = RateLimiter.concurrent_requests s
  /\ RateLimiter.domain_specific_delays s' = RateLimiter.domain_specific_delays s
  /\ RateLimiter._semaphore s' = RateLimiter._semaphore s
  /\ RateLimiter._last_request_time s' = RateLimiter._last_request_time s
  /\ RateLimiter._active_domains s' = RateLimiter._active_domains s
  /\ RateLimiter._request_counts s' = RateLimiter._request_counts s.

(** ** Notions for further properties of the crawler *)

(** The limiter of the engine is the same before and after. *)
Definition same_limiter (before after : WebCrawler.t * WebCrawler.world) : Prop :=
  WebCrawler.rate_limiter after.1 = WebCrawler.rate_limiter before.1.

(** The cookies of the engine are the same before and after. *)
Definition same_cookies (before after : WebCrawler.t * WebCrawler.world) : Prop :=
  WebCrawler._cookies after.1 = WebCrawler._cookies before.1.

(** Number of browser pages that a log opened and did not close. *)
Fixpoint pages_open (l : list WebCrawler.event) : Z :=
  match l with
  | [] => 0
  | WebCrawler.PageOpened _ :: l' => pages_open l' + 1
  | WebCrawler.PageClosed :: l' => pages_open l' - 1
  | _ :: l' => pages_open l'
  end.

(** As many pages are open before as after. *)
Definition same_pages (before after : WebCrawler.t * WebCrawler.world) : Prop :=
  pages_open (WebCrawler.log after.2) = pages_open (WebCrawler.log before.2).

(** Identifiers are handed out in order: every open session was created
    before the next fresh identifier. *)
Definition fresh_ids (w : WebCrawler.world) : Prop :=
  forall id, id ∈ WebCrawler.open_sessions w -> (id < WebCrawler.next_id w)%nat.

(** The cookies [fetch_page] holds after a fetch on the lightweight
    transport: those it had, followed by the cookies of a response of
    status 200, whether its body could then be read or not. *)
Definition http_cookies (c : WebCrawler.t) (o : WebCrawler.oracle)
    : list WebCrawler.cookie :=
  match WebCrawler.http_reply o with
  | inr response =>
      if WebCrawler.status response =? 200
      then WebCrawler._cookies c
           ++ map (fun nc => WebCrawler.cookie_of nc.1 nc.2) (WebCrawler.cookies response)
      else WebCrawler._cookies c
  | inl _ =>
      match WebCrawler.unread_response o with
      | Some received =>
          WebCrawler._cookies c
          ++ map (fun nc => WebCrawler.cookie_of nc.1 nc.2) received
      | None => WebCrawler._cookies c
      end
  end.

(** The cookies [fetch_page] holds after a fetch on the browser
    transport: those of the context once the navigation is over, if there
    are some, whether the content could then be read or not. *)
Definition browser_cookies (c : WebCrawler.t) (o : WebCrawler.oracle)
    : list WebCrawler.cookie :=
  match WebCrawler.new_page o with
  | Some _ => WebCrawler._cookies c
  | None =>
      match WebCrawler.page_reply o with
      | inr r =>
          match WebCrawler.context_cookies r with
          | [] => WebCrawler._cookies c
          | cs => cs
          end
      | inl _ =>
          match WebCrawler.unread_page o with
          | Some (ck :: cs) => ck :: cs
          | _ => WebCrawler._cookies c
          end
      end
  end.

(** A response of status 200 arrives with a cookie, and reading its body
    times out. *)
Definition body_timeout : WebCrawler.oracle :=
  {| WebCrawler.user_agent := "Mozilla/5.0";
     WebCrawler.jitter_draw := 0; WebCrawler.clock1 := 0; WebCrawler.clock2 := 0;
     WebCrawler.playwright_start := None; WebCrawler.browser_launch := None;
     WebCrawler.new_context := None; WebCrawler.add_cookies := None;
     WebCrawler.http_reply := inl timed_out;
     WebCrawler.new_page := None;
     WebCrawler.page_reply := inl timed_out;
     WebCrawler.unread_response :=
       Some [("sid", {| WebCrawler.value := "abc"; WebCrawler.attrs := ∅ |})];
     WebCrawler.unread_page := None |}.

(** ** Notions for further properties of the authentication manager *)

(** A disk and a keyring whose calls do not raise. *)
Definition sound_disk : AuthManager.disk :=
  {| AuthManager.makedirs_fails := false;
     AuthManager.write_fails := false;
     AuthManager.dump_fails := false;
     AuthManager.keyring_get_fails := false;
     AuthManager.keyring_set_fails := false |}.

(** A disk that fills up while the credentials file is written. *)
Definition full_disk : AuthManager.disk :=
  {| AuthManager.makedirs_fails := false;
     AuthManager.write_fails := false;
     AuthManager.dump_fails := true;
     AuthManager.keyring_get_fails := false;
     AuthManager.keyring_set_fails := false |}.

Section Stores.
Variable token : Type.
Variable is_empty : token -> bool.
Variable derive : string -> string -> string.
Variable seal : string -> string -> AuthManager.credentials_dict -> token.
Variable unseal : string -> token -> option AuthManager.credentials_dict.

(** What [_get_credentials] may find on a machine: its two reads are the
    calls of [_get_from_keyring] and [_get_from_config] on the keyring and
    the credentials file; [typed] gives the answers to the prompt. *)
Definition stored_sources (a : AuthManager.t) (node : string)
    (dk : AuthManager.disk) (keyring : gmap string token)
    (config : AuthManager.config_state) (typed : AuthManager.sources)
    : AuthManager.sources :=
  {| AuthManager.keyring_entry :=
       AuthManager._get_from_keyring token is_empty derive unseal a node dk keyring;
     AuthManager.config_entry := AuthManager._get_from_config a config;
     AuthManager.typed_username := AuthManager.typed_username typed;
     AuthManager.typed_password := AuthManager.typed_password typed;
     AuthManager.typed_save := AuthManager.typed_save typed |}.

(** The keyring and the credentials file after one access of
    [_get_credentials]: its two stores are the calls of
    [_store_in_keyring] and [_store_in_config]. *)
Definition apply_access (a : AuthManager.t) (node nonce : string)
    (dk : AuthManager.disk)
    (st : gmap string token * AuthManager.config_state)
    (x : AuthManager.access) : gmap string token * AuthManager.config_state :=
  match x with
  | AuthManager.StoredInKeyring creds =>
      ((AuthManager._store_in_keyring token derive seal a node nonce creds dk st.1).2,
       st.2)
  | AuthManager.StoredInConfig creds =>
      (st.1, (AuthManager._store_in_config a creds dk st.2).2)
  | _ => st
  end.

Definition after_accesses (a : AuthManager.t) (node nonce : string)
    (dk : AuthManager.disk) (accesses : list AuthManager.access)
    (st : gmap string token * AuthManager.config_state)
    : gmap string token * AuthManager.config_state :=
  fold_left (apply_access a node nonce dk) accesses st.
End Stores.

(** A browser login in which every call succeeds, the page reads [content]
    and the context holds [cookies]. *)
Definition smooth_login (content : string) (cookies : list WebCrawler.cookie)
    : AuthManager.browser_exchange :=
  {| AuthManager.login_new_page := None;
     AuthManager.goto := None;
     AuthManager.fill := fun _ => None;
     AuthManager.click := None;
     AuthManager.load_state := None;
     AuthManager.submit_button := inr true;
     AuthManager.press := None;
     AuthManager.page_content := inr content;
     AuthManager.login_cookies := inr cookies |}.

(** The form that [_authenticate_with_http] posts for credentials. *)
Definition form_of (form_selectors : gmap string string)
    (credentials : AuthManager.credentials_dict) : gmap string pyval :=
  fold_left
    (fun form_data fv =>
       <[AuthManager.form_field_name (default "" (form_selectors !! fv.1)) fv.1 := fv.2]>
         form_data)
    credentials ∅.

(** The characters of a string. *)
Fixpoint chars (s : string) : list ascii :=
  match s with
  | EmptyString => []
  | String a s' => a :: chars s'
  end.

(** An initialized engine on the browser transport that holds the context
    [ctx]. *)
Definition browser_engine (ctx : nat) : WebCrawler.t :=
  WebCrawler.with_is_initialized true
    (WebCrawler.with_context (Some ctx)
       (WebCrawler.__init__ "https://example.com" false None None true)).

(** Nothing is stored; the user types [username] and [password] and
    answers [save]. *)
Definition typed_only (username password : string) (save : bool) : AuthManager.sources :=
  {| AuthManager.keyring_entry := None;
     AuthManager.config_entry := None;
     AuthManager.typed_username := username;
     AuthManager.typed_password := password;
     AuthManager.typed_save := save |}.

Definition attribute_selectors : gmap string string :=
  <["username" := "input[name=user]"]> (<["password" := "input[name=pass]"]> ∅).

(** ** Notions for the resources of the browser transport *)

(** The drivers and the browsers that a log leaves running: those started
    and not stopped. *)
Fixpoint drivers_running (l : list WebCrawler.event) : Z :=
  match l with
  | [] => 0
  | WebCrawler.PlaywrightStarted _ :: l' => drivers_running l' + 1
  | WebCrawler.PlaywrightStopped _ :: l' => drivers_running l' - 1
  | _ :: l' => drivers_running l'
  end.

Fixpoint browsers_running (l : list WebCrawler.event) : Z :=
  match l with
  | [] => 0
  | WebCrawler.BrowserLaunched _ :: l' => browsers_running l' + 1
  | WebCrawler.BrowserClosed _ :: l' => browsers_running l' - 1
  | _ :: l' => browsers_running l'
  end.

(** [initialize], then [close]. *)
Definition initialize_then_close (o : WebCrawler.oracle) (c : WebCrawler.t)
    (w : WebCrawler.world) : WebCrawler.world :=
  (WebCrawler.close (WebCrawler.initialize o c w).1.2 (WebCrawler.initialize o c w).2).2.

(** [initialize] fails, is tried again, and then [close]. *)
Definition retry_then_close (o o' : WebCrawler.oracle) (c : WebCrawler.t)
    (w : WebCrawler.world) : WebCrawler.world :=
  initialize_then_close o' (WebCrawler.initialize o c w).1.2 (WebCrawler.initialize o c w).2.


(** A browser that cannot be launched. *)
Definition no_browser : WebCrawler.oracle :=
  {| WebCrawler.user_agent := "Mozilla/5.0";
     WebCrawler.jitter_draw := 0; WebCrawler.clock1 := 0; WebCrawler.clock2 := 0;
     WebCrawler.playwright_start := None;
     WebCrawler.browser_launch := Some timed_out;
     WebCrawler.new_context := None; WebCrawler.add_cookies := None;
     WebCrawler.http_reply := inl timed_out;
     WebCrawler.new_page := None;
     WebCrawler.page_reply := inl timed_out;
     WebCrawler.unread_response := None;
     WebCrawler.unread_page := None |}.

(** ** Notions for the orchestrator *)

(** An engine on the lightweight transport that, once initialized, holds a
    session. *)
Definition lightweight (c : WebCrawler.t) : Prop :=
  WebCrawler.use_browser c = false
  /\ (WebCrawler._is_initialized c = true -> is_Some (WebCrawler._session c)).

(** Whatever the transport or the processing of a page raises derives from
    [Exception]. *)
Definition only_exceptions (visits : nat -> Orchestrator.visit) : Prop :=
  forall i,
    (forall e, WebCrawler.http_reply (Orchestrator.environment (visits i)) = inl e ->
               is_Exception e = true)
    /\ (forall html e, Orchestrator.handled (visits i) html = inl e ->
                       is_Exception e = true).

(** What a crawl of [urls], the first of them being the [i]-th address,
    adds to the log when every page is fetched on the session [sid]: for
    each address a sleep of the jittered delay and a GET. *)
Fixpoint crawl_log (urljoin : string -> string -> string) (c : WebCrawler.t)
    (sid : nat) (visits : nat -> Orchestrator.visit) (i : nat) (urls : list string)
    : list WebCrawler.event :=
  match urls with
  | [] => []
  | url :: rest =>
      WebCrawler.Slept
        (Qmax 0 (RateLimiter.delay (WebCrawler.rate_limiter c)
                 + WebCrawler.jitter_draw (Orchestrator.environment (visits i))))
      :: WebCrawler.HttpGet sid (normalized urljoin c url) None
      :: crawl_log urljoin c sid visits (S i) rest
  end.

(** Every second address times out; the pages that are served hold two
    items each. *)
Definition sample_visits (i : nat) : Orchestrator.visit :=
  {| Orchestrator.environment :=
       sample_oracle (if Nat.even i then inr (sample_response 200) else inl timed_out);
     Orchestrator.handled := fun _ => inr (Some 2%nat) |}.

Definition sample_site : Orchestrator.site_config :=
  {| Orchestrator.base_url := "https://example.com";
     Orchestrator.start_urls := None;
     Orchestrator.url_patterns := Some ["/a"; "/b"; "/c"] |}.

Definition sample_global : Orchestrator.global_config :=
  {| Orchestrator.request_delay := None;
     Orchestrator.concurrency := Some 4;
     Orchestrator.user_agent_rotation := None |}.

(** * Properties *)

(** ** The limiter *)

Section Limiter.
Import RateLimiter DomainAwareRateLimiter.

Lemma Qmax_0_nonneg (x : Q) : (0 <= Qmax 0 x)%Q.
Proof. apply Q.le_max_l. Qed.

Lemma total_sleep_app (l1 l2 : list Q) :
  (total_sleep (l1 ++ l2) == total_sleep l1 + total_sleep l2)%Q.
Proof.
  induction l1 as [|x l1 IH]; simpl.
  - ring.
  - rewrite IH. ring.
Qed.

(** The base class sleeps for a non-negative time. *)
Lemma base_wait_nonneg s domain now1 u now2 :
  (0 <= total_sleep (RateLimiter.wait_for_request s domain now1 u now2).2)%Q.
Proof.
  assert (Hj : (0 <= total_sleep (_apply_jittered_delay s u).2)%Q).
  { simpl. pose proof (Qmax_0_nonneg (delay s + u)). lra. }
  unfold RateLimiter.wait_for_request.
  destruct domain as [d|]; [|exact Hj].
  destruct (truthy (Some d)); [|exact Hj].
  unfold _wait_for_domain. simpl.
  destruct (_ && _); simpl.
  - match goal with |- context [Qmax 0 ?x] => pose proof (Qmax_0_nonneg x) end. lra.
  - lra.
Qed.

(** The base class leaves the books of the subclass alone. *)
Lemma base_wait_errors s domain now1 u now2 :
  _error_counts (RateLimiter.wait_for_request s domain now1 u now2).1 = _error_counts s
  /\ _backoff_delays (RateLimiter.wait_for_request s domain now1 u now2).1
     = _backoff_delays s.
Proof.
  unfold RateLimiter.wait_for_request.
  destruct domain as [d|]; [destruct (truthy (Some d))|]; done.
Qed.

Lemma wait_errors s domain now1 u now2 :
  _error_counts (DomainAwareRateLimiter.wait_for_request s domain now1 u now2).1
  = _error_counts s
  /\ _backoff_delays (DomainAwareRateLimiter.wait_for_request s domain now1 u now2).1
     = _backoff_delays s.
Proof.
  unfold DomainAwareRateLimiter.wait_for_request.
  destruct domain as [d|]; [destruct (truthy (Some d)) eqn:Ht|].
  - destruct (RateLimiter.wait_for_request _ _ _ _ _) as [s2 sl] eqn:Hw.
    pose proof (base_wait_errors
      (set_request_counts (<[d:=default 0 (_request_counts s !! d) + 1]> (_request_counts s)) s)
      (Some d) now1 u now2) as [H1 H2].
    rewrite Hw in H1, H2. done.
  - apply base_wait_errors.
  - apply base_wait_errors.
Qed.

Lemma release_errors s domain now :
  _error_counts (release s domain now) = _error_counts s
  /\ _backoff_delays (release s domain now) = _backoff_delays s.
Proof.
  unfold release. destruct domain as [d|]; [destruct (truthy (Some d))|]; done.
Qed.

(** What [report_success] leaves in the two books. *)
Lemma report_success_errors s domain d :
  _error_counts (report_success s domain) !! d
  = (if decide (domain = d) then None else _error_counts s !! d)
  /\ _backoff_delays (report_success s domain) !! d
     = (if decide (domain = d) then None else _backoff_delays s !! d).
Proof.
  unfold report_success.
  destruct (_error_counts s !! domain) eqn:He;
    destruct (_backoff_delays _ !! domain) eqn:Hb; simpl in *;
    case_decide; subst; simplify_map_eq; done.
Qed.

(** The power of two of the backoff stays under the cap before the
    tenth error. *)
Lemma power_under_cap c :
  3 <= c < 10 -> Z.min (2 ^ (c - 2)) 300 = 2 ^ (c - 2).
Proof.
  intros H.
  assert (Hc : c = 3 \/ c = 4 \/ c = 5 \/ c = 6 \/ c = 7 \/ c = 8 \/ c = 9) by lia.
  destruct Hc as [->|[->|[->|[->|[->|[->| ->]]]]]]; reflexivity.
Qed.

Lemma power_step c :
  3 <= c -> (inject_Z (2 ^ (c + 1 - 2)) == 2 * inject_Z (2 ^ (c - 2)))%Q.
Proof.
  intros H. replace (c + 1 - 2) with (Z.succ (c - 2)) by lia.
  rewrite Z.pow_succ_r by lia. rewrite inject_Z_mult. reflexivity.
Qed.

Lemma power_pos c : 3 <= c -> (1 <= inject_Z (2 ^ (c - 2)))%Q.
Proof.
  intros H. change 1%Q with (inject_Z 1). rewrite <- Zle_Qle.
  pose proof (Z.pow_pos_nonneg 2 (c - 2)). lia.
Qed.

(** What [report_error] leaves in the two books. *)
Lemma report_error_count s d ty r :
  _error_counts (report_error s d ty r) !! d
  = Some (default 0 (_error_counts s !! d) + 1).
Proof.
  unfold report_error.
  destruct (3 <=? _); [destruct (10 <=? _)|]; simpl; by simplify_map_eq.
Qed.

Lemma report_error_backoff s d ty r :
  _backoff_delays (report_error s d ty r) !! d
  = let c := default 0 (_error_counts s !! d) + 1 in
    if 3 <=? c then
      if 10 <=? c then Some 3600%Q
      else Some (inject_Z (Z.min (2 ^ (c - 2)) 300) * r)%Q
    else _backoff_delays s !! d.
Proof.
  unfold report_error. cbv zeta.
  destruct (3 <=? _); [destruct (10 <=? _)|]; simpl; by simplify_map_eq.
Qed.

Lemma report_error_other s d ty r d' :
  d <> d' ->
  _error_counts (report_error s d ty r) !! d' = _error_counts s !! d'
  /\ _backoff_delays (report_error s d ty r) !! d' = _backoff_delays s !! d'.
Proof.
  intros Hne. unfold report_error.
  destruct (3 <=? _); [destruct (10 <=? _)|]; simpl; by simplify_map_eq.
Qed.

(** [report_error] keeps the books consistent. *)
Lemma report_error_fits s d ty r :
  uniform 0.8 1.2 r -> backoff_fits s -> backoff_fits (report_error s d ty r).
Proof.
  intros [Hlo Hhi] Hs d'. destruct (decide (d = d')) as [<-|Hne].
  - rewrite report_error_count, report_error_backoff. cbv zeta.
    specialize (Hs d). unfold fits in *.
    destruct (_error_counts s !! d) as [c|] eqn:Hc; simpl.
    + destruct Hs as [Hpos Hs]. split; [lia|].
      destruct (Z.leb_spec 3 (c + 1)); destruct (Z.ltb_spec (c + 1) 3); try lia.
      * destruct (Z.leb_spec 10 (c + 1)); destruct (Z.ltb_spec (c + 1) 10);
          try lia; [done|].
        eexists; split; [done|].
        rewrite power_under_cap by lia. pose proof (power_pos (c + 1) ltac:(lia)) as Hp.
        set (p := inject_Z (2 ^ (c + 1 - 2))) in *.
        split; nra.
      * destruct (Z.ltb_spec c 3); [done | lia].
    + split; [lia|]. simpl. done.
  - destruct (report_error_other s d ty r d' Hne) as [-> ->]. apply Hs.
Qed.

(** Every state a limiter goes through keeps the books consistent. *)
Lemma reachable_fits s : reachable s -> backoff_fits s.
Proof.
  induction 1 as [| | s dom now1 u now2 _ IH | s dom now _ IH
                  | s dom _ IH | s dom ty r _ IH Hr]; intros d.
  - simpl. rewrite !lookup_empty. done.
  - apply IHreachable.
  - destruct (wait_errors s dom now1 u now2) as [-> ->]. apply IH.
  - destruct (release_errors s dom now) as [-> ->]. apply IH.
  - destruct (report_success_errors s dom d) as [-> ->].
    case_decide; [done | apply IH].
  - by apply report_error_fits.
Qed.

(** One more failure never shortens the backoff. *)
Lemma report_error_monotone s d ty r :
  uniform 0.8 1.2 r -> backoff_fits s ->
  (backoff_wait s d <= backoff_wait (report_error s d ty r) d)%Q.
Proof.
  intros [Hlo Hhi] Hs. unfold backoff_wait.
  rewrite report_error_backoff. cbv zeta.
  specialize (Hs d). unfold fits in Hs.
  destruct (_error_counts s !! d) as [c|] eqn:Hc; simpl.
  - destruct Hs as [Hpos Hs].
    destruct (Z.leb_spec 3 (c + 1)); [|lra].
    destruct (Z.ltb_spec c 3).
    { rewrite Hs. simpl. destruct (Z.leb_spec 10 (c + 1)); simpl; [lra|].
      rewrite power_under_cap by lia. pose proof (power_pos (c + 1) ltac:(lia)) as Hp.
      set (p := inject_Z (2 ^ (c + 1 - 2))) in *. nra. }
    destruct (Z.ltb_spec c 10).
    + destruct Hs as (b & -> & Hb1 & Hb2). simpl.
      destruct (Z.leb_spec 10 (c + 1)); simpl.
      * assert (c = 9) as -> by lia.
        change (inject_Z (2 ^ (9 - 2))) with 128%Q in Hb2. lra.
      * rewrite power_under_cap by lia.
        pose proof (power_step c) as Hstep. pose proof (power_pos c) as Hp.
        set (p := inject_Z (2 ^ (c - 2))) in *.
        set (q := inject_Z (2 ^ (c + 1 - 2))) in *.
        specialize (Hstep ltac:(lia)). specialize (Hp ltac:(lia)).
        rewrite Hstep. nra.
    + rewrite Hs. destruct (Z.leb_spec 10 (c + 1)); simpl; [lra | lia].
  - apply Qle_refl.
Qed.

(** Waiting for the rate limit does not touch the semaphore. *)
Lemma wait_semaphore wait s domain now1 u now2 :
  Tasks.wait_method wait ->
  RateLimiter._semaphore (wait s domain now1 u now2).1 = RateLimiter._semaphore s
  /\ RateLimiter.concurrent_requests (wait s domain now1 u now2).1
     = RateLimiter.concurrent_requests s.
Proof.
  intros [|].
  - unfold RateLimiter.wait_for_request.
    destruct domain as [d|]; [destruct (truthy (Some d))|]; done.
  - unfold DomainAwareRateLimiter.wait_for_request, RateLimiter.wait_for_request.
    destruct domain as [d|]; [destruct (truthy (Some d))|]; done.
Qed.

Lemma release_semaphore s domain now :
  RateLimiter._semaphore (RateLimiter.release s domain now)
  = RateLimiter._semaphore s + 1
  /\ RateLimiter.concurrent_requests (RateLimiter.release s domain now)
     = RateLimiter.concurrent_requests s.
Proof.
  unfold RateLimiter.release.
  destruct domain as [d|]; [destruct (truthy (Some d))|]; done.
Qed.

End Limiter.

Section LimiterClaims.
Import RateLimiter DomainAwareRateLimiter.

Lemma report_errors_snoc s d draws r :
  report_errors s d (draws ++ [r])
  = report_error (report_errors s d draws) d "general" r.
Proof.
  revert s. induction draws as [|r' draws IH]; intros s; simpl; [done|].
  apply IH.
Qed.

Lemma report_errors_reachable s d draws :
  reachable s -> Forall (uniform 0.8 1.2) draws ->
  reachable (report_errors s d draws).
Proof.
  intros Hs Hd. revert s Hs.
  induction Hd as [|r draws Hr _ IH]; intros s Hs; simpl; [done|].
  apply IH. by constructor.
Qed.

(** Once a success is reported the subclass sleeps as the base class
    does: the backoff is gone and only the configured delay is left. *)
Lemma report_success_wait s d now1 u now2 :
  (DomainAwareRateLimiter.wait_for_request (report_success s d) (Some d) now1 u now2).2
  = (RateLimiter.wait_for_request s (Some d) now1 u now2).2.
Proof.
  assert (Hsame : delay (report_success s d) = delay s
                  /\ domain_specific_delays (report_success s d) = domain_specific_delays s
                  /\ _last_request_time (report_success s d) = _last_request_time s
                  /\ _active_domains (report_success s d) = _active_domains s).
  { unfold report_success.
    destruct (_error_counts s !! d); simpl;
      destruct (_backoff_delays s !! d); done. }
  destruct Hsame as (Hd & Ho & Hl & Ha).
  destruct (report_success_errors s d d) as [_ Hb].
  rewrite decide_True in Hb by done.
  unfold DomainAwareRateLimiter.wait_for_request, RateLimiter.wait_for_request.
  destruct (truthy (Some d)); simpl.
  - rewrite Hb. unfold _wait_for_domain, domain_delay. simpl.
    rewrite Hd, Ho, Hl, Ha. done.
  - by rewrite Hd.
Qed.

(** C2. Along consecutive [report_error] calls for a domain, with no
    [report_success] in between, the backoff recorded after the n-th
    failure is at least the one recorded after the (n-1)-th, for every
    n >= 2; one [report_success] then clears the error count and the
    backoff of the domain, and its next wait is the one of the base class,
    computed from the configured delay alone. *)
Theorem backoff_monotone_and_reset s d draws n :
  reachable s ->
  Forall (uniform 0.8 1.2) draws ->
  (2 <= n <= length draws)%nat ->
  (backoff_wait (report_errors s d (take (n - 1) draws)) d
   <= backoff_wait (report_errors s d (take n draws)) d)%Q
  /\ _error_counts (report_success (report_errors s d (take n draws)) d) !! d = None
  /\ _backoff_delays (report_success (report_errors s d (take n draws)) d) !! d = None
  /\ backoff_wait (report_success (report_errors s d (take n draws)) d) d = 0%Q
  /\ forall now1 u now2,
       (DomainAwareRateLimiter.wait_for_request
          (report_success (report_errors s d (take n draws)) d) (Some d) now1 u now2).2
       = (RateLimiter.wait_for_request
            (report_errors s d (take n draws)) (Some d) now1 u now2).2.
Proof.
  intros Hs Hd Hn.
  destruct (report_success_errors (report_errors s d (take n draws)) d d) as [He Hb].
  rewrite decide_True in He by done. rewrite decide_True in Hb by done.
  split; [|split; [done|split; [done|split]]].
  - destruct n as [|n]; [lia|]. simpl. rewrite Nat.sub_0_r.
    destruct (lookup_lt_is_Some_2 draws n ltac:(lia)) as [r Hr].
    rewrite (take_S_r _ _ _ Hr), report_errors_snoc.
    apply report_error_monotone.
    + eapply Forall_lookup_1; eauto.
    + apply reachable_fits, report_errors_reachable; [done|].
      by apply Forall_take.
  - unfold backoff_wait. by rewrite Hb.
  - intros. apply report_success_wait.
Qed.

Lemma backoff_monotone_and_reset_witness :
  (backoff_wait
     (report_errors (__init__ 1 0.5 1 None) "example.com" (take 3 [1; 0.8; 1.2; 0.8]%Q))
     "example.com"
   <= backoff_wait
        (report_errors (__init__ 1 0.5 1 None) "example.com" (take 4 [1; 0.8; 1.2; 0.8]%Q))
        "example.com")%Q.
Proof.
  apply (backoff_monotone_and_reset (__init__ 1 0.5 1 None) "example.com"
           [1; 0.8; 1.2; 0.8]%Q 4).
  - constructor.
  - repeat constructor; unfold Qle; simpl; lia.
  - simpl; lia.
Defined.

(** The formula of the specification multiplies by the base delay; the
    code does not. With a base delay of 2 s and every draw equal to 1, the
    third failure records a backoff of 2 s, which no factor in
    [0.8, 1.2] brings to [min (2 * 2^1) 300]. *)
Lemma backoff_formula_counterexample :
  let s := report_errors (__init__ 2 0.5 1 None) "example.com" [1; 1; 1]%Q in
  _error_counts s !! "example.com" = Some 3
  /\ ~ exists factor,
        uniform 0.8 1.2 factor
        /\ (backoff_wait s "example.com"
            == spec_backoff (domain_delay s "example.com") 3 factor)%Q.
Proof.
  split; [reflexivity|].
  intros (f & [Hlo Hhi] & Heq).
  change (2 * 1 == Qmin (2 * inject_Z (2 ^ (3 - 2))) 300 * f)%Q in Heq.
  rewrite Q.min_l in Heq by (unfold Qle; simpl; lia).
  change (inject_Z (2 ^ (3 - 2))) with 2%Q in Heq. lra.
Qed.

(** C4, as the code has it. When [report_error] brings the count of a domain to c:
    for 3 <= c < 10 the stored backoff is [min (2^(c-2)) 300] times the
    draw from [0.8, 1.2], whatever the base delay; for c >= 10 it is
    3600, and the next [wait_for_request] for that (non-empty) domain
    sleeps at least 3600 seconds. *)
Theorem backoff_formula s d ty r c now1 u now2 :
  c = default 0 (_error_counts s !! d) + 1 ->
  3 <= c ->
  d <> "" ->
  _error_counts (report_error s d ty r) !! d = Some c
  /\ (c < 10 ->
      _backoff_delays (report_error s d ty r) !! d
      = Some (inject_Z (Z.min (2 ^ (c - 2)) 300) * r)%Q
      /\ (uniform 0.8 1.2 r ->
          (0.8 * inject_Z (2 ^ (c - 2)) <= backoff_wait (report_error s d ty r) d)%Q
          /\ (backoff_wait (report_error s d ty r) d <= 1.2 * inject_Z (2 ^ (c - 2)))%Q))
  /\ (10 <= c ->
      _backoff_delays (report_error s d ty r) !! d = Some 3600%Q
      /\ (3600 <= total_sleep
                    (DomainAwareRateLimiter.wait_for_request
                       (report_error s d ty r) (Some d) now1 u now2).2)%Q).
Proof.
  intros Hdef Hc Hd.
  split; [rewrite Hdef; apply report_error_count|]. split.
  - intros Hlt.
    assert (Hb : _backoff_delays (report_error s d ty r) !! d
                 = Some (inject_Z (Z.min (2 ^ (c - 2)) 300) * r)%Q).
    { rewrite report_error_backoff. cbv zeta. rewrite <- Hdef.
      destruct (Z.leb_spec 3 c); [|lia].
      destruct (Z.leb_spec 10 c); [lia|done]. }
    split; [exact Hb|].
    intros [Hlo Hhi]. unfold backoff_wait. rewrite Hb. simpl.
    rewrite power_under_cap by lia.
    pose proof (power_pos _ Hc) as Hp.
    set (p := inject_Z _) in *. split; nra.
  - intros Hge.
    assert (Hb : _backoff_delays (report_error s d ty r) !! d = Some 3600%Q).
    { rewrite report_error_backoff. cbv zeta. rewrite <- Hdef.
      destruct (Z.leb_spec 3 c); [|lia].
      destruct (Z.leb_spec 10 c); [done|lia]. }
    split; [exact Hb|].
    unfold DomainAwareRateLimiter.wait_for_request.
    assert (Ht : truthy (Some d) = true).
    { simpl. destruct (String.eqb_spec d ""); done. }
    rewrite Ht, Hb.
    match goal with
    | |- context [RateLimiter.wait_for_request ?s1 ?dm now1 u now2] =>
        pose proof (base_wait_nonneg s1 dm now1 u now2) as Hnn;
        destruct (RateLimiter.wait_for_request s1 dm now1 u now2) as [s2 sleeps]
    end.
    simpl in *. lra.
Qed.

Lemma backoff_formula_witness :
  _error_counts
    (report_error (report_errors (__init__ 2 0.5 1 None) "example.com"
                     [1; 1; 1; 1; 1; 1; 1; 1; 1]%Q)
                  "example.com" "general" 1) !! "example.com" = Some 10.
Proof.
  apply (backoff_formula
           (report_errors (__init__ 2 0.5 1 None) "example.com"
              [1; 1; 1; 1; 1; 1; 1; 1; 1]%Q)
           "example.com" "general" 1 10 0 0 0).
  - reflexivity.
  - lia.
  - discriminate.
Defined.

(** [release] with a domain stamps it again: a request let through at
    clock 10 and released at clock 20 leaves the timestamp at 20. *)
Lemma release_timestamp_counterexample :
  let s1 := (RateLimiter.wait_for_request (__init__ 1 0.5 1 None)
               (Some "example.com") 10 0 10).1 in
  _last_request_time s1 !! "example.com" = Some 10%Q
  /\ _last_request_time (release s1 (Some "example.com") 20) !! "example.com"
     <> _last_request_time s1 !! "example.com".
Proof. split; [reflexivity|]. vm_compute. discriminate. Qed.

(** C7, as the code has it. A request to a (non-empty) domain that [wait_for_request]
    lets through stamps the domain with the clock read at that moment;
    [release] with that domain stamps it again with the clock read at the
    release and touches no other domain; [release] without a domain leaves
    every timestamp as it was. *)
Theorem timestamp_at_wait_and_release wait s d now1 u now2 now :
  Tasks.wait_method wait ->
  d <> "" ->
  _last_request_time (wait s (Some d) now1 u now2).1 !! d = Some now2
  /\ _last_request_time (release (wait s (Some d) now1 u now2).1 (Some d) now) !! d
     = Some now
  /\ (forall d', d' <> d ->
        _last_request_time (release (wait s (Some d) now1 u now2).1 (Some d) now) !! d'
        = _last_request_time (wait s (Some d) now1 u now2).1 !! d')
  /\ _last_request_time (release (wait s (Some d) now1 u now2).1 None now)
     = _last_request_time (wait s (Some d) now1 u now2).1.
Proof.
  intros Hw Hd.
  assert (Ht : truthy (Some d) = true).
  { simpl. destruct (String.eqb_spec d ""); done. }
  split; [|split; [|split]].
  - destruct Hw; unfold DomainAwareRateLimiter.wait_for_request,
      RateLimiter.wait_for_request; rewrite Ht; simpl; by simplify_map_eq.
  - unfold release. rewrite Ht. simpl. by simplify_map_eq.
  - intros d' Hne. unfold release. rewrite Ht. simpl. by simplify_map_eq.
  - done.
Qed.

Lemma timestamp_at_wait_and_release_witness :
  _last_request_time
    (RateLimiter.wait_for_request (__init__ 1 0.5 1 None)
       (Some "example.com") 10 0 11).1 !! "example.com" = Some 11%Q.
Proof.
  apply (timestamp_at_wait_and_release RateLimiter.wait_for_request
           (__init__ 1 0.5 1 None) "example.com" 10 0 11 20).
  - constructor.
  - discriminate.
Defined.

End LimiterClaims.

(** ** The crawler *)

Section Crawler.
Import WebCrawler.

(** Runs the plumbing of a method: binds, reads and writes of the state. *)
Ltac run :=
  cbv [mbind M_bind mret M_ret self the_world update emit fresh await raise
       try_except try_finally new_session close_session].

(** What [close] returns, spelled out. *)
Lemma close_spec c w :
  close c w =
  (inr tt,
   mk (base_url c) (user_agent_rotation c) (headers c) (limiter c) (rate_limiter c)
      (use_browser c)
      (if no_open_session c w then _session c else None)
      None None (_context c) (_cookies c) false,
   World (next_id w)
      (if no_open_session c w then open_sessions w
       else match _session c with
            | Some id => open_sessions w ∖ {[id]}
            | None => open_sessions w
            end)
      (((log w ++ (if no_open_session c w then []
                   else match _session c with
                        | Some id => [SessionClosed id]
                        | None => []
                        end))
        ++ match _browser c with Some b => [BrowserClosed b] | None => [] end)
       ++ match _playwright c with Some p => [PlaywrightStopped p] | None => [] end)).
Proof.
  destruct c as [bu ua hd lc rl ub [sid|] pw br cx ck ini], w as [nx op lg];
    unfold close, close_with, quiet, no_open_session; run; simpl;
    try destruct (bool_decide (sid ∈ op)); simpl;
    destruct br, pw; simpl; rewrite ?app_nil_r; reflexivity.
Qed.


(** *** Frame rules of the method monad *)

Section Preserves.
Context (R : t * world -> t * world -> Prop).
Context (R_refl : forall x, R x x).
Context (R_trans : forall x y z, R x y -> R y z -> R x z).

Lemma preserves_ret {A} (a : A) : preserves R (mret a).
Proof. intros c w. apply R_refl. Qed.

Lemma preserves_raise {A} e : preserves R (raise (A := A) e).
Proof. intros c w. apply R_refl. Qed.

Lemma preserves_await f : preserves R (await f).
Proof. destruct f; [apply preserves_raise | apply preserves_ret]. Qed.

Lemma preserves_self : preserves R self.
Proof. intros c w. apply R_refl. Qed.

Lemma preserves_the_world : preserves R the_world.
Proof. intros c w. apply R_refl. Qed.

Lemma preserves_bind {A B} (m : M A) (k : A -> M B) :
  preserves R m -> (forall a, preserves R (k a)) -> preserves R (m ≫= k).
Proof.
  intros Hm Hk c w. specialize (Hm c w). unfold mbind, M_bind.
  destruct (m c w) as [[[e|a] c1] w1]; simpl in *; [done|].
  eapply R_trans; [exact Hm | apply Hk].
Qed.

Lemma preserves_try_except {A} (body : M A) handler :
  preserves R body -> (forall e, preserves R (handler e)) ->
  preserves R (try_except body handler).
Proof.
  intros Hb Hh c w. specialize (Hb c w). unfold try_except.
  destruct (body c w) as [[[e|a] c1] w1]; simpl in *; [|done].
  destruct (is_Exception e); simpl; [|done].
  eapply R_trans; [exact Hb | apply Hh].
Qed.

Lemma preserves_try_finally {A} (body : M A) final :
  preserves R body -> preserves R final -> preserves R (try_finally body final).
Proof.
  intros Hb Hf c w. specialize (Hb c w). unfold try_finally.
  destruct (body c w) as [[r c1] w1]; simpl in *.
  specialize (Hf c1 w1).
  destruct (final c1 w1) as [[[e|a] c2] w2]; simpl in *;
    eapply R_trans; eauto.
Qed.
End Preserves.

Lemma same_transport_refl x : same_transport x x.
Proof. by repeat split. Qed.

Lemma same_transport_trans x y z :
  same_transport x y -> same_transport y z -> same_transport x z.
Proof.
  unfold same_transport. intros (?&?&?&?&?&?&?) (?&?&?&?&?&?&?).
  repeat split; congruence.
Qed.

Lemma same_books_refl x : same_books x x.
Proof. by repeat split. Qed.

Lemma same_books_trans x y z : same_books x y -> same_books y z -> same_books x z.
Proof. unfold same_books. intros (?&?&?) (?&?&?). repeat split; congruence. Qed.

Lemma same_requests_refl x : same_requests x x.
Proof. done. Qed.

Lemma same_requests_trans x y z :
  same_requests x y -> same_requests y z -> same_requests x z.
Proof. unfold same_requests. congruence. Qed.

Lemma requests_app l1 l2 : requests (l1 ++ l2) = (requests l1 + requests l2)%nat.
Proof. unfold requests. by rewrite List.filter_app, length_app. Qed.

(** Decomposes a method along its binds, handlers and branches; what is
    left are the reads and writes, which [tac] settles. *)
Ltac frame R_refl R_trans tac :=
  repeat first
    [ apply (preserves_bind _ R_trans); [|intros ?]
    | apply (preserves_try_except _ R_trans); [|intros ?]
    | apply (preserves_try_finally _ R_trans)
    | apply (preserves_ret _ R_refl)
    | apply (preserves_raise _ R_refl)
    | apply (preserves_await _ R_refl)
    | apply (preserves_self _ R_refl)
    | apply (preserves_the_world _ R_refl)
    | match goal with
      | |- preserves _ (if ?b then _ else _) => destruct b
      | |- preserves _ (match ?x with _ => _ end) => destruct x
      end
    | solve [tac] ].

(** The sleeps of a wait are logged and nothing else changes. *)
Lemma slept_spec sleeps c w :
  fold_right (fun d k => emit (Slept d);; k) (mret tt) sleeps c w
  = (inr tt, c, World (next_id w) (open_sessions w) (log w ++ map Slept sleeps)).
Proof.
  revert w. induction sleeps as [|d sleeps IH]; intros w; simpl.
  - rewrite app_nil_r. by destruct w.
  - run. fold (@mret M _ unit). rewrite IH. simpl. by rewrite <- app_assoc.
Qed.

(** What the wait of [fetch_page] returns, spelled out. *)
Lemma wait_for_request_spec o domain c w :
  wait_for_request o domain c w =
  let wait := match limiter c with
              | Base => RateLimiter.wait_for_request
              | DomainAware => DomainAwareRateLimiter.wait_for_request
              end in
  let r := wait (rate_limiter c) domain (clock1 o) (jitter_draw o) (clock2 o) in
  (inr tt, with_rate_limiter r.1 c,
   World (next_id w) (open_sessions w) (log w ++ map Slept r.2)).
Proof.
  unfold wait_for_request. cbv [mbind M_bind self update]. cbv zeta.
  destruct (match limiter c with
            | Base => RateLimiter.wait_for_request
            | DomainAware => DomainAwareRateLimiter.wait_for_request
            end (rate_limiter c) domain (clock1 o) (jitter_draw o) (clock2 o))
    as [rl sleeps].
  simpl. apply slept_spec.
Qed.

Lemma requests_slept sleeps : requests (map Slept sleeps) = 0%nat.
Proof. induction sleeps; simpl; done. Qed.

Lemma wait_same_transport o domain : preserves same_transport (wait_for_request o domain).
Proof. intros c w. rewrite wait_for_request_spec. by repeat split. Qed.

Lemma wait_same_requests o domain : preserves same_requests (wait_for_request o domain).
Proof.
  intros c w. rewrite wait_for_request_spec. unfold same_requests. simpl.
  rewrite requests_app, requests_slept. lia.
Qed.

Lemma wait_same_books o domain : preserves same_books (wait_for_request o domain).
Proof.
  intros c w. rewrite wait_for_request_spec. unfold same_books. simpl.
  destruct (limiter c).
  - destruct (base_wait_errors (rate_limiter c) domain (clock1 o) (jitter_draw o)
                (clock2 o)) as [-> ->].
    by destruct (wait_semaphore _ (rate_limiter c) domain (clock1 o) (jitter_draw o)
                   (clock2 o) Tasks.wait_base) as [-> _].
  - destruct (wait_errors (rate_limiter c) domain (clock1 o) (jitter_draw o)
                (clock2 o)) as [-> ->].
    by destruct (wait_semaphore _ (rate_limiter c) domain (clock1 o) (jitter_draw o)
                   (clock2 o) Tasks.wait_domain_aware) as [-> _].
Qed.

Lemma initialize_same_books o : preserves same_books (initialize o).
Proof.
  unfold initialize, _initialize_browser, _initialize_session.
  frame same_books_refl same_books_trans ltac:(intros c w; by repeat split).
Qed.

Lemma initialize_same_requests o : preserves same_requests (initialize o).
Proof.
  unfold initialize, _initialize_browser, _initialize_session.
  frame same_requests_refl same_requests_trans
    ltac:(intros c w; unfold same_requests; run; simpl;
          rewrite ?requests_app; unfold requests; simpl; lia).
Qed.

Lemma fetch_with_http_frame o url params :
  preserves same_transport (_fetch_with_http o url params)
  /\ preserves same_books (_fetch_with_http o url params).
Proof.
  unfold _fetch_with_http. split.
  - frame same_transport_refl same_transport_trans ltac:(intros c w; by repeat split).
  - frame same_books_refl same_books_trans ltac:(intros c w; by repeat split).
Qed.

Lemma fetch_with_browser_frame o url params :
  preserves same_transport (_fetch_with_browser o url params)
  /\ preserves same_books (_fetch_with_browser o url params).
Proof.
  unfold _fetch_with_browser. split.
  - frame same_transport_refl same_transport_trans ltac:(intros c w; by repeat split).
  - frame same_books_refl same_books_trans ltac:(intros c w; by repeat split).
Qed.

Lemma same_config_refl x : same_config x x.
Proof. by split. Qed.

Lemma same_config_trans x y z : same_config x y -> same_config y z -> same_config x z.
Proof. unfold same_config. intros [? ?] [? ?]. split; congruence. Qed.

Lemma initialize_same_config o : preserves same_config (initialize o).
Proof.
  unfold initialize, _initialize_browser, _initialize_session.
  frame same_config_refl same_config_trans ltac:(intros c w; by split).
Qed.

(** *** Initialization *)

Lemma initialize_noop o c w :
  _is_initialized c = true -> initialize o c w = (inr tt, c, w).
Proof. intros H. unfold initialize. cbv [mbind M_bind self]. by rewrite H. Qed.

Lemma initialize_flag o c w :
  (initialize o c w).1.1 = inr tt -> _is_initialized (initialize o c w).1.2 = true.
Proof.
  unfold initialize. cbv [mbind M_bind self update].
  destruct (_is_initialized c) eqn:Hi; simpl; [done|].
  destruct ((if use_browser c then _initialize_browser o else _initialize_session o) c w)
    as [[[e|[]] c1] w1]; simpl; done.
Qed.

(** The lightweight transport always initializes: afterwards the engine
    refers to an open session. *)
Lemma initialize_http o c w :
  _is_initialized c = false -> use_browser c = false ->
  (initialize o c w).1.1 = inr tt
  /\ exists id, _session (initialize o c w).1.2 = Some id
                /\ id ∈ open_sessions (initialize o c w).2.
Proof.
  intros Hi Hb. unfold initialize, _initialize_session. run.
  rewrite Hi, Hb. simpl. unfold no_open_session.
  destruct (_session c) as [sid|] eqn:Hs; simpl.
  - destruct (bool_decide (sid ∈ open_sessions w)) eqn:Hin; simpl.
    + split; [done|]. exists sid. rewrite Hs. split; [done|].
      by apply bool_decide_eq_true in Hin.
    + split; [done|]. eexists. split; [done|]. set_solver.
  - split; [done|]. eexists. split; [done|]. set_solver.
Qed.

(** The browser transport initializes when the browser starts. *)
Lemma initialize_browser o c w :
  _is_initialized c = false -> use_browser c = true -> startup_ok o ->
  (initialize o c w).1.1 = inr tt
  /\ is_Some (_playwright (initialize o c w).1.2)
  /\ is_Some (_browser (initialize o c w).1.2)
  /\ is_Some (_context (initialize o c w).1.2).
Proof.
  intros Hi Hb (H1 & H2 & H3 & H4). unfold initialize, _initialize_browser. run.
  rewrite Hi, Hb, H1, H2, H3. simpl.
  destruct (_cookies c); simpl; rewrite ?H4; simpl; eauto.
Qed.

Section Fetch.
Variable urljoin : string -> string -> string.

(** [fetch_page] is [initialize] followed by [fetch_page]. *)
Lemma fetch_page_after_initialize o url params c w :
  fetch_page urljoin o url params c w
  = (initialize o ≫= fun _ => fetch_page urljoin o url params) c w.
Proof.
  unfold fetch_page at 1. cbv [mbind M_bind self]. cbv beta.
  destruct (_is_initialized c) eqn:Hi; simpl.
  - rewrite (initialize_noop o c w Hi).
    unfold fetch_page. cbv [mbind M_bind self]. by rewrite Hi.
  - pose proof (initialize_flag o c w) as Hf.
    destruct (initialize o c w) as [[[e|[]] c1] w1]; simpl in *; [done|].
    unfold fetch_page. cbv [mbind M_bind self]. by rewrite Hf.
Qed.

(** From an initialized engine, [fetch_page] waits and then asks the
    transport once, turning what it raises into a [CrawlerException]. *)
Lemma fetch_page_initialized o url params c w :
  _is_initialized c = true ->
  fetch_page urljoin o url params c w
  = try_except
      (if use_browser c
       then _fetch_with_browser o (normalized urljoin c url) params
       else _fetch_with_http o (normalized urljoin c url) params)
      (fun e =>
         raise (Raise CrawlerException
                  ("Failed to fetch page " +:+ normalized urljoin c url
                   +:+ ": " +:+ str e)))
      (after_wait o c w).1 (after_wait o c w).2.
Proof.
  intros Hi. unfold fetch_page. cbv [mbind M_bind self]. rewrite Hi. simpl.
  rewrite wait_for_request_spec. reflexivity.
Qed.
End Fetch.

(** *** One fetch *)

(** A handler that only raises leaves the state where the body left it. *)
Lemma try_except_raise_state {A} (body : M A) (f : exn -> exn) c w :
  (try_except body (fun e => raise (f e)) c w).1.2 = (body c w).1.2
  /\ (try_except body (fun e => raise (f e)) c w).2 = (body c w).2.
Proof.
  unfold try_except, raise. destruct (body c w) as [[[e|a] c1] w1]; simpl; [|done].
  by destruct (is_Exception e).
Qed.

Lemma fetch_with_http_requests o url params c w :
  (requests (log (_fetch_with_http o url params c w).2) <= requests (log w) + 1)%nat.
Proof.
  unfold _fetch_with_http. run.
  destruct (_session c); simpl; [|lia].
  destruct (http_reply o) as [e|response]; simpl;
    [destruct (unread_response o)|destruct (negb (status response =? 200))]; simpl;
    rewrite requests_app; unfold requests; simpl; lia.
Qed.

Lemma fetch_with_browser_requests o url params c w :
  (requests (log (_fetch_with_browser o url params c w).2) <= requests (log w) + 1)%nat.
Proof.
  unfold _fetch_with_browser. run.
  destruct (_context c); simpl; [|lia].
  destruct (new_page o); simpl; [lia|].
  destruct (page_reply o) as [e|r]; simpl;
    [destruct (unread_page o) as [[|ck cs]|]|destruct (context_cookies r)]; simpl;
    rewrite !requests_app; unfold requests; simpl; lia.
Qed.

Section FetchClaims.
Variable urljoin : string -> string -> string.

(** A ready engine behaves as an initialized one that has its
    transport, the same settings and the same limiter books, in a world
    that got no request yet. *)
Lemma fetch_page_from_ready o url params c w :
  ready c o ->
  exists c1 w1,
    fetch_page urljoin o url params c w = fetch_page urljoin o url params c1 w1
    /\ _is_initialized c1 = true
    /\ (if use_browser c1 then is_Some (_context c1)
        else exists id, _session c1 = Some id
                        /\ (_is_initialized c = false -> id ∈ open_sessions w1))
    /\ same_config (c, w) (c1, w1)
    /\ same_books (c, w) (c1, w1)
    /\ same_requests (c, w) (c1, w1)
    /\ (initialize o c w).1.1 = inr tt.
Proof.
  unfold ready. intros Hr.
  destruct (_is_initialized c) eqn:Hi.
  - exists c, w. rewrite (initialize_noop o c w Hi).
    split; [done|]. split; [done|]. split.
    { destruct (use_browser c); [done|]. destruct Hr as [id Hid]. by exists id. }
    repeat split; done.
  - pose proof (initialize_same_config o c w) as Hcfg.
    pose proof (initialize_same_books o c w) as Hbk.
    pose proof (initialize_same_requests o c w) as Hrq.
    pose proof (initialize_flag o c w) as Hfl.
    rewrite fetch_page_after_initialize. unfold mbind, M_bind.
    assert (Hok : (initialize o c w).1.1 = inr tt
                  /\ if use_browser c
                     then is_Some (_context (initialize o c w).1.2)
                     else exists id, _session (initialize o c w).1.2 = Some id
                                     /\ id ∈ open_sessions (initialize o c w).2).
    { destruct (use_browser c) eqn:Hb.
      - destruct Hr as [Hr|Hr]; [done|].
        destruct (initialize_browser o c w Hi Hb Hr) as (? & _ & _ & ?). done.
      - apply (initialize_http o c w Hi Hb). }
    destruct (initialize o c w) as [[[e|[]] c1] w1]; simpl in *.
    { by destruct Hok. }
    exists c1, w1. destruct Hok as [_ Hok]. destruct Hcfg as [Hcu Hcb].
    simpl in *. rewrite Hcb.
    split; [done|]. split; [by apply Hfl|]. split.
    { destruct (use_browser c); [done|]. destruct Hok as (id & ? & ?). by exists id. }
    split; [by split|]. done.
Qed.

(** Whatever happens, [fetch_page] leaves the books of the limiter as
    they were and sends at most one request. *)
Lemma fetch_page_books_and_requests o url params c w :
  same_books (c, w)
    ((fetch_page urljoin o url params c w).1.2, (fetch_page urljoin o url params c w).2)
  /\ (requests (log (fetch_page urljoin o url params c w).2)
      <= requests (log w) + 1)%nat.
Proof.
  assert (Hinit : forall c w, _is_initialized c = true ->
    same_books (c, w)
      ((fetch_page urljoin o url params c w).1.2, (fetch_page urljoin o url params c w).2)
    /\ (requests (log (fetch_page urljoin o url params c w).2)
        <= requests (log w) + 1)%nat).
  { clear c w. intros c w Hi. rewrite (fetch_page_initialized urljoin o url params c w Hi).
    match goal with
    | |- context [try_except ?b (fun e => raise (@?f e)) ?c1 ?w1] =>
        destruct (try_except_raise_state b f c1 w1) as [-> ->];
        assert (Hb : same_books (c1, w1) ((b c1 w1).1.2, (b c1 w1).2));
        [|assert (Hq : (requests (log (b c1 w1).2) <= requests (log w1) + 1)%nat)]
    end.
    - destruct (use_browser c);
        [apply fetch_with_browser_frame | apply fetch_with_http_frame].
    - destruct (use_browser c);
        [apply fetch_with_browser_requests | apply fetch_with_http_requests].
    - split.
      + eapply same_books_trans; [|exact Hb].
        pose proof (wait_same_books o None c w) as Hw.
        rewrite wait_for_request_spec in Hw. exact Hw.
      + pose proof (wait_same_requests o None c w) as Hw.
        rewrite wait_for_request_spec in Hw. unfold same_requests in Hw.
        simpl in Hw. unfold after_wait in Hq. simpl in Hq.
        unfold after_wait. simpl. lia. }
  destruct (_is_initialized c) eqn:Hi; [by apply Hinit|].
  rewrite fetch_page_after_initialize. unfold mbind, M_bind.
  pose proof (initialize_same_books o c w) as Hbk.
  pose proof (initialize_same_requests o c w) as Hrq.
  pose proof (initialize_flag o c w) as Hfl.
  destruct (initialize o c w) as [[[e|[]] c1] w1]; simpl in *.
  - unfold same_requests in Hrq. simpl in Hrq. split; [done|lia].
  - destruct (Hinit c1 w1 (Hfl eq_refl)) as [H1 H2].
    unfold same_requests in Hrq. simpl in Hrq. split.
    + eapply same_books_trans; eauto.
    + lia.
Qed.
End FetchClaims.

(** [str] of an [int] can be read back. *)
Lemma int_str_str_int z : int_str (str_int z) = Some z.
Proof.
  unfold int_str, str_int. rewrite NilZero.isi.
  - simpl. by rewrite DecimalZ.of_to.
  - destruct z; simpl; try discriminate.
    intros H. injection H. apply Unsigned.to_uint_nonnil.
  - destruct z; simpl; try discriminate.
    intros H. injection H. apply Unsigned.to_uint_nonnil.
Qed.

Section FetchOutcome.
Variable urljoin : string -> string -> string.

Lemma http_outcome o url params c w id :
  _is_initialized c = true -> use_browser c = false -> _session c = Some id ->
  (fetch_page urljoin o url params c w).1.1
  = match http_reply o with
    | inl e => surfaced urljoin c url e
    | inr response =>
        if status response =? 200 then inr (text response)
        else surfaced urljoin c url
               (Raise CrawlerException
                  ("HTTP error " +:+ str_int (status response)
                   +:+ " when fetching " +:+ normalized urljoin c url))
    end.
Proof.
  intros Hi Hb Hs. rewrite fetch_page_initialized by done. rewrite Hb.
  unfold try_except, _fetch_with_http, surfaced, after_wait. run. simpl.
  rewrite Hs. simpl.
  destruct (http_reply o) as [e|response]; simpl.
  - destruct (unread_response o); simpl; by destruct (is_Exception e).
  - by destruct (status response =? 200).
Qed.

Lemma browser_outcome o url params c w ctx :
  _is_initialized c = true -> use_browser c = true -> _context c = Some ctx ->
  (fetch_page urljoin o url params c w).1.1
  = match new_page o with
    | Some e => surfaced urljoin c url e
    | None =>
        match page_reply o with
        | inl e => surfaced urljoin c url e
        | inr r => inr (content r)
        end
    end.
Proof.
  intros Hi Hb Hx. rewrite fetch_page_initialized by done. rewrite Hb.
  unfold try_except, _fetch_with_browser, surfaced, after_wait. run. simpl.
  rewrite Hx. simpl.
  destruct (new_page o) as [e|]; simpl.
  - by destruct (is_Exception e).
  - destruct (page_reply o) as [e|r]; simpl.
    + destruct (unread_page o) as [[|ck cs]|]; simpl; by destruct (is_Exception e).
    + by destruct (context_cookies r).
Qed.
End FetchOutcome.

(** *** What a fetch returns and reports *)

Section FetchTheorems.
Variable urljoin : string -> string -> string.

Lemma normalized_config c c1 w w1 url :
  same_config (c, w) (c1, w1) ->
  normalized urljoin c1 url = normalized urljoin c url.
Proof. intros [Hu _]. unfold normalized. simpl in Hu. by rewrite Hu. Qed.

(** C3, as the code has it. When the retrieval of a ready engine raises an
    exception deriving from [Exception], [fetch_page] raises a
    [CrawlerException] carrying its text, sends at most one request
    (there is no retry), and leaves the error counts and backoff delays of
    the limiter as they were: no failure is reported. The same holds of
    the books and of the requests for every call, also one that returns
    the page: no success is reported either. *)
Theorem fetch_page_raises_and_reports_nothing o url params c w e :
  ready c o ->
  transport_raises c o e ->
  is_Exception e = true ->
  (fetch_page urljoin o url params c w).1.1
  = inl (Raise CrawlerException
           ("Failed to fetch page " +:+ normalized urljoin c url +:+ ": " +:+ str e))
  /\ same_books (c, w)
       ((fetch_page urljoin o url params c w).1.2,
        (fetch_page urljoin o url params c w).2)
  /\ (requests (log (fetch_page urljoin o url params c w).2)
      <= requests (log w) + 1)%nat
  /\ forall o' url' params' c' w',
       same_books (c', w')
         ((fetch_page urljoin o' url' params' c' w').1.2,
          (fetch_page urljoin o' url' params' c' w').2)
       /\ (requests (log (fetch_page urljoin o' url' params' c' w').2)
           <= requests (log w') + 1)%nat.
Proof.
  intros Hr Ht He.
  destruct (fetch_page_books_and_requests urljoin o url params c w) as [Hb Hq].
  split; [|split; [done|split; [done|]]].
  2: { intros. apply fetch_page_books_and_requests. }
  destruct (fetch_page_from_ready urljoin o url params c w Hr)
    as (c1 & w1 & -> & Hi & Hres & Hcfg & _).
  pose proof (normalized_config _ _ _ _ url Hcfg) as Hn.
  destruct Hcfg as [_ Hub]. simpl in Hub.
  unfold transport_raises in Ht. rewrite <- Hub in Ht.
  destruct (use_browser c1) eqn:Hb1.
  - destruct Hres as [ctx Hctx].
    rewrite (browser_outcome urljoin o url params c1 w1 ctx) by done.
    unfold surfaced. rewrite Hn.
    destruct Ht as [-> | [-> ->]]; by rewrite He.
  - destruct Hres as (id & Hid & _).
    rewrite (http_outcome urljoin o url params c1 w1 id) by done.
    rewrite Ht. unfold surfaced. by rewrite He, Hn.
Qed.

(** C5, as the code has it. On the lightweight transport, a response whose status
    is not 200 (another 2xx status included) makes [fetch_page] raise a
    [CrawlerException] whose text carries the status in decimal, from
    which the status can be read back; a response of status 200 makes it
    return the text of the body. *)
Theorem http_status_outcome o url params c w response :
  use_browser c = false ->
  ready c o ->
  http_reply o = inr response ->
  (fetch_page urljoin o url params c w).1.1
  = (if status response =? 200 then inr (text response)
     else inl (Raise CrawlerException
                 ("Failed to fetch page " +:+ normalized urljoin c url
                  +:+ ": " +:+ "HTTP error " +:+ str_int (status response)
                  +:+ " when fetching " +:+ normalized urljoin c url)))
  /\ int_str (str_int (status response)) = Some (status response).
Proof.
  intros Hb Hr Hreply. split; [|apply int_str_str_int].
  destruct (fetch_page_from_ready urljoin o url params c w Hr)
    as (c1 & w1 & -> & Hi & Hres & Hcfg & _).
  pose proof (normalized_config _ _ _ _ url Hcfg) as Hn.
  destruct Hcfg as [_ Hub]. simpl in Hub. rewrite Hb in Hub.
  rewrite Hub in Hres. destruct Hres as (id & Hid & _).
  rewrite (http_outcome urljoin o url params c1 w1 id) by done.
  rewrite Hreply. unfold surfaced. simpl. by rewrite Hn.
Qed.

(** C10, as the code has it. On an engine that was not initialized,
    [fetch_page] is [initialize] followed by [fetch_page]. When the
    transport can be set up (always on the lightweight transport; on the
    browser transport when the driver, the browser and the context start),
    the initialization succeeds, the call proceeds as on an initialized
    engine, and afterwards the engine is initialized and refers to its
    transport (an open session, or a browser context). When the
    initialization raises, which only the start of the browser can do,
    [fetch_page] raises that exception as it is, sends no request, and
    the engine is still not initialized. *)
Theorem fetch_page_initializes o url params c w :
  _is_initialized c = false ->
  fetch_page urljoin o url params c w
  = (initialize o ≫= fun _ => fetch_page urljoin o url params) c w
  /\ (use_browser c = false \/ startup_ok o ->
      (initialize o c w).1.1 = inr tt
      /\ _is_initialized (fetch_page urljoin o url params c w).1.2 = true
      /\ if use_browser c
         then is_Some (_context (fetch_page urljoin o url params c w).1.2)
         else exists id,
                _session (fetch_page urljoin o url params c w).1.2 = Some id
                /\ id ∈ open_sessions (fetch_page urljoin o url params c w).2)
  /\ (forall e,
        (initialize o c w).1.1 = inl e ->
        use_browser c = true
        /\ (fetch_page urljoin o url params c w).1.1 = inl e
        /\ _is_initialized (fetch_page urljoin o url params c w).1.2 = false
        /\ requests (log (fetch_page urljoin o url params c w).2) = requests (log w)).
Proof.
  intros Hi. split; [apply fetch_page_after_initialize|]. split; cycle 1.
  { intros e He.
    assert (Hb : use_browser c = true).
    { destruct (use_browser c) eqn:Hb; [done|].
      destruct (initialize_http o c w Hi Hb) as [Hok _]. congruence. }
    assert (Hf : _is_initialized (initialize o c w).1.2 = false).
    { revert He. unfold initialize, _initialize_browser. run.
      rewrite Hi, Hb. simpl.
      destruct (playwright_start o); simpl; [done|].
      destruct (browser_launch o); simpl; [done|].
      destruct (new_context o); simpl; [done|].
      destruct (_cookies c); simpl; [done|].
      by destruct (add_cookies o). }
    pose proof (initialize_same_requests o c w) as Hq.
    unfold same_requests in Hq. simpl in Hq.
    rewrite fetch_page_after_initialize. unfold mbind, M_bind.
    destruct (initialize o c w) as [[[e'|[]] c1] w1]; simpl in *; [|done].
    by simplify_eq. }
  intros Hs.
  assert (Hr : ready c o) by (unfold ready; by rewrite Hi).
  destruct (fetch_page_from_ready urljoin o url params c w Hr)
    as (c1 & w1 & -> & Hi1 & Hres & Hcfg & _ & _ & Hok).
  split; [done|].
  destruct Hcfg as [_ Hub]. simpl in Hub. rewrite <- Hub.
  assert (Hsame : same_transport (c1, w1)
            ((fetch_page urljoin o url params c1 w1).1.2,
             (fetch_page urljoin o url params c1 w1).2)).
  { rewrite (fetch_page_initialized urljoin o url params c1 w1 Hi1).
    match goal with
    | |- context [try_except ?b (fun e => raise (@?f e)) ?c2 ?w2] =>
        destruct (try_except_raise_state b f c2 w2) as [-> ->];
        apply (same_transport_trans _ (c2, w2));
        [by repeat split|]
    end.
    destruct (use_browser c1);
      [apply fetch_with_browser_frame | apply fetch_with_http_frame]. }
  destruct Hsame as (Hfi & Hfb & Hfs & _ & _ & Hfx & Hfo). simpl in *.
  split; [congruence|].
  destruct (use_browser c1).
  - by rewrite Hfx.
  - destruct Hres as (id & Hid & Hopen). exists id.
    rewrite Hfs, Hfo. split; [done|]. by apply Hopen.
Qed.
End FetchTheorems.

Lemma fetch_page_raises_and_reports_nothing_witness :
  (fetch_page sample_urljoin (sample_oracle (inl timed_out))
     "https://example.com/a" None sample_engine sample_world).1.1
  = inl (Raise CrawlerException
           "Failed to fetch page https://example.com/a: timed out").
Proof.
  refine (proj1 (fetch_page_raises_and_reports_nothing sample_urljoin
                   (sample_oracle (inl timed_out)) "https://example.com/a" None
                   sample_engine sample_world timed_out _ _ _)).
  - right. repeat split.
  - reflexivity.
  - reflexivity.
Defined.

(** The engine reports nothing. With one failure of example.com on the
    books of the limiter, a fetch that fails leaves the count at 1, where
    a reported failure would make it 2, and a fetch that succeeds leaves
    it at 1 too, where a reported success would clear it. *)
Lemma fetch_page_report_counterexample :
  let failed :=
    fetch_page sample_urljoin (sample_oracle (inl timed_out))
      "https://example.com/a" None troubled_engine sample_world in
  let fetched :=
    fetch_page sample_urljoin (sample_oracle (inr (sample_response 200)))
      "https://example.com/a" None troubled_engine sample_world in
  failed.1.1 = inl (Raise CrawlerException
                      "Failed to fetch page https://example.com/a: timed out")
  /\ RateLimiter._error_counts (rate_limiter failed.1.2) !! "example.com" = Some 1
  /\ (forall ty r,
        RateLimiter._error_counts
          (DomainAwareRateLimiter.report_error troubled_limiter "example.com" ty r)
          !! "example.com"
        <> RateLimiter._error_counts (rate_limiter failed.1.2) !! "example.com")
  /\ fetched.1.1 = inr "<html>ok</html>"
  /\ RateLimiter._error_counts (rate_limiter fetched.1.2) !! "example.com" = Some 1
  /\ RateLimiter._error_counts
       (DomainAwareRateLimiter.report_success troubled_limiter "example.com")
       !! "example.com"
     <> RateLimiter._error_counts (rate_limiter fetched.1.2) !! "example.com".
Proof.
  assert (H1 : RateLimiter._error_counts
                 (rate_limiter
                    (fetch_page sample_urljoin (sample_oracle (inl timed_out))
                       "https://example.com/a" None troubled_engine sample_world).1.2)
               !! "example.com" = Some 1) by reflexivity.
  assert (H2 : RateLimiter._error_counts
                 (rate_limiter
                    (fetch_page sample_urljoin (sample_oracle (inr (sample_response 200)))
                       "https://example.com/a" None troubled_engine sample_world).1.2)
               !! "example.com" = Some 1) by reflexivity.
  cbv zeta. split; [reflexivity|]. split; [exact H1|]. split.
  { intros ty r. rewrite H1, report_error_count. discriminate. }
  split; [reflexivity|]. split; [exact H2|].
  rewrite H2. destruct (report_success_errors troubled_limiter "example.com" "example.com")
    as [-> _]. rewrite decide_True by done. discriminate.
Qed.

Lemma http_status_outcome_witness :
  (fetch_page sample_urljoin (sample_oracle (inr (sample_response 404)))
     "https://example.com/a" None sample_engine sample_world).1.1
  = inl (Raise CrawlerException
           "Failed to fetch page https://example.com/a: HTTP error 404 when fetching https://example.com/a").
Proof.
  refine (proj1 (http_status_outcome sample_urljoin
                   (sample_oracle (inr (sample_response 404)))
                   "https://example.com/a" None sample_engine sample_world
                   (sample_response 404) _ _ _)).
  - reflexivity.
  - left. reflexivity.
  - reflexivity.
Defined.

(** A response of status 204 has a 2xx status, and [fetch_page] raises
    for it instead of returning the text of its body. *)
Lemma http_2xx_counterexample :
  200 <= status (sample_response 204) < 300
  /\ (fetch_page sample_urljoin (sample_oracle (inr (sample_response 204)))
        "https://example.com/a" None sample_engine sample_world).1.1
     <> inr (text (sample_response 204))
  /\ (fetch_page sample_urljoin (sample_oracle (inr (sample_response 204)))
        "https://example.com/a" None sample_engine sample_world).1.1
     = inl (Raise CrawlerException
              "Failed to fetch page https://example.com/a: HTTP error 204 when fetching https://example.com/a").
Proof.
  split; [simpl; lia|].
  assert (H : (fetch_page sample_urljoin (sample_oracle (inr (sample_response 204)))
                 "https://example.com/a" None sample_engine sample_world).1.1
              = inl (Raise CrawlerException
                       "Failed to fetch page https://example.com/a: HTTP error 204 when fetching https://example.com/a"))
    by reflexivity.
  split; [rewrite H; discriminate | exact H].
Qed.

Lemma fetch_page_initializes_witness :
  _is_initialized
    (fetch_page sample_urljoin (sample_oracle (inr (sample_response 200)))
       "https://example.com/a" None
       (__init__ "https://example.com" false None None true) sample_world).1.2 = true.
Proof.
  refine (proj1 (proj2 (proj1 (proj2
    (fetch_page_initializes sample_urljoin
       (sample_oracle (inr (sample_response 200)))
       "https://example.com/a" None
       (__init__ "https://example.com" false None None true) sample_world _)) _))).
  - reflexivity.
  - right. repeat split.
Defined.

Lemma fetch_page_initializes_counterexample :
  (fetch_page sample_urljoin no_browser "https://example.com/a" None
     (__init__ "https://example.com" false None None true) sample_world).1.1
  = inl timed_out
  /\ _is_initialized
       (fetch_page sample_urljoin no_browser "https://example.com/a" None
          (__init__ "https://example.com" false None None true) sample_world).1.2
     = false.
Proof. split; reflexivity. Qed.



End Crawler.

(** ** Several tasks *)

Section Concurrency.
Import Tasks.

Lemma count_nonneg f ts : 0 <= count f ts.
Proof. induction ts as [|p ts IH]; simpl; [lia|]. destruct (f p); lia. Qed.

Lemma count_insert f ts i p q :
  ts !! i = Some p ->
  count f (<[i := q]> ts)
  = count f ts - (if f p then 1 else 0) + (if f q then 1 else 0).
Proof.
  revert i. induction ts as [|x ts IH]; intros [|i] H; simpl in *; try done.
  - injection H as ->. lia.
  - rewrite (IH i H). lia.
Qed.

Lemma count_le f g ts :
  (forall p, f p = true -> g p = true) -> count f ts <= count g ts.
Proof.
  intros Hfg. induction ts as [|p ts IH]; simpl; [lia|].
  specialize (Hfg p).
  destruct (f p), (g p); first [lia | discriminate (Hfg eq_refl)].
Qed.

Lemma count_fresh ts :
  Forall (fun p => fresh p = true) ts -> count holds_slot ts = 0.
Proof.
  induction 1 as [|p ts Hp _ IH]; simpl; [done|].
  rewrite IH. by destruct p.
Qed.

(** Every step keeps the account of the semaphore. *)
Lemma step_accounted s s' : step s s' -> accounted s -> accounted s'.
Proof.
  unfold accounted.
  intros Hstep [Hsum Hpos].
  destruct Hstep as [s i Hi Hfree | s i wait domain now1 u now2 Hi Hw | s i Hi
                    | s i domain now Hi | s i Hi | s i wait now1 u now2 Hi Hw
                    | s i Hi]; cbn [limiter tasks];
    rewrite (count_insert _ _ _ _ _ Hi); cbn [holds_slot];
    try (destruct (wait_semaphore wait (limiter s) domain now1 u now2 Hw) as [-> ->]);
    try (destruct (wait_semaphore wait (limiter s) None now1 u now2 Hw) as [-> ->]);
    try (destruct (release_semaphore (limiter s) domain now) as [-> ->]);
    unfold RateLimiter.set_semaphore; cbn [RateLimiter._semaphore RateLimiter.concurrent_requests];
    lia.
Qed.

Lemma reachable_accounted s s' : rtc step s s' -> accounted s -> accounted s'.
Proof. induction 1; eauto using step_accounted. Qed.

(** A [fetch_page] call stays a [fetch_page] call. *)
Lemma step_fetching s s' i :
  step s s' ->
  (exists p, tasks s !! i = Some p /\ is_fetch p = true) ->
  exists p, tasks s' !! i = Some p /\ is_fetch p = true.
Proof.
  intros Hstep (p & Hp & Hf).
  assert (Hmove : forall j old new,
            tasks s !! j = Some old -> is_fetch new = is_fetch old ->
            exists q, <[j := new]> (tasks s) !! i = Some q /\ is_fetch q = true).
  { intros j old new Hj Hnew. destruct (decide (j = i)) as [->|Hne].
    - exists new. split.
      + apply list_lookup_insert_eq. by eapply lookup_lt_Some.
      + rewrite Hnew. congruence.
    - exists p. by rewrite list_lookup_insert_ne. }
  destruct Hstep; cbn [tasks]; eapply Hmove; eauto.
Qed.

Lemma reachable_fetching s s' :
  rtc step s s' ->
  forall i, (exists p, tasks s !! i = Some p /\ is_fetch p = true) ->
            exists p, tasks s' !! i = Some p /\ is_fetch p = true.
Proof. induction 1; eauto using step_fetching. Qed.

(** [acquire] is two steps of the caller: it takes a slot, and it returns
    once [wait_for_request] has. *)
Lemma acquire_steps wait lim lim' sleeps ts i domain now1 u now2 :
  wait_method wait ->
  ts !! i = Some Acquire_called ->
  RateLimiter.acquire wait lim domain now1 u now2 = Some (lim', sleeps) ->
  rtc step (State lim ts) (State lim' (<[i := Acquire_returned]> ts)).
Proof.
  intros Hw Hi. unfold RateLimiter.acquire.
  destruct (Z.ltb_spec 0 (RateLimiter._semaphore lim)) as [Hfree|]; [|done].
  intros [= Hacq].
  eapply rtc_l; [by apply (step_semaphore_acquire (State lim ts) i)|].
  eapply rtc_l.
  { apply (step_acquire_return _ i wait domain now1 u now2); [|done]. cbn [tasks].
    apply list_lookup_insert_eq. by eapply lookup_lt_Some. }
  cbn [limiter tasks]. rewrite Hacq. cbn [fst]. rewrite list_insert_insert_eq.
  apply rtc_refl.
Qed.

(** Two [fetch_page] calls on a limiter of one slot are both in the
    transport after four steps: neither took a slot. *)
Lemma fetch_concurrency_counterexample :
  exists s,
    rtc step (init 1 0.5 1 None [Fetch_called; Fetch_called]) s
    /\ tasks s = [Fetch_transport; Fetch_transport]
    /\ RateLimiter._semaphore (limiter s) = 1
    /\ ~ count in_flight (tasks s)
          <= RateLimiter.concurrent_requests (limiter s).
Proof.
  eexists. split.
  { eapply rtc_l.
    { apply (step_fetch_initialized _ 0%nat). reflexivity. }
    eapply rtc_l.
    { apply (step_fetch_waited _ 0%nat RateLimiter.wait_for_request 0 0 0);
        [reflexivity | constructor]. }
    eapply rtc_l.
    { apply (step_fetch_initialized _ 1%nat). reflexivity. }
    eapply rtc_l.
    { apply (step_fetch_waited _ 1%nat RateLimiter.wait_for_request 0 0 0);
        [reflexivity | constructor]. }
    apply rtc_refl. }
  split; [reflexivity|]. split; [reflexivity|]. simpl. lia.
Qed.

(** C1, as the code has it. However the tasks that share a limiter of n slots
    interleave, the tasks that hold a slot taken through
    [RateLimiter.acquire] number at most n, and so do those for which
    [acquire] returned and [release] was not called yet; the semaphore
    counts exactly these tasks. A [fetch_page] call waits through
    [wait_for_request] and never takes a slot: it is not among them,
    whatever its state, and it returns or raises with the semaphore at the
    value it found. *)
Theorem acquired_slots_bounded delay jitter n overrides ts s :
  0 <= n ->
  Forall (fun p => fresh p = true) ts ->
  rtc step (init delay jitter n overrides ts) s ->
  count holds_slot (tasks s) <= n
  /\ count acquired (tasks s) <= n
  /\ RateLimiter._semaphore (limiter s) = n - count holds_slot (tasks s)
  /\ RateLimiter.concurrent_requests (limiter s) = n
  /\ (forall i, ts !! i = Some Fetch_called ->
                exists p, tasks s !! i = Some p /\ holds_slot p = false)
  /\ forall urljoin o url params c w,
       RateLimiter._semaphore
         (WebCrawler.rate_limiter (WebCrawler.fetch_page urljoin o url params c w).1.2)
       = RateLimiter._semaphore (WebCrawler.rate_limiter c).
Proof.
  intros Hn Hts Hreach.
  assert (Hinit : accounted (init delay jitter n overrides ts)).
  { unfold accounted, init. simpl. rewrite (count_fresh ts Hts). lia. }
  destruct (reachable_accounted _ _ Hreach Hinit) as [Hsum Hpos].
  assert (Hcr : RateLimiter.concurrent_requests (limiter s) = n).
  { clear Hsum Hpos Hinit.
    remember (init delay jitter n overrides ts) as s0 eqn:Hs0.
    assert (H0 : RateLimiter.concurrent_requests (limiter s0) = n) by (by subst).
    clear Hs0. induction Hreach as [|s1 s2 s3 Hstep _ IH]; [done|].
    apply IH.
    destruct Hstep as [s i Hi Hfree | s i wait domain now1 u now2 Hi Hw | s i Hi
                      | s i domain now Hi | s i Hi | s i wait now1 u now2 Hi Hw
                      | s i Hi]; cbn [limiter tasks]; try done.
    - by destruct (wait_semaphore wait (limiter s) domain now1 u now2 Hw) as [_ ->].
    - by destruct (release_semaphore (limiter s) domain now) as [_ ->].
    - by destruct (wait_semaphore wait (limiter s) None now1 u now2 Hw) as [_ ->]. }
  pose proof (count_le acquired holds_slot (tasks s)) as Hle.
  split; [lia|]. split.
  { etrans; [apply Hle; by intros []|]. lia. }
  split; [lia|]. split; [done|].
  split.
  - intros i Hi.
    destruct (reachable_fetching _ _ Hreach i) as (p & Hp & Hf).
    { exists Fetch_called. by split. }
    exists p. split; [done|]. by destruct p.
  - intros urljoin o url params c w.
    by destruct (fetch_page_books_and_requests urljoin o url params c w)
      as [(_ & _ & Hsem) _].
Qed.

Lemma acquired_slots_bounded_witness :
  count acquired
    [Acquire_returned; Acquire_called; Fetch_called] <= 1.
Proof.
  refine (proj1 (proj2
    (acquired_slots_bounded 1 0.5 1 None [Acquire_called; Acquire_called; Fetch_called]
       (State (RateLimiter.set_semaphore 0 (RateLimiter.__init__ 1 0.5 1 None))
              [Acquire_returned; Acquire_called; Fetch_called]) _ _ _))).
  - lia.
  - repeat constructor.
  - eapply rtc_l.
    { apply (step_semaphore_acquire _ 0%nat); [reflexivity | simpl; lia]. }
    eapply rtc_l.
    { apply (step_acquire_return _ 0%nat RateLimiter.wait_for_request None 0 0 0);
        [reflexivity | constructor]. }
    apply rtc_refl.
Defined.

End Concurrency.

(** ** The authentication manager *)

Section Credentials.
Import AuthManager.

Lemma some_dict_cons d creds :
  some_dict d = Some creds -> d = Some creds /\ exists kv d', creds = kv :: d'.
Proof. destruct d as [[|kv d]|]; simpl; intros H; inversion H; eauto. Qed.

(** With the keyring switched off, its entry is not read even when it
    holds credentials: the configuration file wins over it. *)
Lemma resolution_order_counterexample :
  (_get_credentials plain_manager two_sources).1.1
  = [("username", PStr "bob"); ("password", PStr "c")]
  /\ (_get_credentials plain_manager two_sources).1.1
     <> spec_resolve (credentials plain_manager) (keyring_entry two_sources)
          (config_entry two_sources) (prompted two_sources).
Proof. split; [reflexivity|]. vm_compute. discriminate. Qed.

(** C8, as the code has it. Resolution asks the cache, then the keyring when
    [secure_storage] is set (not otherwise), then the configuration file,
    then the prompt, and returns what the first of them yields; it asks
    them in that order and stops at the one that yields; it caches what it
    returns, so that every later resolution returns the same credentials
    and asks no source. *)
Theorem credentials_resolution a src :
  (_get_credentials a src).1.1
  = spec_resolve (credentials a)
      (if secure_storage a then keyring_entry src else None)
      (config_entry src) (prompted src)
  /\ credentials (_get_credentials a src).1.2 = Some (_get_credentials a src).1.1
  /\ consulted (_get_credentials a src).2 `prefix_of` source_order a
  /\ forall src',
       _get_credentials (_get_credentials a src).1.2 src'
       = ((_get_credentials a src).1.1, (_get_credentials a src).1.2, []).
Proof.
  unfold _get_credentials, spec_resolve, prompted, source_order.
  destruct (some_dict (credentials a)) as [cached|] eqn:Hc.
  { destruct (some_dict_cons _ _ Hc) as (Ha & kv & d' & ->). simpl.
    split; [done|]. split; [done|]. split; [apply prefix_nil|].
    intros src'. by rewrite Hc. }
  destruct (secure_storage a) eqn:Hs; simpl.
  - destruct (some_dict (keyring_entry src)) as [k|] eqn:Hk; simpl.
    { destruct (some_dict_cons _ _ Hk) as (_ & kv & d' & ->). simpl.
      split; [done|]. split; [done|].
      split; [by exists [ReadConfig; Prompted]|]. done. }
    destruct (some_dict (config_entry src)) as [g|] eqn:Hg; simpl.
    { destruct (some_dict_cons _ _ Hg) as (_ & kv & d' & ->). simpl.
      split; [done|]. split; [done|].
      split; [by exists [Prompted]|]. done. }
    destruct (typed_save src); simpl;
      (split; [done|]; split; [done|];
       split; [by exists []|]; done).
  - destruct (some_dict (config_entry src)) as [g|] eqn:Hg; simpl.
    { destruct (some_dict_cons _ _ Hg) as (_ & kv & d' & ->). simpl.
      split; [done|]. split; [done|].
      split; [by exists [Prompted]|]. done. }
    destruct (typed_save src); simpl;
      (split; [done|]; split; [done|];
       split; [by exists []|]; done).
Qed.

End Credentials.

Section Login.
Import WebCrawler AuthManager.

Lemma return_if_any_spec texts page result rest :
  return_if_any texts page result rest
  = if existsb (fun text => contains text page) texts then result else rest.
Proof.
  induction texts as [|text texts IH]; simpl; [done|].
  destruct (contains text page); simpl; done.
Qed.

(** The check fails exactly when a failure phrase is found; the success
    phrases do not change its verdict. *)
Lemma verify_login_spec html :
  _verify_login_success_html html = negb (mentions failure_texts html).
Proof.
  unfold _verify_login_success_html, mentions. rewrite !return_if_any_spec.
  destruct (existsb _ failure_texts); [done|].
  by destruct (existsb _ success_indicators).
Qed.

Section Exchange.
Variable _extract_csrf_token : string -> option string.

Lemma authenticate_after_initialize o x login_url form_selectors credentials c w :
  _authenticate_with_http _extract_csrf_token o x login_url form_selectors credentials c w
  = (initialize o ≫= fun _ =>
       _authenticate_with_http _extract_csrf_token o x login_url form_selectors
         credentials) c w.
Proof.
  unfold _authenticate_with_http at 1. cbv [mbind M_bind self]. cbv beta.
  destruct (_is_initialized c) eqn:Hi; simpl.
  - rewrite (initialize_noop o c w Hi).
    unfold _authenticate_with_http. cbv [mbind M_bind self]. by rewrite Hi.
  - pose proof (initialize_flag o c w) as Hf.
    destruct (initialize o c w) as [[[e|[]] c1] w1]; simpl in *; [done|].
    unfold _authenticate_with_http. cbv [mbind M_bind self]. by rewrite Hf.
Qed.

(** The outcome of the exchange on an initialized engine, once the login
    page was served and the form was answered. *)
Lemma authenticate_initialized o x login_url form_selectors credentials c w page response :
  _is_initialized c = true ->
  login_page x = inr page ->
  login_reply x = inr response ->
  (_authenticate_with_http _extract_csrf_token o x login_url form_selectors
     credentials c w).1.1
  = (if bool_decide (status response ∈ [200; 301; 302; 303]) then
       if _verify_login_success_html (text response) then inr (next_id w)
       else inl (Raise AuthenticationException
                   "Authentication failed: Login failed - verification check did not pass")
     else inl (Raise AuthenticationException
                 ("Authentication failed: " +:+ "Login failed with status code "
                  +:+ str_int (status response))))
  /\ (bool_decide (status response ∈ [200; 301; 302; 303])
      && _verify_login_success_html (text response) = true ->
      next_id w ∈ open_sessions
        (_authenticate_with_http _extract_csrf_token o x login_url form_selectors
           credentials c w).2
      /\ _cookies (_authenticate_with_http _extract_csrf_token o x login_url
                     form_selectors credentials c w).1.2
         = map (fun nc => cookie_of nc.1 nc.2) (cookies response)).
Proof.
  intros Hi Hp Hr. unfold _authenticate_with_http.
  cbv [mbind M_bind self mret M_ret try_except new_session emit raise update
       close_session].
  rewrite Hi. simpl. rewrite Hp, Hr. simpl.
  destruct (bool_decide (status response ∈ [200; 301; 302; 303])); simpl.
  - destruct (_verify_login_success_html (text response)); simpl.
    + split; [done|]. intros _. split; [set_solver | done].
    + split; [done|]. intros [=].
  - split; [done|]. intros [=].
Qed.
End Exchange.

Section Negotiation.
Variable _extract_csrf_token : string -> option string.

Lemma authenticate_from_ready o x login_url form_selectors credentials c w :
  _is_initialized c = true \/ use_browser c = false ->
  exists c1 w1,
    _authenticate_with_http _extract_csrf_token o x login_url form_selectors
      credentials c w
    = _authenticate_with_http _extract_csrf_token o x login_url form_selectors
        credentials c1 w1
    /\ _is_initialized c1 = true.
Proof.
  intros Hr. destruct (_is_initialized c) eqn:Hi.
  - by exists c, w.
  - destruct Hr as [|Hb]; [done|].
    rewrite authenticate_after_initialize. unfold mbind, M_bind.
    destruct (initialize_http o c w Hi Hb) as [Hok _].
    pose proof (initialize_flag o c w) as Hf.
    destruct (initialize o c w) as [[[e|[]] c1] w1]; simpl in *; [done|].
    exists c1, w1. split; [done|]. by apply Hf.
Qed.

(** C6, as the code has it. Once the login page was served and the form was
    answered: the check of the body fails exactly when a failure phrase
    is found, whatever the success phrases; a body with a failure phrase
    makes the negotiation raise [AuthenticationException]; a body
    without one, with or without a success phrase, makes it return an
    open session provided the status of the answer is 200, 301, 302 or
    303; with any other status it raises [AuthenticationException]
    whatever the body says. *)
Theorem login_classification o x login_url form_selectors credentials c w page response :
  _is_initialized c = true \/ use_browser c = false ->
  login_page x = inr page ->
  login_reply x = inr response ->
  _verify_login_success_html (text response)
  = negb (mentions failure_texts (text response))
  /\ (mentions failure_texts (text response) = true ->
      exists msg,
        (_authenticate_with_http _extract_csrf_token o x login_url form_selectors
           credentials c w).1.1
        = inl (Raise AuthenticationException msg))
  /\ (mentions failure_texts (text response) = false ->
      status response ∈ [200; 301; 302; 303] ->
      exists session,
        (_authenticate_with_http _extract_csrf_token o x login_url form_selectors
           credentials c w).1.1 = inr session
        /\ session ∈ open_sessions
             (_authenticate_with_http _extract_csrf_token o x login_url
                form_selectors credentials c w).2)
  /\ (status response ∉ [200; 301; 302; 303] ->
      exists msg,
        (_authenticate_with_http _extract_csrf_token o x login_url form_selectors
           credentials c w).1.1
        = inl (Raise AuthenticationException msg)).
Proof.
  intros Hr Hp Hl. split; [apply verify_login_spec|].
  destruct (authenticate_from_ready o x login_url form_selectors credentials c w Hr)
    as (c1 & w1 & -> & Hi).
  destruct (authenticate_initialized _extract_csrf_token o x login_url form_selectors
              credentials c1 w1 page response Hi Hp Hl) as [Hout Hopen].
  rewrite verify_login_spec in Hout, Hopen.
  split; [|split].
  - intros Hm. rewrite Hm in Hout. simpl in Hout. rewrite Hout.
    destruct (bool_decide _); eauto.
  - intros Hm Hst. rewrite Hm in Hout, Hopen. simpl in *.
    rewrite bool_decide_eq_true_2 in Hout, Hopen by done.
    exists (next_id w1). split; [done|]. by apply Hopen.
  - intros Hst. rewrite bool_decide_eq_false_2 in Hout by done. eauto.
Qed.
End Negotiation.

Lemma login_classification_witness :
  exists session,
    (_authenticate_with_http no_csrf_token (sample_oracle (inl timed_out))
       (sample_exchange 200 "<a href=/logout>Logout</a>")
       "https://example.com/login" sample_selectors sample_credentials
       sample_engine sample_world).1.1 = inr session
    /\ session ∈ open_sessions
         (_authenticate_with_http no_csrf_token (sample_oracle (inl timed_out))
            (sample_exchange 200 "<a href=/logout>Logout</a>")
            "https://example.com/login" sample_selectors sample_credentials
            sample_engine sample_world).2.
Proof.
  refine (proj1 (proj2 (proj2
    (login_classification no_csrf_token (sample_oracle (inl timed_out))
       (sample_exchange 200 "<a href=/logout>Logout</a>")
       "https://example.com/login" sample_selectors sample_credentials
       sample_engine sample_world (sample_response 200)
       {| status := 200; cookies := []; text := "<a href=/logout>Logout</a>" |}
       _ _ _))) _ _).
  - right. reflexivity.
  - reflexivity.
  - reflexivity.
  - reflexivity.
  - simpl. set_solver.
Defined.

(** An answer of status 500 whose body holds a success phrase and no
    failure phrase: the negotiation raises. *)
Lemma login_status_counterexample :
  mentions failure_texts "<a href=/logout>Logout</a>" = false
  /\ mentions success_indicators "<a href=/logout>Logout</a>" = true
  /\ (_authenticate_with_http no_csrf_token (sample_oracle (inl timed_out))
        (sample_exchange 500 "<a href=/logout>Logout</a>")
        "https://example.com/login" sample_selectors sample_credentials
        sample_engine sample_world).1.1
     = inl (Raise AuthenticationException
              "Authentication failed: Login failed with status code 500")
  /\ ~ exists session,
        (_authenticate_with_http no_csrf_token (sample_oracle (inl timed_out))
           (sample_exchange 500 "<a href=/logout>Logout</a>")
           "https://example.com/login" sample_selectors sample_credentials
           sample_engine sample_world).1.1 = inr session.
Proof.
  assert (H : (_authenticate_with_http no_csrf_token (sample_oracle (inl timed_out))
                 (sample_exchange 500 "<a href=/logout>Logout</a>")
                 "https://example.com/login" sample_selectors sample_credentials
                 sample_engine sample_world).1.1
              = inl (Raise AuthenticationException
                       "Authentication failed: Login failed with status code 500"))
    by (vm_compute; reflexivity).
  split; [reflexivity|]. split; [reflexivity|]. split; [exact H|].
  intros [session Hs]. rewrite H in Hs. discriminate.
Qed.

End Login.

(** * Further properties *)

(** ** Pacing *)

Section Pacing.
Import RateLimiter DomainAwareRateLimiter.

Lemma Qltb_true a b : Qltb a b = true -> (a < b)%Q.
Proof.
  unfold Qltb. intros H. apply negb_true_iff in H.
  destruct (Qlt_le_dec a b) as [Hlt|Hle]; [done|].
  apply Qle_bool_iff in Hle. congruence.
Qed.

Lemma Qltb_false a b : Qltb a b = false -> (b <= a)%Q.
Proof.
  unfold Qltb. intros H. apply negb_false_iff in H. by apply Qle_bool_iff.
Qed.

(** X1. Two requests to a domain that is already active start at least
    the delay of the domain minus the jitter apart, once the clock has
    moved by the time slept: the new timestamp is at least the old one
    plus the delay minus the jitter. *)
Theorem wait_for_domain_spacing s d now1 u now2 :
  (0 <= jitter s)%Q ->
  (- jitter s <= u)%Q ->
  d ∈ _active_domains s ->
  (now1 + total_sleep (_wait_for_domain s d now1 u now2).2 <= now2)%Q ->
  (default 0 (_last_request_time s !! d) + domain_delay s d - jitter s <= now2)%Q
  /\ _last_request_time (_wait_for_domain s d now1 u now2).1 !! d = Some now2.
Proof.
  intros Hj Hu Hact Hclock. split.
  - unfold _wait_for_domain in Hclock. simpl in Hclock.
    rewrite (bool_decide_eq_true_2 _ Hact), andb_true_r in Hclock.
    set (last := default 0%Q (_last_request_time s !! d)) in *.
    destruct (Qltb (now1 - last) (domain_delay s d)) eqn:Hlt; simpl in Hclock.
    + pose proof (Q.le_max_r 0 (domain_delay s d - (now1 - last) + u)). lra.
    + apply Qltb_false in Hlt. lra.
  - unfold _wait_for_domain. simpl. by simplify_map_eq.
Qed.

Lemma wait_for_domain_spacing_witness :
  (default 0 (_last_request_time
                (_wait_for_domain (__init__ 1 0 1 None) "example.com" 100 0 100).1
              !! "example.com")
   + domain_delay (_wait_for_domain (__init__ 1 0 1 None) "example.com" 100 0 100).1
       "example.com"
   - jitter (_wait_for_domain (__init__ 1 0 1 None) "example.com" 100 0 100).1
   <= 101)%Q.
Proof.
  refine (proj1 (wait_for_domain_spacing
                   (_wait_for_domain (__init__ 1 0 1 None) "example.com" 100 0 100).1
                   "example.com" (1002 # 10) 0 101 _ _ _ _)).
  - vm_compute. discriminate.
  - vm_compute. discriminate.
  - vm_compute. set_solver.
  - vm_compute. discriminate.
Defined.

(** X2. A request to a domain sleeps at most once and never for a negative
    time; it does not sleep at all when the domain is not active yet (its
    first request) or when the delay of the domain has passed since its
    last request; and when the clock is not before that last request and
    the draw is within the jitter, it sleeps at most the delay plus the
    jitter. *)
Theorem wait_for_domain_sleep s d now1 u now2 :
  (u <= jitter s)%Q ->
  (default 0 (_last_request_time s !! d) <= now1)%Q ->
  (d ∉ _active_domains s -> (_wait_for_domain s d now1 u now2).2 = [])
  /\ ((domain_delay s d <= now1 - default 0 (_last_request_time s !! d))%Q ->
      (_wait_for_domain s d now1 u now2).2 = [])
  /\ (length (_wait_for_domain s d now1 u now2).2 <= 1)%nat
  /\ (0 <= total_sleep (_wait_for_domain s d now1 u now2).2)%Q
  /\ (total_sleep (_wait_for_domain s d now1 u now2).2
      <= Qmax 0 (domain_delay s d + jitter s))%Q.
Proof.
  intros Hu Hclock. unfold _wait_for_domain. simpl.
  set (last := default 0%Q (_last_request_time s !! d)) in *.
  split; [|split; [|split; [|split]]].
  - intros Hact. by rewrite (bool_decide_eq_false_2 _ Hact), andb_false_r.
  - intros Hpassed.
    destruct (Qltb (now1 - last) (domain_delay s d)) eqn:Hlt; [|done].
    apply Qltb_true in Hlt. lra.
  - destruct (_ && _); simpl; lia.
  - destruct (_ && _); simpl; [|lra].
    pose proof (Q.le_max_l 0 (domain_delay s d - (now1 - last) + u)). lra.
  - pose proof (Q.le_max_l 0 (domain_delay s d + jitter s)).
    destruct (_ && _); simpl; [|lra].
    ring_simplify (Qmax 0 (domain_delay s d - (now1 - last) + u) + 0)%Q.
    apply Q.max_lub; [done|].
    eapply Qle_trans; [|apply Q.le_max_r]. lra.
Qed.

Lemma wait_for_domain_sleep_witness :
  (_wait_for_domain (__init__ 1 (1 # 2) 1 None) "example.com" 100 0 100).2 = [].
Proof.
  refine (proj1 (wait_for_domain_sleep (__init__ 1 (1 # 2) 1 None) "example.com"
                   100 0 100 _ _) _).
  - vm_compute. discriminate.
  - vm_compute. discriminate.
  - vm_compute. set_solver.
Defined.

End Pacing.

(** ** Slots, counts and books *)

Section Books.
Import RateLimiter DomainAwareRateLimiter.

(** X3. [async with limiter] paces without a domain. Once it is
    entered it has slept exactly once, for the jittered base delay,
    whatever delays are configured for domains and whatever backoff a
    domain is in, for the domain-aware class as for the base class; and
    entering and leaving it stamps no domain, marks none active, counts
    no request and leaves the error counts and the backoff delays as they
    were. *)
Theorem context_manager_paces_without_domain wait s now1 u now2 now s1 sleeps :
  Tasks.wait_method wait ->
  __aenter__ wait s now1 u now2 = Some (s1, sleeps) ->
  sleeps = [Qmax 0 (delay s + u)]
  /\ _last_request_time (__aexit__ s1 now) = _last_request_time s
  /\ _active_domains (__aexit__ s1 now) = _active_domains s
  /\ _request_counts (__aexit__ s1 now) = _request_counts s
  /\ _error_counts (__aexit__ s1 now) = _error_counts s
  /\ _backoff_delays (__aexit__ s1 now) = _backoff_delays s.
Proof.
  intros Hw. unfold __aenter__, __aexit__, acquire.
  destruct (0 <? _semaphore s); [|done].
  assert (Hnone : wait (set_semaphore (_semaphore s - 1) s) None now1 u now2
                  = (set_semaphore (_semaphore s - 1) s, [Qmax 0 (delay s + u)]))
    by (by destruct Hw).
  rewrite Hnone. intros [= <- <-]. done.
Qed.

Lemma context_manager_paces_without_domain_witness :
  _backoff_delays
    (__aexit__ (set_semaphore (_semaphore troubled_limiter - 1) troubled_limiter) 5)
  = _backoff_delays troubled_limiter.
Proof.
  exact (proj2 (proj2 (proj2 (proj2 (proj2
           (context_manager_paces_without_domain
              DomainAwareRateLimiter.wait_for_request troubled_limiter 0 0.25 1 5
              (set_semaphore (_semaphore troubled_limiter - 1) troubled_limiter)
              [Qmax 0 (delay troubled_limiter + 0.25)]
              Tasks.wait_domain_aware eq_refl)))))).
Defined.

(** What one request does to the request counts. *)
Lemma wait_request_counts s domain now1 u now2 d :
  _request_counts (DomainAwareRateLimiter.wait_for_request s domain now1 u now2).1 !! d
  = if truthy domain && bool_decide (domain = Some d)
    then Some (default 0 (_request_counts s !! d) + 1)
    else _request_counts s !! d.
Proof.
  unfold DomainAwareRateLimiter.wait_for_request, RateLimiter.wait_for_request.
  destruct domain as [d0|]; [|done].
  destruct (truthy (Some d0)) eqn:Ht; simpl; [|done].
  destruct (decide (d0 = d)) as [->|Hne].
  - rewrite bool_decide_eq_true_2 by done. by simplify_map_eq.
  - rewrite bool_decide_eq_false_2 by congruence. by simplify_map_eq.
Qed.

(** X4. The subclass counts the requests of each domain: a run of requests
    to a (non-empty) domain adds the length of the run to the count of that
    domain and leaves the counts of the other domains alone; requests
    without a domain are not counted. *)
Theorem request_counts_count s d calls :
  d <> "" ->
  default 0 (_request_counts (wait_for_requests s (Some d) calls) !! d)
  = default 0 (_request_counts s !! d) + Z.of_nat (length calls)
  /\ (forall d', d' <> d ->
        _request_counts (wait_for_requests s (Some d) calls) !! d'
        = _request_counts s !! d')
  /\ _request_counts (wait_for_requests s None calls) = _request_counts s.
Proof.
  intros Hd.
  assert (Ht : truthy (Some d) = true).
  { simpl. destruct (String.eqb_spec d ""); done. }
  split; [|split].
  - revert s. induction calls as [|[[now1 u] now2] calls IH]; intros s.
    + simpl. lia.
    + cbn [wait_for_requests length]. rewrite IH, wait_request_counts, Ht.
      rewrite bool_decide_eq_true_2 by done. simpl. lia.
  - intros d' Hne. revert s.
    induction calls as [|[[now1 u] now2] calls IH]; intros s; [done|].
    cbn [wait_for_requests]. rewrite IH, wait_request_counts, Ht.
    by rewrite bool_decide_eq_false_2 by congruence.
  - revert s. induction calls as [|[[now1 u] now2] calls IH]; intros s; [done|].
    cbn [wait_for_requests]. by rewrite IH.
Qed.

Lemma request_counts_count_witness :
  default 0 (_request_counts
               (wait_for_requests (__init__ 1 0 1 None) (Some "example.com")
                  [(0, 0, 0); (1, 0, 1); (2, 0, 2)]%Q) !! "example.com")
  = default 0 (_request_counts (__init__ 1 0 1 None) !! "example.com") + 3.
Proof.
  refine (proj1 (request_counts_count (__init__ 1 0 1 None) "example.com"
                   [(0, 0, 0); (1, 0, 1); (2, 0, 2)]%Q _)).
  discriminate.
Defined.

Lemma report_error_pacing s d ty r : same_pacing s (report_error s d ty r).
Proof.
  unfold same_pacing, report_error.
  destruct (3 <=? _); [destruct (10 <=? _)|]; simpl; by repeat split.
Qed.

Lemma report_success_pacing s d : same_pacing s (report_success s d).
Proof.
  unfold same_pacing, report_success.
  destruct (_error_counts s !! d); simpl;
    destruct (_backoff_delays s !! d); by repeat split.
Qed.

(** X5. Reporting a failure or a success for one domain leaves the error
    count and the backoff of every other domain as they were, and changes
    nothing else in the limiter: not its configuration, its semaphore, its
    timestamps, its active domains or its request counts. *)
Theorem reports_concern_one_domain s d d' ty r :
  d <> d' ->
  _error_counts (report_error s d ty r) !! d' = _error_counts s !! d'
  /\ _backoff_delays (report_error s d ty r) !! d' = _backoff_delays s !! d'
  /\ _error_counts (report_success s d) !! d' = _error_counts s !! d'
  /\ _backoff_delays (report_success s d) !! d' = _backoff_delays s !! d'
  /\ same_pacing s (report_error s d ty r)
  /\ same_pacing s (report_success s d).
Proof.
  intros Hne.
  destruct (report_error_other s d ty r d' Hne) as [-> ->].
  destruct (report_success_errors s d d') as [-> ->].
  rewrite !decide_False by done.
  split; [done|]. split; [done|]. split; [done|]. split; [done|].
  split; [apply report_error_pacing | apply report_success_pacing].
Qed.

Lemma reports_concern_one_domain_witness :
  _error_counts (report_error troubled_limiter "other.org" "general" 1) !! "example.com"
  = _error_counts troubled_limiter !! "example.com".
Proof.
  refine (proj1 (reports_concern_one_domain troubled_limiter "other.org" "example.com"
                   "general" 1 _)).
  discriminate.
Defined.

(** X6. In every state a limiter can reach, a domain has a backoff exactly
    when its count of consecutive errors is 3 or more; a recorded count is
    at least 1 and a recorded backoff lies between 1.6 and 3600 seconds. *)
Theorem reachable_backoff_bounds s d :
  reachable s ->
  (is_Some (_backoff_delays s !! d)
   <-> exists c, _error_counts s !! d = Some c /\ 3 <= c)
  /\ (forall c, _error_counts s !! d = Some c -> 1 <= c)
  /\ (forall b, _backoff_delays s !! d = Some b -> (1.6 <= b)%Q /\ (b <= 3600)%Q).
Proof.
  intros Hs. pose proof (reachable_fits s Hs d) as Hfit. unfold fits in Hfit.
  destruct (_error_counts s !! d) as [c|].
  - destruct Hfit as [Hpos Hfit].
    destruct (Z.ltb_spec c 3).
    { rewrite Hfit. split; [|split].
      - split; [by intros [? ?] | intros (c' & [= <-] & ?); lia].
      - by intros c' [= <-].
      - done. }
    destruct (Z.ltb_spec c 10).
    + destruct Hfit as (b & -> & Hb1 & Hb2). split; [|split].
      * split; [intros _; exists c; by split | by eexists].
      * by intros c' [= <-].
      * intros b' [= <-].
        assert (Hp : (2 <= inject_Z (2 ^ (c - 2)))%Q /\ (inject_Z (2 ^ (c - 2)) <= 128)%Q).
        { assert (Hc : c = 3 \/ c = 4 \/ c = 5 \/ c = 6 \/ c = 7 \/ c = 8 \/ c = 9) by lia.
          destruct Hc as [->|[->|[->|[->|[->|[->| ->]]]]]];
            split; vm_compute; discriminate. }
        set (p := inject_Z (2 ^ (c - 2))) in *. split; lra.
    + rewrite Hfit. split; [|split].
      * split; [intros _; exists c; by split | by eexists].
      * by intros c' [= <-].
      * intros b' [= <-]. split; unfold Qle; simpl; lia.
  - rewrite Hfit. split; [|split]; try done.
    split; [by intros [? ?] | by intros (c' & ? & ?)].
Qed.

Lemma reachable_backoff_bounds_witness :
  is_Some (_backoff_delays
             (report_errors (__init__ 1 0.5 1 None) "example.com" [1; 1; 1]%Q)
           !! "example.com")
  <-> exists c,
        _error_counts (report_errors (__init__ 1 0.5 1 None) "example.com" [1; 1; 1]%Q)
        !! "example.com" = Some c /\ 3 <= c.
Proof.
  refine (proj1 (reachable_backoff_bounds
                   (report_errors (__init__ 1 0.5 1 None) "example.com" [1; 1; 1]%Q)
                   "example.com" _)).
  apply report_errors_reachable; [constructor|].
  repeat constructor; unfold Qle; simpl; lia.
Defined.

(** X7. The error count of a domain is the number of failures reported for
    it since its last success: a run of failures adds its length to the
    count, a success followed by a run of failures leaves the length of the
    run, and the first two failures after a success record no backoff. *)
Theorem error_count_counts_failures s d draws :
  default 0 (_error_counts (report_errors s d draws) !! d)
  = default 0 (_error_counts s !! d) + Z.of_nat (length draws)
  /\ default 0 (_error_counts (report_errors (report_success s d) d draws) !! d)
     = Z.of_nat (length draws)
  /\ _backoff_delays (report_errors (report_success s d) d (take 2 draws)) !! d
     = None.
Proof.
  assert (Hcount : forall s,
    default 0 (_error_counts (report_errors s d draws) !! d)
    = default 0 (_error_counts s !! d) + Z.of_nat (length draws)).
  { clear s. induction draws as [|r draws IH]; intros s.
    - simpl. lia.
    - cbn [report_errors length]. rewrite IH, report_error_count. simpl. lia. }
  destruct (report_success_errors s d d) as [He Hb].
  rewrite decide_True in He by done. rewrite decide_True in Hb by done.
  split; [apply Hcount|]. split.
  - rewrite Hcount, He. simpl. lia.
  - assert (Hgen : forall run s,
      default 0 (_error_counts s !! d) + Z.of_nat (length run) < 3 ->
      _backoff_delays s !! d = None ->
      _backoff_delays (report_errors s d run) !! d = None).
    { clear. induction run as [|r run IH]; intros s Hlt Hnone; [done|].
      cbn [report_errors]. cbn [length] in Hlt. apply IH.
      - rewrite report_error_count. simpl. lia.
      - rewrite report_error_backoff. cbv zeta.
        destruct (Z.leb_spec 3 (default 0 (_error_counts s !! d) + 1)); [lia|done]. }
    apply Hgen; [|done]. rewrite He. simpl.
    pose proof (length_take_le draws 2). rewrite length_take. lia.
Qed.

End Books.

(** ** Fetching, sessions and cookies *)

Section Sessions.
Import WebCrawler.

Ltac run :=
  cbv [mbind M_bind mret M_ret self the_world update emit fresh await raise
       try_except try_finally new_session close_session].

Ltac frame R_refl R_trans tac :=
  repeat first
    [ apply (preserves_bind _ R_trans); [|intros ?]
    | apply (preserves_try_except _ R_trans); [|intros ?]
    | apply (preserves_try_finally _ R_trans)
    | apply (preserves_ret _ R_refl)
    | apply (preserves_raise _ R_refl)
    | apply (preserves_await _ R_refl)
    | apply (preserves_self _ R_refl)
    | apply (preserves_the_world _ R_refl)
    | match goal with
      | |- preserves _ (if ?b then _ else _) => destruct b
      | |- preserves _ (match ?x with _ => _ end) => destruct x
      end
    | solve [tac] ].

Lemma same_limiter_refl x : same_limiter x x.
Proof. done. Qed.

Lemma same_limiter_trans x y z : same_limiter x y -> same_limiter y z -> same_limiter x z.
Proof. unfold same_limiter. congruence. Qed.

Lemma same_cookies_refl x : same_cookies x x.
Proof. done. Qed.

Lemma same_cookies_trans x y z : same_cookies x y -> same_cookies y z -> same_cookies x z.
Proof. unfold same_cookies. congruence. Qed.

Lemma same_pages_refl x : same_pages x x.
Proof. done. Qed.

Lemma same_pages_trans x y z : same_pages x y -> same_pages y z -> same_pages x z.
Proof. unfold same_pages. congruence. Qed.

Lemma pages_open_app l1 l2 : pages_open (l1 ++ l2) = pages_open l1 + pages_open l2.
Proof.
  induction l1 as [|ev l1 IH]; simpl; [lia|].
  destruct ev; rewrite ?IH; lia.
Qed.

Lemma pages_open_slept sleeps : pages_open (map Slept sleeps) = 0.
Proof. induction sleeps; simpl; done. Qed.

(** A wait without a domain returns the limiter it was given, for either
    class, and sleeps once. *)
Lemma wait_without_domain (lc : limiter_class) s now1 u now2 :
  match lc with
  | Base => RateLimiter.wait_for_request
  | DomainAware => DomainAwareRateLimiter.wait_for_request
  end s None now1 u now2
  = (s, [Qmax 0 (RateLimiter.delay s + u)]).
Proof. by destruct lc. Qed.

Lemma with_rate_limiter_same c : with_rate_limiter (rate_limiter c) c = c.
Proof. by destruct c. Qed.

(** Where [fetch_page] stands once it has waited. *)
Lemma after_wait_spec o c w :
  after_wait o c w
  = (c, World (next_id w) (open_sessions w)
          (log w ++ [Slept (Qmax 0 (RateLimiter.delay (rate_limiter c) + jitter_draw o))])).
Proof.
  unfold after_wait. cbv zeta. rewrite wait_without_domain. simpl.
  by rewrite with_rate_limiter_same.
Qed.

Section Fetching.
Variable urljoin : string -> string -> string.

(** X8. A lightweight engine that holds an open session, initialized or
    not, fetches on that session: [fetch_page] creates no session, sleeps
    once for the jittered delay of the limiter, then sends one GET for the
    normalized address on the session it holds, whatever the reply; the
    engine keeps the session and ends initialized. *)
Theorem fetch_page_on_held_session o url params c w sid :
  use_browser c = false ->
  _session c = Some sid ->
  sid ∈ open_sessions w ->
  log (fetch_page urljoin o url params c w).2
  = log w ++ [Slept (Qmax 0 (RateLimiter.delay (rate_limiter c) + jitter_draw o));
              HttpGet sid (normalized urljoin c url) params]
  /\ next_id (fetch_page urljoin o url params c w).2 = next_id w
  /\ open_sessions (fetch_page urljoin o url params c w).2 = open_sessions w
  /\ _session (fetch_page urljoin o url params c w).1.2 = Some sid
  /\ _is_initialized (fetch_page urljoin o url params c w).1.2 = true.
Proof.
  intros Hb Hs Hopen.
  assert (Hinit : forall c, use_browser c = false -> _session c = Some sid ->
            _is_initialized c = true ->
            log (fetch_page urljoin o url params c w).2
            = log w ++ [Slept (Qmax 0 (RateLimiter.delay (rate_limiter c) + jitter_draw o));
                        HttpGet sid (normalized urljoin c url) params]
            /\ next_id (fetch_page urljoin o url params c w).2 = next_id w
            /\ open_sessions (fetch_page urljoin o url params c w).2 = open_sessions w
            /\ _session (fetch_page urljoin o url params c w).1.2 = Some sid
            /\ _is_initialized (fetch_page urljoin o url params c w).1.2 = true).
  { clear c Hb Hs. intros c Hb Hs Hi.
    rewrite (fetch_page_initialized urljoin o url params c w Hi), after_wait_spec, Hb.
    unfold try_except, _fetch_with_http. run. simpl. rewrite Hs. simpl.
    destruct (http_reply o) as [e|response]; simpl.
    - destruct (unread_response o); simpl;
        destruct (is_Exception e); simpl; by rewrite <- app_assoc.
    - destruct (status response =? 200); simpl; by rewrite <- app_assoc. }
  destruct (_is_initialized c) eqn:Hi; [by apply Hinit|].
  rewrite fetch_page_after_initialize. unfold mbind, M_bind.
  assert (Hrun : initialize o c w = (inr tt, with_is_initialized true c, w)).
  { unfold initialize, _initialize_session, no_open_session. run.
    rewrite Hi, Hb, Hs. simpl. by rewrite (bool_decide_eq_true_2 _ Hopen). }
  rewrite Hrun.
  destruct (Hinit (with_is_initialized true c)) as (H1 & H2 & H3 & H4 & H5); try done.
Qed.

End Fetching.

Lemma fetch_page_on_held_session_witness :
  _session
    (fetch_page sample_urljoin (sample_oracle (inr (sample_response 200)))
       "https://example.com/a" None (with_session (Some 7%nat) sample_engine)
       (World 8 {[7%nat]} [])).1.2
  = Some 7%nat.
Proof.
  refine (proj1 (proj2 (proj2 (proj2
    (fetch_page_on_held_session sample_urljoin
       (sample_oracle (inr (sample_response 200))) "https://example.com/a" None
       (with_session (Some 7%nat) sample_engine) (World 8 {[7%nat]} []) 7%nat _ _ _))))).
  - reflexivity.
  - reflexivity.
  - simpl. set_solver.
Defined.

Lemma initialize_same_limiter o : preserves same_limiter (initialize o).
Proof.
  unfold initialize, _initialize_browser, _initialize_session.
  frame same_limiter_refl same_limiter_trans ltac:(intros c w; done).
Qed.

Lemma initialize_same_cookies o : preserves same_cookies (initialize o).
Proof.
  unfold initialize, _initialize_browser, _initialize_session.
  frame same_cookies_refl same_cookies_trans ltac:(intros c w; done).
Qed.

Lemma initialize_same_pages o : preserves same_pages (initialize o).
Proof.
  unfold initialize, _initialize_browser, _initialize_session.
  frame same_pages_refl same_pages_trans
    ltac:(intros c w; unfold same_pages; run; simpl;
          rewrite ?pages_open_app; simpl; lia).
Qed.

Lemma fetch_with_http_limiter o url params :
  preserves same_limiter (_fetch_with_http o url params).
Proof.
  unfold _fetch_with_http.
  frame same_limiter_refl same_limiter_trans ltac:(intros c w; done).
Qed.

Lemma fetch_with_browser_limiter o url params :
  preserves same_limiter (_fetch_with_browser o url params).
Proof.
  unfold _fetch_with_browser.
  frame same_limiter_refl same_limiter_trans ltac:(intros c w; done).
Qed.

Lemma fetch_with_http_pages o url params :
  preserves same_pages (_fetch_with_http o url params).
Proof.
  unfold _fetch_with_http.
  frame same_pages_refl same_pages_trans
    ltac:(intros c w; unfold same_pages; run; simpl;
          rewrite ?pages_open_app; simpl; lia).
Qed.

(** The browser closes the page it opened, whatever the navigation does. *)
Lemma fetch_with_browser_pages o url params :
  preserves same_pages (_fetch_with_browser o url params).
Proof.
  intros c w. unfold same_pages, _fetch_with_browser. run. simpl.
  destruct (_context c); simpl; [|done].
  destruct (new_page o); simpl; [done|].
  destruct (page_reply o) as [e|r]; simpl;
    [destruct (unread_page o) as [[|ck cs]|]|destruct (context_cookies r)]; simpl;
    rewrite !pages_open_app; simpl; lia.
Qed.

(** The cookies a retrieval leaves in the engine. *)
Lemma fetch_with_http_cookies o url params c w :
  is_Some (_session c) ->
  _cookies (_fetch_with_http o url params c w).1.2 = http_cookies c o.
Proof.
  intros [sid Hs]. unfold _fetch_with_http, http_cookies. run. rewrite Hs. simpl.
  destruct (http_reply o) as [e|response]; simpl.
  - by destruct (unread_response o).
  - by destruct (status response =? 200).
Qed.

Lemma fetch_with_browser_cookies o url params c w :
  is_Some (_context c) ->
  _cookies (_fetch_with_browser o url params c w).1.2 = browser_cookies c o.
Proof.
  intros [ctx Hx]. unfold _fetch_with_browser, browser_cookies. run. rewrite Hx. simpl.
  destruct (new_page o); simpl; [done|].
  destruct (page_reply o) as [e|r]; simpl.
  - by destruct (unread_page o) as [[|ck cs]|].
  - by destruct (context_cookies r).
Qed.

Section Frames.
Variable urljoin : string -> string -> string.

(** The state in which [fetch_page] ends, from an initialized engine: the
    one in which the retrieval ends after the wait. *)
Lemma fetch_page_initialized_state o url params c w :
  _is_initialized c = true ->
  exists body,
    body = (if use_browser c
            then _fetch_with_browser o (normalized urljoin c url) params
            else _fetch_with_http o (normalized urljoin c url) params)
    /\ (fetch_page urljoin o url params c w).1.2
       = (body c (after_wait o c w).2).1.2
    /\ (fetch_page urljoin o url params c w).2
       = (body c (after_wait o c w).2).2.
Proof.
  intros Hi. eexists. split; [reflexivity|].
  rewrite (fetch_page_initialized urljoin o url params c w Hi).
  rewrite after_wait_spec. cbn [fst snd].
  match goal with
  | |- context [try_except ?b (fun e => raise (@?f e)) ?c1 ?w1] =>
      destruct (try_except_raise_state b f c1 w1) as [-> ->]
  end.
  done.
Qed.

(** X9. [fetch_page] never touches its limiter: whatever the transport,
    the state of the engine and the outcome, the limiter is the same
    object state after the call as before; no domain is stamped, no request
    is counted and no slot is taken. Pages are never left open either: the
    log closes every page it opens. *)
Theorem fetch_page_leaves_limiter_and_pages o url params c w :
  rate_limiter (fetch_page urljoin o url params c w).1.2 = rate_limiter c
  /\ pages_open (log (fetch_page urljoin o url params c w).2) = pages_open (log w).
Proof.
  assert (Hinit : forall c w, _is_initialized c = true ->
    rate_limiter (fetch_page urljoin o url params c w).1.2 = rate_limiter c
    /\ pages_open (log (fetch_page urljoin o url params c w).2) = pages_open (log w)).
  { clear c w. intros c w Hi.
    destruct (fetch_page_initialized_state o url params c w Hi) as (body & Hb & -> & ->).
    rewrite after_wait_spec. cbn [snd].
    set (w1 := World _ _ _).
    assert (Hl : same_limiter (c, w1) ((body c w1).1.2, (body c w1).2)).
    { subst body. destruct (use_browser c);
        [apply fetch_with_browser_limiter | apply fetch_with_http_limiter]. }
    assert (Hp : same_pages (c, w1) ((body c w1).1.2, (body c w1).2)).
    { subst body. destruct (use_browser c);
        [apply fetch_with_browser_pages | apply fetch_with_http_pages]. }
    split; [exact Hl|]. unfold same_pages in Hp. simpl in Hp. rewrite Hp.
    subst w1. simpl. rewrite pages_open_app. simpl. lia. }
  destruct (_is_initialized c) eqn:Hi; [by apply Hinit|].
  rewrite fetch_page_after_initialize. unfold mbind, M_bind.
  pose proof (initialize_same_limiter o c w) as Hl.
  pose proof (initialize_same_pages o c w) as Hp.
  pose proof (initialize_flag o c w) as Hf.
  unfold same_limiter, same_pages in Hl, Hp.
  destruct (initialize o c w) as [[[e|[]] c1] w1]; simpl in *; [done|].
  destruct (Hinit c1 w1 (Hf eq_refl)) as [-> ->]. done.
Qed.

(** X10. A fetch on a ready engine keeps the cookies it had and captures
    the new ones before it reads the page. On the lightweight transport
    the cookies of a response of status 200 are appended, in order; on the
    browser transport the cookies of the context replace them when there
    are some. This is done before the body or the content is read: a
    fetch that raises while reading them has changed the cookies all the
    same. The cookies stay as they were on a response of another status,
    on a context without cookies, and when the request or the navigation
    itself raised. *)
Theorem fetch_page_cookies o url params c w :
  ready c o ->
  _cookies (fetch_page urljoin o url params c w).1.2
  = (if use_browser c then browser_cookies c o else http_cookies c o)
  /\ (forall e received,
        use_browser c = false ->
        http_reply o = inl e -> unread_response o = Some received ->
        _cookies (fetch_page urljoin o url params c w).1.2
        = _cookies c ++ map (fun nc => cookie_of nc.1 nc.2) received)
  /\ (forall e ck cs,
        use_browser c = true -> new_page o = None ->
        page_reply o = inl e -> unread_page o = Some (ck :: cs) ->
        _cookies (fetch_page urljoin o url params c w).1.2 = ck :: cs)
  /\ (forall e,
        (if use_browser c
         then new_page o = Some e \/ (page_reply o = inl e /\ unread_page o = None)
         else http_reply o = inl e /\ unread_response o = None) ->
        _cookies (fetch_page urljoin o url params c w).1.2 = _cookies c).
Proof.
  intros Hr.
  cut (_cookies (fetch_page urljoin o url params c w).1.2
       = if use_browser c then browser_cookies c o else http_cookies c o).
  { intros ->. split; [done|]. unfold browser_cookies, http_cookies. split; [|split].
    - intros e received -> -> ->. done.
    - intros e ck cs -> -> -> ->. done.
    - intros e. destruct (use_browser c).
      + intros [->|[-> ->]]; [done|]. by destruct (new_page o).
      + by intros [-> ->]. }
  assert (Hinit : forall c w, _is_initialized c = true ->
            (if use_browser c then is_Some (_context c) else is_Some (_session c)) ->
            _cookies (fetch_page urljoin o url params c w).1.2
            = if use_browser c then browser_cookies c o else http_cookies c o).
  { clear c w Hr. intros c w Hi Hres.
    destruct (fetch_page_initialized_state o url params c w Hi) as (body & Hb & -> & _).
    subst body. destruct (use_browser c).
    - by apply fetch_with_browser_cookies.
    - by apply fetch_with_http_cookies. }
  unfold ready in Hr. destruct (_is_initialized c) eqn:Hi; [by apply Hinit|].
  pose proof (initialize_same_cookies o c w) as Hck.
  pose proof (initialize_same_config o c w) as [_ Hub].
  pose proof (initialize_flag o c w) as Hf.
  assert (Hok : (initialize o c w).1.1 = inr tt
                /\ if use_browser c
                   then is_Some (_context (initialize o c w).1.2)
                   else is_Some (_session (initialize o c w).1.2)).
  { destruct (use_browser c) eqn:Hb.
    - destruct Hr as [Hr|Hr]; [done|].
      destruct (initialize_browser o c w Hi Hb Hr) as (? & _ & _ & ?). done.
    - destruct (initialize_http o c w Hi Hb) as (? & id & -> & _). eauto. }
  rewrite fetch_page_after_initialize. unfold mbind, M_bind.
  unfold same_cookies in Hck.
  destruct (initialize o c w) as [[[e|[]] c1] w1]; simpl in *; [by destruct Hok|].
  destruct Hok as [_ Hok]. rewrite <- Hub in Hok |- *.
  rewrite (Hinit c1 w1 (Hf eq_refl) Hok).
  unfold browser_cookies, http_cookies. by rewrite Hck.
Qed.

End Frames.

Lemma fetch_page_cookies_witness :
  _cookies
    (fetch_page sample_urljoin body_timeout
       "https://example.com/a" None sample_engine sample_world).1.2
  = [cookie_of "sid" {| value := "abc"; attrs := ∅ |}].
Proof.
  refine (proj1 (proj2
    (fetch_page_cookies sample_urljoin body_timeout
       "https://example.com/a" None sample_engine sample_world _))
    timed_out _ eq_refl eq_refl eq_refl).
  left. reflexivity.
Defined.

(** The dict made for a response cookie has its name and its value. *)
Lemma cookie_of_name_value n m :
  cookie_of n m !! "name" = Some n /\ cookie_of n m !! "value" = Some (value m).
Proof. unfold cookie_of. split; by simplify_map_eq. Qed.

Lemma cookie_jar_app l1 l2 :
  cookie_jar (l1 ++ l2)
  = fold_left
      (fun jar ck =>
         match ck !! "name", ck !! "value" with
         | Some n, Some v => <[n := v]> jar
         | _, _ => jar
         end) l2 (cookie_jar l1).
Proof. unfold cookie_jar. by rewrite fold_left_app. Qed.

(** Captured cookies of other names do not change what the jar holds for a
    name. *)
Lemma jar_other_names (post : list (string * morsel)) (jar : gmap string string) n :
  n ∉ post.*1 ->
  fold_left
    (fun (jar : gmap string string) (ck : cookie) =>
       match ck !! "name", ck !! "value" with
       | Some n, Some v => <[n := v]> jar
       | _, _ => jar
       end)
    (map (fun nc => cookie_of nc.1 nc.2) post) jar !! n
  = jar !! n.
Proof.
  revert jar. induction post as [|[n' m'] post IH]; intros jar Hn; [done|].
  simpl in *. destruct (cookie_of_name_value n' m') as [-> ->].
  rewrite IH by set_solver. apply lookup_insert_ne. set_solver.
Qed.

(** X11. The cookies captured from responses come back in the next
    session: when a lightweight engine without an open session
    initializes, it creates one session whose cookie jar gives, for each
    captured name, the value of the last cookie captured under that name. *)
Theorem cookies_restored_into_session o c w prev pre n m post :
  use_browser c = false ->
  _is_initialized c = false ->
  no_open_session c w = true ->
  _cookies c = prev ++ map (fun nc => cookie_of nc.1 nc.2) (pre ++ (n, m) :: post) ->
  n ∉ post.*1 ->
  log (initialize o c w).2
  = log w ++ [SessionCreated (next_id w) (_get_headers (user_agent o) c)
                (cookie_jar (_cookies c))]
  /\ cookie_jar (_cookies c) !! n = Some (value m)
  /\ _session (initialize o c w).1.2 = Some (next_id w)
  /\ next_id w ∈ open_sessions (initialize o c w).2.
Proof.
  intros Hb Hi Hno Hck Hn.
  unfold initialize, _initialize_session. run. rewrite Hi, Hb, Hno. simpl.
  split; [done|]. split; [|split; [done | set_solver]].
  rewrite Hck, cookie_jar_app, map_app, fold_left_app. simpl.
  destruct (cookie_of_name_value n m) as [-> ->].
  rewrite jar_other_names by done. apply lookup_insert_eq.
Qed.

Lemma cookies_restored_into_session_witness :
  cookie_jar
    (_cookies
       (with_cookies
          [cookie_of "sid" {| value := "old"; attrs := ∅ |};
           cookie_of "sid" {| value := "new"; attrs := ∅ |};
           cookie_of "lang" {| value := "en"; attrs := ∅ |}] sample_engine))
  !! "sid" = Some "new".
Proof.
  refine (proj1 (proj2
    (cookies_restored_into_session (sample_oracle (inl timed_out))
       (with_cookies
          [cookie_of "sid" {| value := "old"; attrs := ∅ |};
           cookie_of "sid" {| value := "new"; attrs := ∅ |};
           cookie_of "lang" {| value := "en"; attrs := ∅ |}] sample_engine)
       sample_world [] [("sid", {| value := "old"; attrs := ∅ |})]
       "sid" {| value := "new"; attrs := ∅ |}
       [("lang", {| value := "en"; attrs := ∅ |})] _ _ _ _ _))).
  - reflexivity.
  - reflexivity.
  - reflexivity.
  - reflexivity.
  - simpl. set_solver.
Defined.

(** What [set_session] returns, spelled out. *)
Lemma set_session_spec session c w :
  set_session session c w
  = (inr tt, with_session session c,
     if no_open_session c w then w
     else match _session c with
          | Some old => World (next_id w) (open_sessions w ∖ {[old]})
                          (log w ++ [SessionClosed old])
          | None => w
          end).
Proof.
  unfold set_session, no_open_session. run.
  destruct (_session c) as [old|]; simpl; [|done].
  by destruct (bool_decide (old ∈ open_sessions w)).
Qed.

(** X12. [set_session] installs the session it is given and closes the one
    the engine held: afterwards the engine refers to the given session and,
    once the close that it schedules has run, the session it held before is
    not open, while every other session is open exactly if it was. Given
    the very session the engine holds, it leaves the engine on a closed
    session. *)
Theorem set_session_swaps session c w :
  (set_session session c w).1.1 = inr tt
  /\ _session (set_session session c w).1.2 = session
  /\ (forall old, _session c = Some old ->
                  old ∉ open_sessions (set_session session c w).2)
  /\ (forall id, _session c <> Some id ->
                 id ∈ open_sessions (set_session session c w).2
                 <-> id ∈ open_sessions w)
  /\ (forall held, _session c = Some held -> session = Some held ->
                   no_open_session (set_session session c w).1.2
                     (set_session session c w).2 = true).
Proof.
  rewrite set_session_spec. unfold no_open_session. simpl.
  split; [done|]. split; [done|].
  destruct (_session c) as [old|]; simpl.
  - destruct (bool_decide (old ∈ open_sessions w)) eqn:Hin; simpl.
    + split; [|split].
      * intros ? [= <-]. set_solver.
      * intros id Hid. assert (id <> old) by congruence. set_solver.
      * intros held [= <-] ->. rewrite bool_decide_eq_false_2; [done | set_solver].
    + apply bool_decide_eq_false in Hin. split; [|split].
      * by intros ? [= <-].
      * done.
      * intros held [= <-] ->. by rewrite bool_decide_eq_false_2.
  - split; [done|]. split; [done|]. by intros held [=].
Qed.

Lemma set_session_swaps_witness :
  no_open_session
    (set_session (Some 7%nat) (with_session (Some 7%nat) sample_engine)
       (World 8 {[7%nat]} [])).1.2
    (set_session (Some 7%nat) (with_session (Some 7%nat) sample_engine)
       (World 8 {[7%nat]} [])).2 = true.
Proof.
  refine (proj2 (proj2 (proj2 (proj2
    (set_session_swaps (Some 7%nat) (with_session (Some 7%nat) sample_engine)
       (World 8 {[7%nat]} []))))) 7%nat _ _).
  - reflexivity.
  - reflexivity.
Defined.

End Sessions.

(** ** The sessions of a login *)

Section LoginSessions.
Import WebCrawler AuthManager.

Section Accounting.
Variable _extract_csrf_token : string -> option string.

(** The sessions a login leaves open, from an initialized engine. *)
Lemma authenticate_sessions o x login_url form_selectors credentials c w :
  _is_initialized c = true ->
  fresh_ids w ->
  match (_authenticate_with_http _extract_csrf_token o x login_url form_selectors
           credentials c w).1.1 with
  | inr session =>
      session = next_id w
      /\ open_sessions
           (_authenticate_with_http _extract_csrf_token o x login_url form_selectors
              credentials c w).2 = {[session]} ∪ open_sessions w
  | inl e =>
      if is_Exception e then
        class e = AuthenticationException
        /\ open_sessions
             (_authenticate_with_http _extract_csrf_token o x login_url form_selectors
                credentials c w).2 = open_sessions w
      else
        open_sessions
          (_authenticate_with_http _extract_csrf_token o x login_url form_selectors
             credentials c w).2 = {[next_id w]} ∪ open_sessions w
  end
  /\ _session (_authenticate_with_http _extract_csrf_token o x login_url form_selectors
                credentials c w).1.2 = _session c
  /\ next_id (_authenticate_with_http _extract_csrf_token o x login_url form_selectors
               credentials c w).2 = S (next_id w).
Proof.
  intros Hi Hfresh.
  assert (Hnew : next_id w ∉ open_sessions w).
  { intros Hin. apply Hfresh in Hin. lia. }
  assert (Hclosed : ({[next_id w]} ∪ open_sessions w) ∖ {[next_id w]} = open_sessions w)
    by set_solver.
  unfold _authenticate_with_http.
  cbv [mbind M_bind self mret M_ret try_except new_session emit raise update
       close_session].
  rewrite Hi. simpl.
  destruct (login_page x) as [e|page]; simpl.
  { destruct (is_Exception e) eqn:He; simpl; rewrite ?He; by rewrite ?Hclosed. }
  destruct (login_reply x) as [e|response]; simpl.
  { destruct (is_Exception e) eqn:He; simpl; rewrite ?He; by rewrite ?Hclosed. }
  destruct (bool_decide (status response ∈ [200; 301; 302; 303])); simpl;
    [destruct (_verify_login_success_html (text response)); simpl|];
    by rewrite ?Hclosed.
Qed.

(** X13. A login on an initialized engine accounts for the session it
    creates: when it returns, it returns that new session, open; when it
    raises an [AuthenticationException] (a refused login, or any error of
    the exchange deriving from [Exception]), that session is closed and the
    open sessions are those there were; only an exception that does not
    derive from [Exception] leaves it open. The session the engine holds
    is not changed by the login. *)
Theorem login_session_accounting o x login_url form_selectors credentials c w :
  _is_initialized c = true ->
  fresh_ids w ->
  match (_authenticate_with_http _extract_csrf_token o x login_url form_selectors
           credentials c w).1.1 with
  | inr session =>
      session = next_id w
      /\ open_sessions
           (_authenticate_with_http _extract_csrf_token o x login_url form_selectors
              credentials c w).2 = {[session]} ∪ open_sessions w
  | inl e =>
      if is_Exception e then
        class e = AuthenticationException
        /\ open_sessions
             (_authenticate_with_http _extract_csrf_token o x login_url form_selectors
                credentials c w).2 = open_sessions w
      else
        open_sessions
          (_authenticate_with_http _extract_csrf_token o x login_url form_selectors
             credentials c w).2 = {[next_id w]} ∪ open_sessions w
  end
  /\ _session (_authenticate_with_http _extract_csrf_token o x login_url form_selectors
                credentials c w).1.2 = _session c.
Proof.
  intros Hi Hfresh.
  destruct (authenticate_sessions o x login_url form_selectors credentials c w Hi Hfresh)
    as (H1 & H2 & _).
  by split.
Qed.

(** X14. The login of the orchestrator leaves one session more, the
    authenticated one: on a new lightweight engine, when the login returns
    a session and [set_session] installs it, the engine holds that session,
    which is open, and the session that the engine created for itself while
    initializing has been closed, once the close that [set_session]
    schedules has run. *)
Theorem login_then_set_session o x login_url form_selectors credentials c w session :
  use_browser c = false ->
  _is_initialized c = false ->
  _session c = None ->
  fresh_ids w ->
  (_authenticate_with_http _extract_csrf_token o x login_url form_selectors
     credentials c w).1.1 = inr session ->
  _session
    (set_session (Some session)
       (_authenticate_with_http _extract_csrf_token o x login_url form_selectors
          credentials c w).1.2
       (_authenticate_with_http _extract_csrf_token o x login_url form_selectors
          credentials c w).2).1.2 = Some session
  /\ open_sessions
       (set_session (Some session)
          (_authenticate_with_http _extract_csrf_token o x login_url form_selectors
             credentials c w).1.2
          (_authenticate_with_http _extract_csrf_token o x login_url form_selectors
             credentials c w).2).2 = {[session]} ∪ open_sessions w
  /\ session = S (next_id w).
Proof.
  intros Hb Hi Hs Hfresh.
  assert (Hnew : next_id w ∉ open_sessions w).
  { intros Hin. apply Hfresh in Hin. lia. }
  rewrite authenticate_after_initialize. unfold mbind, M_bind.
  assert (Hrun : initialize o c w
                 = (inr tt,
                    with_is_initialized true (with_session (Some (next_id w)) c),
                    World (S (next_id w)) ({[next_id w]} ∪ open_sessions w)
                      (log w ++ [SessionCreated (next_id w)
                                   (_get_headers (user_agent o) c)
                                   (cookie_jar (_cookies c))]))).
  { unfold initialize, _initialize_session, no_open_session.
    cbv [mbind M_bind self the_world update new_session mret M_ret].
    by rewrite Hi, Hb, Hs. }
  rewrite Hrun.
  set (c1 := with_is_initialized true _). set (w1 := World _ _ _).
  assert (Hfresh1 : fresh_ids w1).
  { intros id Hid. subst w1. simpl in *.
    apply elem_of_union in Hid as [Hid|Hid]; [set_solver by lia|].
    apply Hfresh in Hid. lia. }
  destruct (authenticate_sessions o x login_url form_selectors credentials c1 w1
              eq_refl Hfresh1) as (Hout & Hheld & _).
  intros Hret. rewrite Hret in Hout. destruct Hout as [-> Hopen].
  rewrite set_session_spec. unfold no_open_session. rewrite Hheld. simpl.
  rewrite Hopen. simpl.
  rewrite bool_decide_eq_true_2 by set_solver. simpl.
  split; [done|]. split; [|done].
  assert (next_id w <> S (next_id w)) by lia. set_solver.
Qed.

End Accounting.

Lemma login_session_accounting_witness :
  _session
    (_authenticate_with_http no_csrf_token (sample_oracle (inl timed_out))
       (sample_exchange 200 "<a href=/logout>Logout</a>")
       "https://example.com/login" sample_selectors sample_credentials
       (with_is_initialized true (with_session (Some 0%nat) sample_engine))
       (World 1 {[0%nat]} [])).1.2
  = Some 0%nat.
Proof.
  refine (proj2
    (login_session_accounting no_csrf_token (sample_oracle (inl timed_out))
       (sample_exchange 200 "<a href=/logout>Logout</a>")
       "https://example.com/login" sample_selectors sample_credentials
       (with_is_initialized true (with_session (Some 0%nat) sample_engine))
       (World 1 {[0%nat]} []) _ _)).
  - reflexivity.
  - intros id Hid. simpl in *. apply elem_of_singleton in Hid. subst id. lia.
Defined.

Lemma login_then_set_session_witness : 1%nat = S (next_id sample_world).
Proof.
  refine (proj2 (proj2
    (login_then_set_session no_csrf_token (sample_oracle (inl timed_out))
       (sample_exchange 200 "<a href=/logout>Logout</a>")
       "https://example.com/login" sample_selectors sample_credentials
       sample_engine sample_world 1%nat _ _ _ _ _))).
  - reflexivity.
  - reflexivity.
  - reflexivity.
  - intros id Hid. simpl in Hid. set_solver.
  - vm_compute. reflexivity.
Defined.

End LoginSessions.

Section StoredCredentials.
Import AuthManager.

(** What the prompt leaves once the save flag is taken out. *)
Lemma prompt_without_save src :
  dict_del "save" (_prompt_for_credentials src)
  = [("username", PStr (typed_username src)); ("password", PStr (typed_password src))].
Proof. reflexivity. Qed.

(** A new manager that prompts, and is told to save, found nothing in the
    stores it read, and stores what was typed. *)
Lemma get_credentials_prompted key secure src :
  typed_save src = true ->
  Prompted ∈ (_get_credentials (__init__ key secure) src).2 ->
  (_get_credentials (__init__ key secure) src).2
  = (if secure then [ReadKeyring] else [])
    ++ [ReadConfig; Prompted;
        if secure
        then StoredInKeyring (dict_del "save" (_prompt_for_credentials src))
        else StoredInConfig (dict_del "save" (_prompt_for_credentials src))].
Proof.
  intros Hsave. unfold _get_credentials.
  change (some_dict (credentials (__init__ key secure))) with (@None credentials_dict).
  change (secure_storage (__init__ key secure)) with secure.
  change (dict_get "save" (_prompt_for_credentials src)) with (Some (PBool (typed_save src))).
  rewrite Hsave.
  destruct secure.
  - destruct (some_dict (keyring_entry src)); simpl.
    { intros Hin. exfalso. set_solver. }
    destruct (some_dict (config_entry src)); simpl; [|done].
    intros Hin. exfalso. set_solver.
  - simpl. destruct (some_dict (config_entry src)); simpl; [|done].
    intros Hin. exfalso. set_solver.
Qed.

Section Round.
Variable token : Type.
Variable is_empty : token -> bool.
Variable derive : string -> string -> string.
Variable seal : string -> string -> credentials_dict -> token.
Variable unseal : string -> token -> option credentials_dict.

(** X15. Credentials that the user asks to save are found again. When a
    new manager resolves its credentials by prompting and the user accepts
    saving, and the keyring and the disk do not fail (and, without secure
    storage, the credentials file is readable), a later resolution by a new
    manager of the same key on the same machine returns the username and
    the password that were typed, without the save flag, from the store the
    manager uses, and does not prompt. Fernet and JSON are assumed to
    decrypt and parse what they produced, to a token that is not empty. *)
Theorem saved_credentials_found_again key secure node nonce keyring config typed typed' :
  (forall k n d, unseal k (seal k n d) = Some d) ->
  (forall k n d, is_empty (seal k n d) = false) ->
  (secure = false -> config <> Unreadable) ->
  typed_save typed = true ->
  Prompted ∈ (_get_credentials (__init__ key secure)
                (stored_sources token is_empty derive unseal (__init__ key secure)
                   node sound_disk keyring config typed)).2 ->
  _get_credentials (__init__ key secure)
    (stored_sources token is_empty derive unseal (__init__ key secure) node sound_disk
       (after_accesses token derive seal (__init__ key secure) node nonce sound_disk
          (_get_credentials (__init__ key secure)
             (stored_sources token is_empty derive unseal (__init__ key secure)
                node sound_disk keyring config typed)).2
          (keyring, config)).1
       (after_accesses token derive seal (__init__ key secure) node nonce sound_disk
          (_get_credentials (__init__ key secure)
             (stored_sources token is_empty derive unseal (__init__ key secure)
                node sound_disk keyring config typed)).2
          (keyring, config)).2
       typed')
  = ([("username", PStr (typed_username typed));
      ("password", PStr (typed_password typed))],
     with_credentials [("username", PStr (typed_username typed));
                       ("password", PStr (typed_password typed))]
       (__init__ key secure),
     [if secure then ReadKeyring else ReadConfig]).
Proof.
  intros Hseal Hne Hcfg Hsave Hin.
  pose proof (fun H => get_credentials_prompted _ _ _ H Hin) as Hacc.
  rewrite Hacc by exact Hsave. clear Hacc Hin.
  rewrite prompt_without_save.
  unfold _get_credentials.
  change (some_dict (credentials (__init__ key secure))) with (@None credentials_dict).
  change (secure_storage (__init__ key secure)) with secure.
  destruct secure.
  - unfold after_accesses, stored_sources, _get_from_keyring, _store_in_keyring. simpl.
    by rewrite lookup_insert_eq, Hne, Hseal.
  - specialize (Hcfg eq_refl).
    unfold after_accesses, stored_sources, _store_in_config. simpl.
    destruct config as [| | |all_creds]; try done; simpl;
      by rewrite lookup_insert_eq.
Qed.

(** X16. Sites do not disturb each other in the keyring, and in the
    credentials file as long as no write breaks off. Storing the
    credentials of one key, successfully or not, does not change what the
    manager of another key reads from the keyring. It does not change what
    that manager reads from the credentials file either when the store
    succeeds, and when it fails before the file is opened for writing. But
    when the write fails once the file was opened, which empties it, the
    manager of every key, the other one included, finds nothing any more,
    whatever it found before. *)
Theorem stores_keep_other_sites a b node node' nonce credentials dk dk' keyring config :
  credentials_key a <> credentials_key b ->
  _get_from_keyring token is_empty derive unseal b node' dk'
    (_store_in_keyring token derive seal a node nonce credentials dk keyring).2
  = _get_from_keyring token is_empty derive unseal b node' dk' keyring
  /\ ((_store_in_config a credentials dk config).1 = true
      \/ makedirs_fails dk = true \/ write_fails dk = true \/ dump_fails dk = false ->
      _get_from_config b (_store_in_config a credentials dk config).2
      = _get_from_config b config)
  /\ (makedirs_fails dk = false -> write_fails dk = false -> dump_fails dk = true ->
      config <> Unreadable ->
      (_store_in_config a credentials dk config).1 = false
      /\ _get_from_config b (_store_in_config a credentials dk config).2 = None).
Proof.
  intros Hab. split; [|split].
  - unfold _get_from_keyring, _store_in_keyring.
    destruct (keyring_set_fails dk); [done|]. cbn.
    by rewrite lookup_insert_ne.
  - unfold _store_in_config.
    destruct (makedirs_fails dk); [done|].
    destruct config as [| | |all_creds]; cbn; try done;
      destruct (write_fails dk); cbn; try done;
      destruct (dump_fails dk); cbn;
      try (by rewrite lookup_insert_ne);
      intros [?|[?|[?|?]]]; done.
  - unfold _store_in_config. intros -> -> -> Hc.
    by destruct config.
Qed.
End Round.

(** X17. The flag of [_store_in_config] tells what a reader finds. When
    it returns [True] the file was usable and the manager now reads from
    it the credentials just stored, with the entries of the other keys
    kept. When it returns [False], either the store failed before the file
    was opened for writing (the directory could not be made, the file did
    not parse, or it could not be opened), and then the manager reads what
    it read before and a file that was there is left as it was; or the
    write failed once the file was opened, and then the file does not
    parse any more and the credentials of every key are lost. *)
Theorem store_in_config_flag a credentials dk config :
  if (_store_in_config a credentials dk config).1 then
    _get_from_config a (_store_in_config a credentials dk config).2 = Some credentials
    /\ config <> Unreadable
    /\ (_store_in_config a credentials dk config).2
       = File (<[credentials_key a := credentials]>
                 match config with File all_creds => all_creds | _ => ∅ end)
  else
    (makedirs_fails dk = true \/ config = Unreadable \/ write_fails dk = true ->
     _get_from_config a (_store_in_config a credentials dk config).2
     = _get_from_config a config
     /\ (forall all_creds, config = File all_creds ->
                           (_store_in_config a credentials dk config).2 = config))
    /\ (makedirs_fails dk = false -> config <> Unreadable -> write_fails dk = false ->
        dump_fails dk = true
        /\ (_store_in_config a credentials dk config).2 = Unreadable
        /\ forall b, _get_from_config b (_store_in_config a credentials dk config).2
                     = None).
Proof.
  unfold _store_in_config.
  destruct (makedirs_fails dk); [cbn; split; [done | by intros [=]]|].
  destruct config as [| | |all_creds]; cbn;
    try (split; [done | by intros _ []]);
    destruct (write_fails dk); cbn;
    try (split; [done | by intros _ _ [=]]);
    destruct (dump_fails dk); cbn;
    try (by rewrite lookup_insert_eq);
    (split; [by intros [[=]|[[=]|[=]]] | done]).
Qed.

Lemma ljust_length n fill s :
  String.length (ljust n fill s) = Nat.max n (String.length s).
Proof.
  revert s. induction n as [|n IH]; intros [|a s]; simpl; try done;
    rewrite IH; simpl; lia.
Qed.

Lemma take_bytes_length n s :
  String.length (take_bytes n s) = Nat.min n (String.length s).
Proof.
  revert s. induction n as [|n IH]; intros [|a s]; simpl; try done.
  by rewrite IH.
Qed.

Lemma ljust_take_padded n s :
  (String.length s < n)%nat ->
  ljust n "0" (take_bytes n (s +:+ "0")) = ljust n "0" (take_bytes n s).
Proof.
  revert s. induction n as [|n IH]; intros [|a s] Hl; simpl in *; try lia.
  - f_equal. by destruct n.
  - f_equal. apply IH. lia.
Qed.

(** X18. The salt of the encryption key is always 16 bytes long, and it
    sees the machine name only through its first 16 bytes, padded with the
    character 0: two machines whose names agree on their first 16 bytes
    derive the same key for every manager, and so does a machine whose
    name, shorter than 16 bytes, differs from another by one more 0 at the
    end. *)
Theorem encryption_key_salt derive a node node' :
  String.length (salt node) = 16%nat
  /\ (take_bytes 16 node = take_bytes 16 node' ->
      _get_encryption_key derive a node = _get_encryption_key derive a node')
  /\ ((String.length node < 16)%nat ->
      _get_encryption_key derive a (node +:+ "0") = _get_encryption_key derive a node).
Proof.
  split; [|split].
  - unfold salt. rewrite ljust_length, take_bytes_length. lia.
  - intros H. unfold _get_encryption_key, salt. by rewrite H.
  - intros H. unfold _get_encryption_key, salt. by rewrite ljust_take_padded.
Qed.
End StoredCredentials.

Lemma saved_credentials_found_again_witness :
  AuthManager._get_credentials (AuthManager.__init__ "shop" true)
    (stored_sources AuthManager.credentials_dict (fun _ => false)
       (fun salt password => salt +:+ password) (fun _ d => Some d)
       (AuthManager.__init__ "shop" true) "host" sound_disk
       (<["shop" := [("username", PStr "carol"); ("password", PStr "p")]]> ∅)
       AuthManager.NoDirectory two_sources)
  = ([("username", PStr "carol"); ("password", PStr "p")],
     AuthManager.with_credentials [("username", PStr "carol"); ("password", PStr "p")]
       (AuthManager.__init__ "shop" true),
     [AuthManager.ReadKeyring]).
Proof.
  exact (saved_credentials_found_again AuthManager.credentials_dict (fun _ => false)
           (fun salt password => salt +:+ password) (fun _ _ d => d) (fun _ d => Some d)
           "shop" true "host" "nonce" ∅ AuthManager.NoDirectory
           {| AuthManager.keyring_entry := None; AuthManager.config_entry := None;
              AuthManager.typed_username := "carol"; AuthManager.typed_password := "p";
              AuthManager.typed_save := true |}
           two_sources
           (fun _ _ _ => eq_refl) (fun _ _ _ => eq_refl)
           ltac:(discriminate) eq_refl
           ltac:(vm_compute; set_solver)).
Defined.

Lemma stores_keep_other_sites_witness :
  (AuthManager._store_in_config (AuthManager.__init__ "shop" false)
     sample_credentials full_disk
     (AuthManager.File (<["bank" := [("username", PStr "bob")]]> ∅))).1 = false
  /\ AuthManager._get_from_config (AuthManager.__init__ "bank" false)
       (AuthManager._store_in_config (AuthManager.__init__ "shop" false)
          sample_credentials full_disk
          (AuthManager.File (<["bank" := [("username", PStr "bob")]]> ∅))).2
     = None.
Proof.
  exact (proj2 (proj2
           (stores_keep_other_sites AuthManager.credentials_dict (fun _ => false)
              (fun salt password => salt +:+ password) (fun _ _ d => d)
              (fun _ d => Some d)
              (AuthManager.__init__ "shop" false) (AuthManager.__init__ "bank" false)
              "host" "host" "nonce" sample_credentials full_disk sound_disk ∅
              (AuthManager.File (<["bank" := [("username", PStr "bob")]]> ∅))
              ltac:(discriminate)))
           eq_refl eq_refl eq_refl ltac:(discriminate)).
Defined.

Lemma store_in_config_flag_witness :
  AuthManager._get_from_config (AuthManager.__init__ "bank" false)
    (AuthManager._store_in_config plain_manager sample_credentials full_disk
       (AuthManager.File (<["bank" := [("username", PStr "bob")]]> ∅))).2
  = None.
Proof.
  exact (proj2 (proj2 (proj2
           (store_in_config_flag plain_manager sample_credentials full_disk
              (AuthManager.File (<["bank" := [("username", PStr "bob")]]> ∅)))
           eq_refl ltac:(discriminate) eq_refl))
           (AuthManager.__init__ "bank" false)).
Defined.

Lemma encryption_key_salt_witness :
  AuthManager._get_encryption_key (fun salt password => salt +:+ password)
    plain_manager ("host" +:+ "0")
  = AuthManager._get_encryption_key (fun salt password => salt +:+ password)
      plain_manager "host".
Proof.
  exact (proj2 (proj2 (encryption_key_salt (fun salt password => salt +:+ password)
                         plain_manager "host" "host"))
           ltac:(vm_compute; lia)).
Defined.

Section Authentication.
Import WebCrawler AuthManager.

Lemma some_dict_spec d l : some_dict d = Some l -> d = Some l /\ l <> [].
Proof. destruct d as [[|kv d]|]; simpl; intros [= <-]; done. Qed.

(** [_get_credentials] never returns an empty dict, and the manager it
    leaves has cached what it returns. *)
Lemma get_credentials_cached a src :
  (_get_credentials a src).1.1 <> []
  /\ credentials (_get_credentials a src).1.2 = Some (_get_credentials a src).1.1.
Proof.
  unfold _get_credentials.
  destruct (some_dict (credentials a)) as [cached|] eqn:Hc; simpl.
  { by destruct (some_dict_spec _ _ Hc). }
  destruct (secure_storage a); simpl.
  - destruct (some_dict (keyring_entry src)) as [k|] eqn:Hk; simpl.
    { by destruct (some_dict_spec _ _ Hk). }
    destruct (some_dict (config_entry src)) as [f|] eqn:Hf; simpl.
    { by destruct (some_dict_spec _ _ Hf). }
    by destruct (typed_save src).
  - destruct (some_dict (config_entry src)) as [f|] eqn:Hf; simpl.
    { by destruct (some_dict_spec _ _ Hf). }
    by destruct (typed_save src).
Qed.

Section Dispatch.
Variable _extract_csrf_token : string -> option string.

(** X19. [authenticate] always has credentials to log in with: whatever
    the cache, the stores and the prompt give, [_get_credentials] returns a
    dict that is not empty, so that [authenticate] never raises for lack of
    credentials and is the login of the transport of the crawler with the
    credentials resolved. The manager caches them: a later resolution
    returns the same credentials and reads no store and no prompt, whatever
    these hold by then. *)
Theorem authenticate_has_credentials a src src' o x bx login_url form_selectors :
  (_get_credentials a src).1.1 <> []
  /\ (authenticate _extract_csrf_token a src o x bx login_url form_selectors).2
     = (c ← self;
        if use_browser c then
          ctx ← _authenticate_with_browser o bx login_url form_selectors
                  (_get_credentials a src).1.1;
          mret (BrowserContext ctx)
        else
          session ← _authenticate_with_http _extract_csrf_token o x login_url
                      form_selectors (_get_credentials a src).1.1;
          mret (ClientSession session))
  /\ _get_credentials
       (authenticate _extract_csrf_token a src o x bx login_url form_selectors).1.1 src'
     = ((_get_credentials a src).1.1,
        (authenticate _extract_csrf_token a src o x bx login_url form_selectors).1.1,
        []).
Proof.
  destruct (get_credentials_cached a src) as [Hne Hcache].
  unfold authenticate.
  destruct (_get_credentials a src) as [[creds a'] accesses]. simpl in *.
  split; [done|]. split.
  - by destruct creds.
  - unfold _get_credentials. rewrite Hcache. by destruct creds.
Qed.
End Dispatch.

Section Browser.
Variable bx : browser_exchange.
Variable form_selectors : gmap string string.

(** Filling the form changes neither the crawler nor the world. *)
Lemma fill_fields_run credentials c w :
  exists r, fill_fields bx form_selectors credentials c w = (r, c, w).
Proof.
  induction credentials as [|[field v] rest [r IH]]; simpl.
  - by eexists.
  - cbv [mbind M_bind mret M_ret await raise].
    destruct (has_selector form_selectors field).
    + destruct (fill bx _); [by eexists|]. rewrite IH. destruct r; by eexists.
    + rewrite IH. destruct r; by eexists.
Qed.

Lemma fill_fields_smooth credentials c w :
  (forall selector, fill bx selector = None) ->
  fill_fields bx form_selectors credentials c w = (inr tt, c, w).
Proof.
  intros Hf. induction credentials as [|[field v] rest IH]; simpl; [done|].
  cbv [mbind M_bind mret M_ret await raise].
  destruct (has_selector form_selectors field); [rewrite Hf|]; by rewrite IH.
Qed.
End Browser.

Ltac run :=
  cbv [mbind M_bind mret M_ret self the_world update emit fresh await raise read
       try_except try_finally new_session close_session].

Ltac step :=
  match goal with
  | |- context [fill_fields ?bx ?fs ?cr ?c ?w] =>
      let r := fresh "r" in
      destruct (fill_fields_run bx fs cr c w) as [r ->]; destruct r as [?|[]]
  | |- context [match ?x with _ => _ end] =>
      lazymatch x with context [fill_fields] => fail | _ => idtac end;
      match type of x with
      | option exn => destruct x eqn:?
      | sum exn _ => destruct x as [?|?] eqn:?
      | bool => destruct x eqn:?
      end
  end; simpl.

(** X20. The login through the browser, on a crawler that is initialized
    with a browser context. Every page it opens is closed when it returns
    or raises, and it opens and closes no client session. What the page
    raises reaches the caller as it is, not wrapped in an
    [AuthenticationException]: an error of [page.goto] is the outcome.
    When the login returns, it returns the context of the crawler, the
    page passed the verification, and the cookies of the crawler are
    those of the context, even if there are none; when it raises, the
    cookies of the crawler are as before. When no call fails, the login
    returns exactly if the page passes the verification, and otherwise
    raises the [AuthenticationException] of the verification. *)
Theorem browser_login_outcome o bx login_url form_selectors credentials ctx c w :
  _is_initialized c = true ->
  _context c = Some ctx ->
  pages_open (log (_authenticate_with_browser o bx login_url form_selectors
                     credentials c w).2) = pages_open (log w)
  /\ open_sessions (_authenticate_with_browser o bx login_url form_selectors
                      credentials c w).2 = open_sessions w
  /\ (forall e, login_new_page bx = None -> goto bx = Some e ->
        (_authenticate_with_browser o bx login_url form_selectors
           credentials c w).1.1 = inl e)
  /\ match (_authenticate_with_browser o bx login_url form_selectors
              credentials c w).1.1 with
     | inr ctx' =>
         ctx' = ctx
         /\ (exists content, page_content bx = inr content
                             /\ _verify_login_success content = true)
         /\ login_cookies bx
            = inr (_cookies (_authenticate_with_browser o bx login_url form_selectors
                               credentials c w).1.2)
     | inl _ =>
         _cookies (_authenticate_with_browser o bx login_url form_selectors
                     credentials c w).1.2 = _cookies c
     end
  /\ (forall content cookies,
        (_authenticate_with_browser o (smooth_login content cookies) login_url
           form_selectors credentials c w).1.1
        = if _verify_login_success content then inr ctx
          else inl (Raise AuthenticationException
                      "Login failed - verification check did not pass")).
Proof.
  intros Hi Hctx.
  assert (Hclosed : forall l url, pages_open (((l ++ [PageOpened ctx]) ++ [PageGoto url])
                                                ++ [PageClosed]) = pages_open l).
  { intros l url. rewrite !pages_open_app. simpl. lia. }
  split; [|split; [|split; [|split]]].
  - unfold _authenticate_with_browser. run. rewrite Hi. simpl. rewrite Hctx. simpl.
    repeat step; by rewrite ?Hclosed.
  - unfold _authenticate_with_browser. run. rewrite Hi. simpl. rewrite Hctx. simpl.
    repeat step; done.
  - intros e Hp Hg.
    unfold _authenticate_with_browser. run. rewrite Hi. simpl. rewrite Hctx. simpl.
    by rewrite Hp, Hg.
  - unfold _authenticate_with_browser. run. rewrite Hi. simpl. rewrite Hctx. simpl.
    repeat step; try done.
    all: simplify_eq/=; split; [done|]; split; [|done]; eexists; split; [done|];
      by apply negb_false_iff.
  - intros content cookies.
    unfold _authenticate_with_browser. run. rewrite Hi. simpl. rewrite Hctx. simpl.
    rewrite fill_fields_smooth by done. simpl.
    destruct (has_selector form_selectors "submit"); simpl;
      by destruct (_verify_login_success content).
Qed.
End Authentication.

Section Forms.
Import WebCrawler AuthManager.

Lemma contains_char c s : contains (String c EmptyString) s = true <-> c ∈ chars s.
Proof.
  induction s as [|a s IH]; simpl.
  - split; [done | by intros ?%elem_of_nil].
  - rewrite elem_of_cons, <- IH. destruct (Ascii.ascii_dec c a) as [->|Hne]; simpl.
    + split; [by left | by destruct s].
    + split; [by right | intros [?|?]; done].
Qed.

Lemma contains_char_false c s : c ∉ chars s -> contains (String c EmptyString) s = false.
Proof. intros H. apply not_true_is_false. by rewrite contains_char. Qed.

Lemma chars_app s1 s2 : chars (s1 +:+ s2) = chars s1 ++ chars s2.
Proof. induction s1 as [|a s1 IH]; simpl; [done | by rewrite IH]. Qed.

Lemma after_last_app c pre tail :
  c ∉ chars tail -> after_last c (pre +:+ String c tail) = tail.
Proof.
  intros Hc. induction pre as [|a pre IH]; simpl.
  - by rewrite (contains_char_false _ _ Hc), Ascii.eqb_refl.
  - replace (contains (String c EmptyString) (pre +:+ String c tail)) with true; [done|].
    symmetry. apply contains_char. rewrite chars_app. simpl. set_solver.
Qed.

Lemma before_first_app c head tail :
  c ∉ chars head -> before_first c (head +:+ String c tail) = head.
Proof.
  induction head as [|a head IH]; simpl; intros Hc.
  - by rewrite Ascii.eqb_refl.
  - apply not_elem_of_cons in Hc as [Hne Hc].
    destruct (Ascii.eqb_spec a c) as [->|_]; [done|]. by rewrite IH.
Qed.

(** A selector that starts with neither [#] nor [.] is cut at its last
    bracket, if it has one. *)
Lemma form_field_name_plain selector field :
  (forall c t, selector = String c t -> c <> "#"%char /\ c <> "."%char) ->
  form_field_name selector field
  = if contains "[" selector
    then before_first "=" (after_last "[" selector)
    else field.
Proof.
  intros Hs. destruct selector as [|c t]; [done|].
  destruct (Hs c t eq_refl) as [H1 H2].
  by destruct c as [[] [] [] [] [] [] [] []].
Qed.

(** The field named by an attribute selector is the attribute. *)
Lemma attribute_selector tag attr rest field :
  (forall c t, tag = String c t -> c <> "#"%char /\ c <> "."%char) ->
  "["%char ∉ chars attr -> "="%char ∉ chars attr -> "["%char ∉ chars rest ->
  form_field_name (tag +:+ String "[" (attr +:+ String "=" rest)) field = attr.
Proof.
  intros Htag Ha1 Ha2 Hr.
  rewrite form_field_name_plain.
  - replace (contains "[" (tag +:+ String "[" (attr +:+ String "=" rest))) with true.
    + rewrite after_last_app.
      * by apply before_first_app.
      * rewrite chars_app. simpl. set_solver.
    + symmetry. apply contains_char. rewrite chars_app. simpl. set_solver.
  - intros c t. destruct tag as [|c' t']; simpl.
    + by intros [= <- _].
    + intros [= <- _]. by eapply Htag.
Qed.

(** X21. How a selector names the form field that the login over HTTP
    posts: an id selector [#id] names the field [id]; a class selector
    names the field by its key in the credentials, and so does a selector
    without bracket or no selector at all; an attribute selector
    [tag[attr=value]] names the field [attr], the attribute tested and not
    its value. *)
Theorem form_field_name_cases field :
  (forall id, form_field_name (String "#" id) field = id)
  /\ (forall cls, form_field_name (String "." cls) field = field)
  /\ (forall selector,
        (forall c t, selector = String c t -> c <> "#"%char /\ c <> "."%char) ->
        "["%char ∉ chars selector ->
        form_field_name selector field = field)
  /\ (forall tag attr rest,
        (forall c t, tag = String c t -> c <> "#"%char /\ c <> "."%char) ->
        "["%char ∉ chars attr -> "="%char ∉ chars attr -> "["%char ∉ chars rest ->
        form_field_name (tag +:+ String "[" (attr +:+ String "=" rest)) field = attr).
Proof.
  split; [done|]. split; [done|]. split.
  - intros selector Hs Hb. rewrite form_field_name_plain by done.
    by rewrite (contains_char_false _ _ Hb).
  - intros tag attr rest. apply attribute_selector.
Qed.

Section Posting.
Variable _extract_csrf_token : string -> option string.

(** The form that a login posts once the login page was served. *)
Lemma login_posts o x login_url form_selectors credentials c w page :
  _is_initialized c = true ->
  login_page x = inr page ->
  HttpPost (next_id w) (default login_url (form_selectors !! "action"))
    (match _extract_csrf_token (text page) with
     | Some csrf_token =>
         if String.eqb csrf_token "" then form_of form_selectors credentials
         else <["csrf_token" := PStr csrf_token]> (form_of form_selectors credentials)
     | None => form_of form_selectors credentials
     end)
  ∈ log (_authenticate_with_http _extract_csrf_token o x login_url form_selectors
           credentials c w).2.
Proof.
  intros Hi Hp. unfold _authenticate_with_http, form_of.
  cbv [mbind M_bind mret M_ret self the_world update emit raise try_except
       new_session close_session].
  rewrite Hi. simpl. rewrite Hp. simpl.
  destruct (login_reply x) as [e|response]; simpl.
  - destruct (is_Exception e); simpl; set_solver.
  - destruct (bool_decide (status response ∈ [200; 301; 302; 303])); simpl;
      [destruct (_verify_login_success_html (text response)); simpl|];
      set_solver.
Qed.

Lemma login_posts_ready o x login_url form_selectors credentials c w page :
  _is_initialized c = true \/ use_browser c = false ->
  login_page x = inr page ->
  exists session,
    HttpPost session (default login_url (form_selectors !! "action"))
      (match _extract_csrf_token (text page) with
       | Some csrf_token =>
           if String.eqb csrf_token "" then form_of form_selectors credentials
           else <["csrf_token" := PStr csrf_token]> (form_of form_selectors credentials)
       | None => form_of form_selectors credentials
       end)
    ∈ log (_authenticate_with_http _extract_csrf_token o x login_url form_selectors
             credentials c w).2.
Proof.
  intros Hr Hp.
  destruct (authenticate_from_ready _extract_csrf_token o x login_url form_selectors
              credentials c w Hr) as (c1 & w1 & -> & Hi).
  eexists. by apply login_posts.
Qed.

(** Credentials that were typed and not saved keep the save flag. *)
Lemma get_credentials_declined a src :
  Prompted ∈ (_get_credentials a src).2 ->
  typed_save src = false ->
  (_get_credentials a src).1.1 = _prompt_for_credentials src.
Proof.
  intros Hin Hsave. revert Hin. unfold _get_credentials.
  change (dict_get "save" (_prompt_for_credentials src)) with (Some (PBool (typed_save src))).
  rewrite Hsave.
  destruct (some_dict (credentials a)); simpl.
  { by intros ?%elem_of_nil. }
  destruct (secure_storage a); simpl.
  - destruct (some_dict (keyring_entry src)); simpl.
    { intros Hin. exfalso. set_solver. }
    destruct (some_dict (config_entry src)); simpl; [|done].
    intros Hin. exfalso. set_solver.
  - destruct (some_dict (config_entry src)); simpl; [|done].
    intros Hin. exfalso. set_solver.
Qed.

(** X22. The answer to the save question is sent to the site when it is
    no: credentials that the user typed and declined to save keep their
    [save] entry, and the login over HTTP, once the login page was
    served, posts a form with the field [save] set to [False] beside the
    username and the password, unless a selector renames it. *)
Theorem declined_save_is_posted a src o x login_url form_selectors c w page :
  _is_initialized c = true \/ use_browser c = false ->
  login_page x = inr page ->
  Prompted ∈ (_get_credentials a src).2 ->
  typed_save src = false ->
  form_selectors !! "save" = None ->
  exists session data,
    HttpPost session (default login_url (form_selectors !! "action")) data
    ∈ log (_authenticate_with_http _extract_csrf_token o x login_url form_selectors
             (_get_credentials a src).1.1 c w).2
    /\ data !! "save" = Some (PBool false).
Proof.
  intros Hr Hp Hin Hsave Hsel.
  rewrite (get_credentials_declined a src Hin Hsave).
  destruct (login_posts_ready o x login_url form_selectors (_prompt_for_credentials src)
              c w page Hr Hp) as [session Hpost].
  eexists _, _. split; [exact Hpost|].
  assert (Hform : form_of form_selectors (_prompt_for_credentials src) !! "save"
                  = Some (PBool false)).
  { unfold form_of, _prompt_for_credentials. simpl. rewrite Hsel, Hsave.
    change (form_field_name (default "" None) "save") with "save".
    by rewrite lookup_insert_eq. }
  destruct (_extract_csrf_token (text page)) as [tok|]; [|done].
  destruct (String.eqb tok ""); [done|].
  by rewrite lookup_insert_ne.
Qed.

(** X23. Attribute selectors make the fields of the form collide: when
    the selectors of the username and of the password test the same
    attribute, as [input[name=user]] and [input[name=pass]] do, the form
    that the login over HTTP posts has, for the two of them, the one field
    named by the attribute, and it holds the password; the username is not
    sent. *)
Theorem attribute_selectors_collide o x login_url form_selectors c w page
    tag1 tag2 attr rest1 rest2 username password :
  _is_initialized c = true \/ use_browser c = false ->
  login_page x = inr page ->
  _extract_csrf_token (text page) = None ->
  (forall c t, tag1 = String c t -> c <> "#"%char /\ c <> "."%char) ->
  (forall c t, tag2 = String c t -> c <> "#"%char /\ c <> "."%char) ->
  "["%char ∉ chars attr -> "="%char ∉ chars attr ->
  "["%char ∉ chars rest1 -> "["%char ∉ chars rest2 ->
  form_selectors !! "username" = Some (tag1 +:+ String "[" (attr +:+ String "=" rest1)) ->
  form_selectors !! "password" = Some (tag2 +:+ String "[" (attr +:+ String "=" rest2)) ->
  exists session,
    HttpPost session (default login_url (form_selectors !! "action"))
      {[attr := PStr password]}
    ∈ log (_authenticate_with_http _extract_csrf_token o x login_url form_selectors
             [("username", PStr username); ("password", PStr password)] c w).2.
Proof.
  intros Hr Hp Hcsrf Ht1 Ht2 Ha1 Ha2 Hr1 Hr2 Hu Hpw.
  destruct (login_posts_ready o x login_url form_selectors
              [("username", PStr username); ("password", PStr password)]
              c w page Hr Hp) as [session Hpost].
  exists session. rewrite Hcsrf in Hpost.
  replace (form_of form_selectors [("username", PStr username); ("password", PStr password)])
    with ({[attr := PStr password]} : gmap string pyval) in Hpost; [done|].
  unfold form_of. simpl. rewrite Hu, Hpw. simpl.
  rewrite !attribute_selector by done.
  by rewrite insert_insert_eq, insert_empty.
Qed.
End Posting.
End Forms.

Section Phrases.
Import AuthManager.

Lemma prefix_app p s : String.prefix p (p +:+ s) = true.
Proof.
  induction p as [|a p IH]; simpl; [by destruct s|].
  by destruct (Ascii.ascii_dec a a).
Qed.

Lemma prefix_split p s : String.prefix p s = true -> exists post, s = p +:+ post.
Proof.
  revert s. induction p as [|a p IH]; intros s.
  - by exists s.
  - destruct s as [|b s]; simpl; [done|].
    destruct (Ascii.ascii_dec a b) as [->|]; [|done].
    intros [post ->]%IH. by exists post.
Qed.

(** [needle in hay] holds exactly when [needle] is a substring of [hay]. *)
Lemma contains_substring needle hay :
  contains needle hay = true <-> exists pre post, hay = pre +:+ needle +:+ post.
Proof.
  split.
  - induction hay as [|a hay IH]; cbn [contains].
    + rewrite orb_false_r. intros [post Hp]%prefix_split. by exists EmptyString, post.
    + intros [H|H]%orb_true_iff.
      * apply prefix_split in H as [post Hp]. by exists EmptyString, post.
      * destruct (IH H) as (pre & post & ->). by exists (String a pre), post.
  - intros (pre & post & ->). induction pre as [|a pre IH].
    + change (contains needle (needle +:+ post) = true).
      destruct (needle +:+ post) eqn:E; cbn [contains];
        rewrite <- E, prefix_app; done.
    + change (contains needle (String a (pre +:+ needle +:+ post)) = true).
      cbn [contains]. rewrite IH. apply orb_true_r.
Qed.

Lemma lower_app s1 s2 : lower (s1 +:+ s2) = lower s1 +:+ lower s2.
Proof. induction s1 as [|a s1 IH]; simpl; [done | by rewrite IH]. Qed.

(** X24. The two checks of a login read the page in the same way, and a
    failure phrase refuses the login wherever it stands: [text in page] is
    the substring test; a page that contains one of the failure phrases,
    anywhere and in any case of its ASCII letters, fails the check of the
    lightweight login and the check of the browser login; and the two
    checks give the same verdict on every page. *)
Theorem failure_phrase_anywhere :
  (forall needle hay,
     contains needle hay = true <-> exists pre post, hay = pre +:+ needle +:+ post)
  /\ (forall phrase variant pre post,
        phrase ∈ failure_texts -> lower variant = phrase ->
        _verify_login_success_html (pre +:+ variant +:+ post) = false
        /\ _verify_login_success (pre +:+ variant +:+ post) = false)
  /\ (forall content, _verify_login_success content = _verify_login_success_html content).
Proof.
  split; [apply contains_substring|]. split; [|done].
  intros phrase variant pre post Hin Hlow.
  assert (H : _verify_login_success_html (pre +:+ variant +:+ post) = false).
  { rewrite verify_login_spec. apply negb_false_iff. unfold mentions.
    apply existsb_exists. exists phrase. split; [by apply list_elem_of_In|].
    apply contains_substring. exists (lower pre), (lower post).
    by rewrite !lower_app, Hlow. }
  by split.
Qed.
End Phrases.

Lemma browser_login_outcome_witness :
  (AuthManager._authenticate_with_browser (sample_oracle (inl timed_out))
     (smooth_login "<a href=/logout>Logout</a>" []) "https://example.com/login"
     sample_selectors sample_credentials (browser_engine 3) sample_world).1.1
  = inr 3%nat.
Proof.
  exact (proj2 (proj2 (proj2 (proj2
           (browser_login_outcome (sample_oracle (inl timed_out))
              (smooth_login "<a href=/logout>Logout</a>" [])
              "https://example.com/login" sample_selectors sample_credentials
              3%nat (browser_engine 3) sample_world eq_refl eq_refl))))
           "<a href=/logout>Logout</a>" []).
Defined.

Lemma form_field_name_cases_witness :
  AuthManager.form_field_name "input[name=user]" "username" = "name".
Proof.
  refine (proj2 (proj2 (proj2 (form_field_name_cases "username")))
            "input" "name" "user]" _ _ _ _).
  - intros c t [= <- _]. done.
  - vm_compute. set_solver.
  - vm_compute. set_solver.
  - vm_compute. set_solver.
Defined.

Lemma declined_save_is_posted_witness :
  exists session data,
    WebCrawler.HttpPost session "https://example.com/login" data
    ∈ WebCrawler.log
        (AuthManager._authenticate_with_http no_csrf_token (sample_oracle (inl timed_out))
           (sample_exchange 200 "welcome") "https://example.com/login" sample_selectors
           (AuthManager._get_credentials plain_manager (typed_only "carol" "p" false)).1.1
           sample_engine sample_world).2
    /\ data !! "save" = Some (PBool false).
Proof.
  refine (declined_save_is_posted no_csrf_token plain_manager (typed_only "carol" "p" false)
            (sample_oracle (inl timed_out)) (sample_exchange 200 "welcome")
            "https://example.com/login" sample_selectors sample_engine sample_world
            (sample_response 200) (or_intror eq_refl) eq_refl _ eq_refl eq_refl).
  vm_compute. set_solver.
Defined.

Lemma attribute_selectors_collide_witness :
  exists session,
    WebCrawler.HttpPost session "https://example.com/login" {[ "name" := PStr "p" ]}
    ∈ WebCrawler.log
        (AuthManager._authenticate_with_http no_csrf_token (sample_oracle (inl timed_out))
           (sample_exchange 200 "welcome") "https://example.com/login"
           attribute_selectors [("username", PStr "carol"); ("password", PStr "p")]
           sample_engine sample_world).2.
Proof.
  refine (attribute_selectors_collide no_csrf_token (sample_oracle (inl timed_out))
            (sample_exchange 200 "welcome") "https://example.com/login"
            attribute_selectors sample_engine sample_world (sample_response 200)
            "input" "input" "name" "user]" "pass]" "carol" "p"
            (or_intror eq_refl) eq_refl eq_refl _ _ _ _ _ _ eq_refl eq_refl).
  - intros c t [= <- _]. done.
  - intros c t [= <- _]. done.
  - vm_compute. set_solver.
  - vm_compute. set_solver.
  - vm_compute. set_solver.
  - vm_compute. set_solver.
Defined.

Lemma failure_phrase_anywhere_witness :
  AuthManager._verify_login_success_html
    ("<p>Your dashboard</p><p>" +:+ "Login FAILED" +:+ "</p>") = false.
Proof.
  refine (proj1 (proj1 (proj2 failure_phrase_anywhere)
                   "login failed" "Login FAILED" "<p>Your dashboard</p><p>" "</p>" _ _)).
  - unfold AuthManager.failure_texts. set_solver.
  - reflexivity.
Defined.

Section Resources.
Import WebCrawler.

Lemma drivers_running_app l1 l2 :
  drivers_running (l1 ++ l2) = drivers_running l1 + drivers_running l2.
Proof. induction l1 as [|[] l1 IH]; simpl; lia. Qed.

Lemma browsers_running_app l1 l2 :
  browsers_running (l1 ++ l2) = browsers_running l1 + browsers_running l2.
Proof. induction l1 as [|[] l1 IH]; simpl; lia. Qed.

Ltac run :=
  cbv [mbind M_bind mret M_ret self the_world update emit fresh await raise
       try_except try_finally new_session close_session].

(** X25. A crawler that holds no driver, browser or open session releases
    with [close] whatever [initialize] started, whether [initialize]
    returned or raised on the way: afterwards no more drivers and browsers
    run than before and the open sessions are those there were. It does
    not if [initialize] is tried again after the launch of the browser
    failed: the second attempt starts a second driver, the crawler forgets
    the first one, and after [close] one driver more than before is left
    running. *)
Theorem close_releases_what_initialize_started o o' e c w :
  _is_initialized c = false ->
  _playwright c = None -> _browser c = None -> no_open_session c w = true ->
  fresh_ids w ->
  (drivers_running (log (initialize_then_close o c w)) = drivers_running (log w)
   /\ browsers_running (log (initialize_then_close o c w)) = browsers_running (log w)
   /\ open_sessions (initialize_then_close o c w) = open_sessions w)
  /\ (use_browser c = true ->
      playwright_start o = None -> browser_launch o = Some e -> startup_ok o' ->
      drivers_running (log (retry_then_close o o' c w)) = drivers_running (log w) + 1
      /\ browsers_running (log (retry_then_close o o' c w)) = browsers_running (log w)).
Proof.
  intros Hi Hp Hb Hs Hfresh.
  assert (Hnew : next_id w ∉ open_sessions w).
  { intros Hin. apply Hfresh in Hin. lia. }
  split.
  - unfold initialize_then_close. rewrite close_spec.
    unfold initialize, _initialize_browser, _initialize_session. run.
    rewrite Hi. simpl.
    destruct (use_browser c); simpl.
    + destruct (playwright_start o); simpl.
      { rewrite Hs, Hp, Hb. simpl. by rewrite !app_nil_r. }
      destruct (browser_launch o); simpl.
      { unfold no_open_session in *. simpl. rewrite Hs, Hb. simpl.
        rewrite !app_nil_r, !drivers_running_app, !browsers_running_app. simpl.
        repeat split; lia. }
      destruct (new_context o); simpl.
      { unfold no_open_session in *. simpl. rewrite Hs. simpl.
        rewrite !app_nil_r, !drivers_running_app, !browsers_running_app. simpl.
        repeat split; lia. }
      destruct (_cookies c); simpl; [|destruct (add_cookies o); simpl];
        unfold no_open_session in *; simpl; rewrite Hs; simpl;
        rewrite ?app_nil_r, !drivers_running_app, !browsers_running_app; simpl;
        repeat split; lia.
    + rewrite Hs. simpl. unfold no_open_session. simpl.
      rewrite bool_decide_eq_true_2 by set_solver. simpl. rewrite Hp, Hb. simpl.
      rewrite !app_nil_r, !drivers_running_app, !browsers_running_app. simpl.
      repeat split; [lia | lia | set_solver].
  - intros Hub Hps Hbl (Hps' & Hbl' & Hnc' & Hac').
    unfold retry_then_close, initialize_then_close. rewrite close_spec.
    unfold initialize, _initialize_browser. run.
    rewrite Hi, Hub. simpl. rewrite Hps, Hbl. simpl.
    rewrite Hi, Hub. simpl. rewrite Hps', Hbl', Hnc'. simpl.
    destruct (_cookies c); simpl; rewrite ?Hac'; simpl;
      unfold no_open_session in *; simpl; rewrite Hs; simpl;
      rewrite ?app_nil_r, !drivers_running_app, !browsers_running_app; simpl;
      split; lia.
Qed.
End Resources.

Lemma close_releases_what_initialize_started_witness :
  drivers_running
    (WebCrawler.log
       (retry_then_close no_browser (sample_oracle (inl timed_out))
          (WebCrawler.__init__ "https://example.com" false None None true) sample_world))
  = drivers_running (WebCrawler.log sample_world) + 1.
Proof.
  refine (proj1 (proj2
    (close_releases_what_initialize_started no_browser (sample_oracle (inl timed_out))
       timed_out (WebCrawler.__init__ "https://example.com" false None None true)
       sample_world eq_refl eq_refl eq_refl eq_refl _)
    eq_refl eq_refl eq_refl _)).
  - intros id Hid. vm_compute in Hid. set_solver.
  - repeat split.
Defined.

Section Crawl.
Import WebCrawler Orchestrator.

Ltac run :=
  cbv [mbind M_bind mret M_ret self the_world update emit fresh await raise
       try_except try_finally new_session close_session].

Section Loop.
Variable urljoin : string -> string -> string.

(** One fetch on a lightweight engine that is initialized and holds a
    session: a sleep and a GET on that session; the engine stays as it
    is but for its cookies. *)
Lemma fetch_on_session o url params c w sid :
  use_browser c = false -> _is_initialized c = true -> _session c = Some sid ->
  exists r c',
    fetch_page urljoin o url params c w
    = (r, c',
       World (next_id w) (open_sessions w)
         (log w ++ [Slept (Qmax 0 (RateLimiter.delay (rate_limiter c) + jitter_draw o));
                    HttpGet sid (normalized urljoin c url) params]))
    /\ (forall e, r = inl e -> is_Exception e = false -> http_reply o = inl e)
    /\ use_browser c' = false /\ _is_initialized c' = true /\ _session c' = Some sid
    /\ rate_limiter c' = rate_limiter c /\ WebCrawler.base_url c' = WebCrawler.base_url c.
Proof.
  intros Hb Hi Hs.
  rewrite (fetch_page_initialized urljoin o url params c w Hi), after_wait_spec, Hb.
  unfold try_except, _fetch_with_http. run. simpl. rewrite Hs. simpl.
  destruct (http_reply o) as [e|response]; simpl.
  - destruct (unread_response o); simpl;
      destruct (is_Exception e) eqn:He; simpl; rewrite <- app_assoc; simpl;
      eexists _, _; (split; [reflexivity|]); repeat split; try done;
      try (intros e' [= <-]; done); intros e' [= <-] _; done.
  - destruct (status response =? 200); simpl; rewrite <- app_assoc; simpl;
      eexists _, _; (split; [reflexivity|]); repeat split; try done.
    intros e' [= <-]. done.
Qed.

Lemma crawl_log_same c c' sid visits i urls :
  rate_limiter c' = rate_limiter c -> WebCrawler.base_url c' = WebCrawler.base_url c ->
  crawl_log urljoin c' sid visits i urls = crawl_log urljoin c sid visits i urls.
Proof.
  intros Hl Hu. revert i. induction urls as [|url rest IH]; intros i; simpl; [done|].
  unfold normalized. by rewrite Hl, Hu, IH.
Qed.

Lemma requests_crawl_log c sid visits i urls :
  requests (crawl_log urljoin c sid visits i urls) = length urls.
Proof.
  revert i. induction urls as [|url rest IH]; intros i; simpl; [done|].
  change (requests (?a :: ?b :: ?l)) with (S (requests l)). by rewrite IH.
Qed.

(** The loop of [run] on such an engine: every address is fetched on the
    session, and counted as processed or as an error. *)
Lemma crawl_on_session visits urls : forall i st c w sid,
  only_exceptions visits ->
  use_browser c = false -> _is_initialized c = true -> _session c = Some sid ->
  exists st' c',
    crawl urljoin visits i urls st c w
    = (inr tt, st', c',
       World (next_id w) (open_sessions w)
         (log w ++ crawl_log urljoin c sid visits i urls))
    /\ pages_processed st' + errors st'
       = pages_processed st + errors st + Z.of_nat (length urls)
    /\ items_extracted st <= items_extracted st'
    /\ start_time st' = start_time st /\ end_time st' = end_time st
    /\ use_browser c' = false /\ _is_initialized c' = true /\ _session c' = Some sid.
Proof.
  induction urls as [|url rest IH]; intros i st c w sid Hv Hb Hi Hs.
  - exists st, c. simpl. rewrite app_nil_r. destruct w.
    repeat split; try done; lia.
  - destruct (fetch_on_session (environment (visits i)) url None c w sid Hb Hi Hs)
      as (r & c1 & Hf & Hr & Hb1 & Hi1 & Hs1 & Hl1 & Hu1).
    destruct (Hv i) as [Hv1 Hv2].
    cbn [crawl]. rewrite Hf.
    set (w1 := World _ _ _).
    assert (Hstep : forall st1,
              pages_processed st1 + errors st1 = pages_processed st + errors st + 1 ->
              items_extracted st <= items_extracted st1 ->
              start_time st1 = start_time st -> end_time st1 = end_time st ->
              exists st' c',
                crawl urljoin visits (S i) rest st1 c1 w1
                = (inr tt, st', c',
                   World (next_id w) (open_sessions w)
                     (log w ++ crawl_log urljoin c sid visits i (url :: rest)))
                /\ pages_processed st' + errors st'
                   = pages_processed st + errors st + Z.of_nat (length (url :: rest))
                /\ items_extracted st <= items_extracted st'
                /\ start_time st' = start_time st /\ end_time st' = end_time st
                /\ use_browser c' = false /\ _is_initialized c' = true
                /\ _session c' = Some sid).
    { intros st1 H1 H2 H3 H4.
      destruct (IH (S i) st1 c1 w1 sid Hv Hb1 Hi1 Hs1)
        as (st' & c' & Hc & Hp & Hit & Hst & Het & Hb' & Hi' & Hs').
      exists st', c'. rewrite Hc. subst w1. cbn [next_id open_sessions log].
      rewrite (crawl_log_same c c1 sid visits (S i) rest Hl1 Hu1).
      rewrite <- app_assoc. cbn [crawl_log app length].
      repeat split; try done; try congruence; lia. }
    destruct r as [e|html].
    + destruct (is_Exception e) eqn:He.
      * apply Hstep; simpl; lia || done.
      * rewrite (Hv1 e (Hr e eq_refl He)) in He. done.
    + destruct (handled (visits i) html) as [e|raw_data] eqn:Hh.
      * rewrite (Hv2 html e Hh). apply Hstep; simpl; lia || done.
      * apply Hstep; simpl; try done; destruct raw_data; lia.
Qed.

(** The first fetch of a lightweight engine is a fetch of the engine that
    [initialize] leaves. *)
Lemma crawl_from_lightweight visits i url rest st c w :
  lightweight c ->
  exists c1 w1 sid,
    crawl urljoin visits i (url :: rest) st c w
    = crawl urljoin visits i (url :: rest) st c1 w1
    /\ use_browser c1 = false /\ _is_initialized c1 = true /\ _session c1 = Some sid
    /\ rate_limiter c1 = rate_limiter c /\ WebCrawler.base_url c1 = WebCrawler.base_url c
    /\ requests (log w1) = requests (log w).
Proof.
  intros [Hb Hses].
  destruct (_is_initialized c) eqn:Hi.
  - destruct (Hses eq_refl) as [sid Hs]. by exists c, w, sid.
  - pose proof (initialize_http (environment (visits i)) c w Hi Hb) as (Hok & sid & Hs & _).
    pose proof (initialize_flag (environment (visits i)) c w Hok) as Hf.
    pose proof (initialize_same_config (environment (visits i)) c w) as [Hu Hub].
    pose proof (initialize_same_limiter (environment (visits i)) c w) as Hl.
    pose proof (initialize_same_requests (environment (visits i)) c w) as Hq.
    exists (initialize (environment (visits i)) c w).1.2,
           (initialize (environment (visits i)) c w).2, sid.
    split; [|simpl in *; repeat split; try done; try congruence].
    cbn [crawl].
    rewrite (fetch_page_after_initialize urljoin (environment (visits i)) url None c w).
    unfold mbind at 1, M_bind at 1.
    destruct (initialize (environment (visits i)) c w) as [[[e|[]] c1] w1];
      simpl in *; done.
Qed.

(** X26. A run without login on a lightweight crawler, when nothing that
    the transport or the processing raises escapes [Exception]: the run
    returns; every target address is fetched once, a failing address not
    keeping the following ones from being fetched, so that the log has one
    request more per address; each address is counted either as a page
    processed or as an error, so that the two counters grow together by
    the number of addresses, on top of what earlier runs left in them; the
    items counter does not decrease; the two times are those of the clock
    at the start and at the end. An empty list of addresses stands for no
    list: the start addresses of the configuration are crawled. *)
Theorem run_accounts_for_every_address cfg urls visits now1 now2 st c w :
  lightweight c ->
  only_exceptions visits ->
  (run urljoin None cfg urls visits now1 now2 st c w).1.1.1 = inr tt
  /\ pages_processed (run urljoin None cfg urls visits now1 now2 st c w).1.1.2
     + errors (run urljoin None cfg urls visits now1 now2 st c w).1.1.2
     = pages_processed st + errors st + Z.of_nat (length (target_urls cfg urls))
  /\ requests (log (run urljoin None cfg urls visits now1 now2 st c w).2)
     = (requests (log w) + length (target_urls cfg urls))%nat
  /\ items_extracted st
     <= items_extracted (run urljoin None cfg urls visits now1 now2 st c w).1.1.2
  /\ start_time (run urljoin None cfg urls visits now1 now2 st c w).1.1.2 = Some now1
  /\ end_time (run urljoin None cfg urls visits now1 now2 st c w).1.1.2 = Some now2
  /\ run urljoin None cfg (Some []) visits now1 now2 st c w
     = run urljoin None cfg None visits now1 now2 st c w.
Proof.
  intros Hl Hv. split_and ?; [..|done]; unfold run;
    set (st0 := Stats _ _ _ (Some now1) _);
    (destruct (target_urls cfg urls) as [|url rest] eqn:Ht; [simpl; try done; lia|]);
    destruct (crawl_from_lightweight visits 0 url rest st0 c w Hl)
      as (c1 & w1 & sid & -> & Hb & Hi & Hs & _ & _ & Hq);
    destruct (crawl_on_session visits (url :: rest) 0 st0 c1 w1 sid Hv Hb Hi Hs)
      as (st' & c' & -> & Hp & Hit & Hst & Het & _);
    cbn [fst snd pages_processed errors items_extracted start_time end_time log];
    rewrite ?requests_app, ?requests_crawl_log; try done.
  by rewrite Hq.
Qed.
End Loop.
End Crawl.

Section LoggedIn.
Import WebCrawler AuthManager Orchestrator.

Ltac frame R_refl R_trans tac :=
  repeat first
    [ apply (preserves_bind _ R_trans); [|intros ?]
    | apply (preserves_try_except _ R_trans); [|intros ?]
    | apply (preserves_try_finally _ R_trans)
    | apply (preserves_ret _ R_refl)
    | apply (preserves_raise _ R_refl)
    | apply (preserves_await _ R_refl)
    | apply (preserves_self _ R_refl)
    | apply (preserves_the_world _ R_refl)
    | match goal with
      | |- preserves _ (if ?b then _ else _) => destruct b
      | |- preserves _ (match ?x with _ => _ end) => destruct x
      end
    | solve [tac] ].

Section Run.
Variable urljoin : string -> string -> string.
Variable _extract_csrf_token : string -> option string.

Lemma authenticate_same_config o x login_url form_selectors credentials :
  preserves same_config
    (_authenticate_with_http _extract_csrf_token o x login_url form_selectors credentials).
Proof.
  unfold _authenticate_with_http.
  frame same_config_refl same_config_trans
    ltac:(first [apply initialize_same_config | intros c w; by split]).
Qed.

Lemma authenticate_same_limiter o x login_url form_selectors credentials :
  preserves same_limiter
    (_authenticate_with_http _extract_csrf_token o x login_url form_selectors credentials).
Proof.
  unfold _authenticate_with_http.
  frame same_limiter_refl same_limiter_trans
    ltac:(first [apply initialize_same_limiter | intros c w; done]).
Qed.

(** A login that returns leaves the crawler initialized. *)
Lemma authenticate_flag o x login_url form_selectors credentials c w session :
  use_browser c = false ->
  (_authenticate_with_http _extract_csrf_token o x login_url form_selectors
     credentials c w).1.1 = inr session ->
  _is_initialized
    (_authenticate_with_http _extract_csrf_token o x login_url form_selectors
       credentials c w).1.2 = true.
Proof.
  intros Hb.
  destruct (authenticate_from_ready _extract_csrf_token o x login_url form_selectors
              credentials c w (or_intror Hb)) as (c1 & w1 & -> & Hi).
  unfold _authenticate_with_http.
  cbv [mbind M_bind self mret M_ret try_except new_session emit raise update
       close_session].
  rewrite Hi. simpl.
  destruct (login_page x) as [e|page]; simpl.
  { by destruct (is_Exception e). }
  destruct (login_reply x) as [e|response]; simpl.
  { by destruct (is_Exception e). }
  destruct (bool_decide (status response ∈ [200; 301; 302; 303])); simpl;
    [destruct (_verify_login_success_html (text response)); simpl|]; done.
Qed.

(** On the lightweight transport, [authenticate] is the login over HTTP
    with the credentials resolved. *)
Lemma authenticate_lightweight a src o x bx login_url form_selectors c w :
  use_browser c = false ->
  (authenticate _extract_csrf_token a src o x bx login_url form_selectors).2 c w
  = match _authenticate_with_http _extract_csrf_token o x login_url form_selectors
            (_get_credentials a src).1.1 c w with
    | (inl e, c1, w1) => (inl e, c1, w1)
    | (inr session, c1, w1) => (inr (ClientSession session), c1, w1)
    end.
Proof.
  intros Hb. destruct (get_credentials_cached a src) as [Hne _].
  unfold authenticate.
  destruct (_get_credentials a src) as [[creds a'] accesses]. simpl in *.
  destruct creds as [|kv creds]; [done|].
  cbv [mbind M_bind self mret M_ret]. rewrite Hb.
  by destruct (_authenticate_with_http _ _ _ _ _ _ _ _) as [[[e|s] c1] w1].
Qed.

(** X27. A run with login on a lightweight crawler. When the login
    raises, the run raises the same exception before any address is
    fetched: the crawler and the world are as the login left them, and the
    failure is not counted, the counters of pages, items and errors being
    as before. When the login returns a session, and nothing that the
    transport or the processing raises escapes [Exception], the run
    returns, the crawler holds the session of the login, and what the run
    adds to the log after the login and [set_session] is, for each target
    address in order, one sleep and one GET on the session of the login;
    each address is counted as a page processed or as an error. *)
Theorem run_after_login a src o x bx login_url form_selectors cfg urls visits
    now1 now2 st c w :
  lightweight c ->
  only_exceptions visits ->
  (forall e c1 w1,
     (authenticate _extract_csrf_token a src o x bx login_url form_selectors).2 c w
     = (inl e, c1, w1) ->
     run urljoin
       (Some (authenticate _extract_csrf_token a src o x bx login_url form_selectors).2)
       cfg urls visits now1 now2 st c w
     = (inl e,
        Stats (pages_processed st) (items_extracted st) (errors st)
              (Some now1) (Some now2),
        c1, w1))
  /\ (forall h c1 w1,
        (authenticate _extract_csrf_token a src o x bx login_url form_selectors).2 c w
        = (inr h, c1, w1) ->
        (run urljoin
           (Some (authenticate _extract_csrf_token a src o x bx login_url
                    form_selectors).2)
           cfg urls visits now1 now2 st c w).1.1.1 = inr tt
        /\ _session
             (run urljoin
                (Some (authenticate _extract_csrf_token a src o x bx login_url
                         form_selectors).2)
                cfg urls visits now1 now2 st c w).1.2 = Some (handle_id h)
        /\ log (run urljoin
                  (Some (authenticate _extract_csrf_token a src o x bx login_url
                           form_selectors).2)
                  cfg urls visits now1 now2 st c w).2
           = log (set_session (Some (handle_id h)) c1 w1).2
             ++ crawl_log urljoin c (handle_id h) visits 0 (target_urls cfg urls)
        /\ pages_processed
             (run urljoin
                (Some (authenticate _extract_csrf_token a src o x bx login_url
                         form_selectors).2)
                cfg urls visits now1 now2 st c w).1.1.2
           + errors
               (run urljoin
                  (Some (authenticate _extract_csrf_token a src o x bx login_url
                           form_selectors).2)
                  cfg urls visits now1 now2 st c w).1.1.2
           = pages_processed st + errors st + Z.of_nat (length (target_urls cfg urls))).
Proof.
  intros [Hb Hses] Hv. split.
  - intros e c1 w1 Hlogin. unfold run. by rewrite Hlogin.
  - intros h c1 w1 Hlogin. unfold run. rewrite Hlogin.
    rewrite (authenticate_lightweight a src o x bx login_url form_selectors c w Hb)
      in Hlogin.
    pose proof (authenticate_same_config o x login_url form_selectors
                  (_get_credentials a src).1.1 c w) as [Hu Hub].
    pose proof (authenticate_same_limiter o x login_url form_selectors
                  (_get_credentials a src).1.1 c w) as Hl.
    pose proof (authenticate_flag o x login_url form_selectors
                  (_get_credentials a src).1.1 c w) as Hf.
    unfold same_limiter in Hl.
    destruct (_authenticate_with_http _ _ _ _ _ _ _ _) as [[[e|s] c1'] w1'];
      [done|]. simplify_eq/=.
    rewrite set_session_spec.
    set (w2 := if no_open_session c1 w1 then _ else _).
    set (st0 := Stats _ _ _ (Some now1) _).
    assert (Hb2 : use_browser (with_session (Some s) c1) = false)
      by (simpl; congruence).
    assert (Hi2 : _is_initialized (with_session (Some s) c1) = true)
      by (simpl; by apply (Hf s)).
    destruct (crawl_on_session urljoin visits (target_urls cfg urls) 0 st0
                (with_session (Some s) c1) w2 s Hv Hb2 Hi2 eq_refl)
      as (st' & c' & -> & Hp & _ & _ & _ & _ & _ & Hs').
    cbn [fst snd pages_processed errors log].
    rewrite (crawl_log_same urljoin c (with_session (Some s) c1) s visits 0
               (target_urls cfg urls)) by done.
    done.
Qed.
End Run.
End LoggedIn.

Lemma run_accounts_for_every_address_witness :
  Orchestrator.pages_processed
    (Orchestrator.run sample_urljoin None sample_site None sample_visits 0 1
       Orchestrator.new_stats (Orchestrator.new_crawler sample_global sample_site)
       sample_world).1.1.2
  + Orchestrator.errors
      (Orchestrator.run sample_urljoin None sample_site None sample_visits 0 1
         Orchestrator.new_stats (Orchestrator.new_crawler sample_global sample_site)
         sample_world).1.1.2
  = 0 + 0 + 3.
Proof.
  refine (proj1 (proj2
    (run_accounts_for_every_address sample_urljoin sample_site None sample_visits 0 1
       Orchestrator.new_stats (Orchestrator.new_crawler sample_global sample_site)
       sample_world _ _))).
  - split; [reflexivity | discriminate].
  - intros i. split.
    + unfold sample_visits, sample_oracle. simpl.
      destruct (Nat.even i); [discriminate|]. by intros e [= <-].
    + discriminate.
Defined.

Lemma run_after_login_witness :
  (Orchestrator.run sample_urljoin
     (Some (AuthManager.authenticate no_csrf_token plain_manager
              (typed_only "carol" "p" true) (sample_oracle (inl timed_out))
              (sample_exchange 200 "welcome") (smooth_login "welcome" [])
              "https://example.com/login" sample_selectors).2)
     sample_site None sample_visits 0 1 Orchestrator.new_stats
     (Orchestrator.new_crawler sample_global sample_site) sample_world).1.1.1
  = inr tt.
Proof.
  refine (proj1 (proj2
    (run_after_login sample_urljoin no_csrf_token plain_manager
       (typed_only "carol" "p" true) (sample_oracle (inl timed_out))
       (sample_exchange 200 "welcome") (smooth_login "welcome" [])
       "https://example.com/login" sample_selectors sample_site None sample_visits 0 1
       Orchestrator.new_stats (Orchestrator.new_crawler sample_global sample_site)
       sample_world _ _) _ _ _ eq_refl)).
  - split; [reflexivity | discriminate].
  - intros i. split.
    + unfold sample_visits, sample_oracle. simpl.
      destruct (Nat.even i); [discriminate|]. by intros e [= <-].
    + discriminate.
Defined.

Section Headers.
Import WebCrawler.

(** X28. The headers of a session: every header configured for the
    crawler is sent as configured; a [User-Agent] that is configured is
    kept, and only when none is configured and rotation is on is the drawn
    user agent sent. The test is on the exact spelling of the name: beside
    a configured [user-agent], rotation adds a header [User-Agent] with
    the drawn agent, and both are sent. *)
Theorem get_headers_user_agent ua c :
  (forall name, name <> "User-Agent" -> _get_headers ua c !! name = headers c !! name)
  /\ _get_headers ua c !! "User-Agent"
     = match headers c !! "User-Agent" with
       | Some configured => Some configured
       | None => if user_agent_rotation c then Some ua else None
       end
  /\ (forall configured,
        user_agent_rotation c = true ->
        headers c !! "user-agent" = Some configured ->
        headers c !! "User-Agent" = None ->
        _get_headers ua c !! "user-agent" = Some configured
        /\ _get_headers ua c !! "User-Agent" = Some ua).
Proof.
  assert (H1 : forall name, name <> "User-Agent" ->
                 _get_headers ua c !! name = headers c !! name).
  { intros name Hn. unfold _get_headers.
    destruct (user_agent_rotation c && _); [|done]. by rewrite lookup_insert_ne. }
  assert (H2 : _get_headers ua c !! "User-Agent"
               = match headers c !! "User-Agent" with
                 | Some configured => Some configured
                 | None => if user_agent_rotation c then Some ua else None
                 end).
  { unfold _get_headers.
    destruct (headers c !! "User-Agent") as [v|] eqn:Hv.
    - rewrite bool_decide_eq_true_2 by eauto. rewrite andb_false_r. done.
    - rewrite bool_decide_eq_false_2 by (intros [? ?]; done).
      destruct (user_agent_rotation c); simpl; [|done]. by rewrite lookup_insert_eq. }
  split; [done|]. split; [done|].
  intros configured Hr Hl Hu. split.
  - by rewrite H1.
  - by rewrite H2, Hu, Hr.
Qed.
End Headers.

Lemma get_headers_user_agent_witness :
  WebCrawler._get_headers "Mozilla/5.0"
    (WebCrawler.__init__ "https://example.com" true None
       (Some (<["user-agent" := "curl/8"]> ∅)) false) !! "user-agent" = Some "curl/8"
  /\ WebCrawler._get_headers "Mozilla/5.0"
       (WebCrawler.__init__ "https://example.com" true None
          (Some (<["user-agent" := "curl/8"]> ∅)) false) !! "User-Agent"
     = Some "Mozilla/5.0".
Proof.
  exact (proj2 (proj2 (get_headers_user_agent "Mozilla/5.0"
                         (WebCrawler.__init__ "https://example.com" true None
                            (Some (<["user-agent" := "curl/8"]> ∅)) false)))
           "curl/8" eq_refl eq_refl eq_refl).
Defined.

Section Cleanup.
Import WebCrawler Orchestrator.
Variable urljoin : string -> string -> string.

(** The first fetch of a crawler that is not initialized and has no open
    session is a fetch on the session that [initialize] creates. *)
Lemma crawl_from_new visits i url rest st c w :
  use_browser c = false -> _is_initialized c = false -> no_open_session c w = true ->
  exists c1 hdrs jar,
    crawl urljoin visits i (url :: rest) st c w
    = crawl urljoin visits i (url :: rest) st c1
        (World (S (next_id w)) ({[next_id w]} ∪ open_sessions w)
           (log w ++ [SessionCreated (next_id w) hdrs jar]))
    /\ use_browser c1 = false /\ _is_initialized c1 = true
    /\ _session c1 = Some (next_id w)
    /\ _browser c1 = _browser c /\ _playwright c1 = _playwright c.
Proof.
  intros Hb Hi Hs.
  eexists _, _, _. split.
  - cbn [crawl].
    rewrite (fetch_page_after_initialize urljoin (environment (visits i)) url None c w).
    unfold mbind at 1, M_bind at 1.
    unfold initialize, _initialize_session.
    cbv [mbind M_bind mret M_ret self the_world update new_session].
    rewrite Hi, Hb. simpl. rewrite Hs. simpl. reflexivity.
  - done.
Qed.

(** X29. [cleanup] releases nothing. After a run without login over at
    least one address, on a lightweight crawler that was not initialized
    and had no open session, the session that the crawler created is open,
    and it is still open after [cleanup], whose call of [close] is never
    awaited; an awaited [close] in its place would have left open only the
    sessions that were open before the run. *)
Theorem cleanup_leaves_session_open cfg urls visits now1 now2 st c w :
  use_browser c = false -> _is_initialized c = false -> no_open_session c w = true ->
  fresh_ids w ->
  only_exceptions visits ->
  target_urls cfg urls <> [] ->
  open_sessions
    (cleanup (run urljoin None cfg urls visits now1 now2 st c w).1.2
             (run urljoin None cfg urls visits now1 now2 st c w).2).2
  = {[next_id w]} ∪ open_sessions w
  /\ (next_id w ∉ open_sessions w)
  /\ open_sessions
       (close (run urljoin None cfg urls visits now1 now2 st c w).1.2
              (run urljoin None cfg urls visits now1 now2 st c w).2).2
     = open_sessions w.
Proof.
  intros Hb Hi Hs Hfresh Hv Ht.
  assert (Hnew : next_id w ∉ open_sessions w).
  { intros Hin. apply Hfresh in Hin. lia. }
  unfold run. set (st0 := Stats _ _ _ (Some now1) _).
  destruct (target_urls cfg urls) as [|url rest]; [done|].
  destruct (crawl_from_new visits 0 url rest st0 c w Hb Hi Hs)
    as (c1 & hdrs & jar & -> & Hb1 & Hi1 & Hs1 & Hbr1 & Hpw1).
  destruct (crawl_on_session urljoin visits (url :: rest) 0 st0 c1
              (World (S (next_id w)) ({[next_id w]} ∪ open_sessions w)
                 (log w ++ [SessionCreated (next_id w) hdrs jar]))
              (next_id w) Hv Hb1 Hi1 Hs1)
    as (st' & c' & -> & _ & _ & _ & _ & _ & _ & Hs').
  cbn [fst snd]. split; [done|]. split; [done|].
  rewrite close_spec. unfold no_open_session. rewrite Hs'. cbn [open_sessions].
  rewrite bool_decide_eq_true_2 by set_solver. simpl. set_solver.
Qed.
End Cleanup.

Lemma cleanup_leaves_session_open_witness :
  WebCrawler.open_sessions
    (Orchestrator.cleanup
       (Orchestrator.run sample_urljoin None sample_site None sample_visits 0 1
          Orchestrator.new_stats (Orchestrator.new_crawler sample_global sample_site)
          sample_world).1.2
       (Orchestrator.run sample_urljoin None sample_site None sample_visits 0 1
          Orchestrator.new_stats (Orchestrator.new_crawler sample_global sample_site)
          sample_world).2).2
  = {[WebCrawler.next_id sample_world]} ∪ WebCrawler.open_sessions sample_world.
Proof.
  refine (proj1
    (cleanup_leaves_session_open sample_urljoin sample_site None sample_visits 0 1
       Orchestrator.new_stats (Orchestrator.new_crawler sample_global sample_site)
       sample_world eq_refl eq_refl eq_refl _ _ _)).
  - intros id Hid. vm_compute in Hid. set_solver.
  - intros i. split.
    + unfold sample_visits, sample_oracle. simpl.
      destruct (Nat.even i); [discriminate|]. by intros e [= <-].
    + discriminate.
  - discriminate.
Defined.
